(** * GameTracker: the normalisation, merge and aggregation pipeline of app.py

    A shallow embedding of the data pipeline of [src/app.py]
    ([normalize_log_df], [normalize_register_df], [merge_data],
    [show_summary_metrics], [playtime_achievements], [genre_filter] and the
    top-games rollup of [main_charts]) together with the pandas operations
    these functions call.

    Modelling conventions.
    - A pandas [DataFrame] is a list of column labels and a list of rows;
      a row is the list of its cells, in column order.  Columns carry no
      dtype: the one dtype check that the program meets, that of the two
      key columns of a merge, is a parameter of the merge.
    - Every missing marker of pandas ([NaN], [None], [NaT]) is the one cell
      [NA].
    - A float64 value is an exact rational ([Qc]): sums carry no rounding
      error and there are no infinities.  [round_float] rounds the exact
      value, and a value halfway between two neighbours to the even one,
      where float64 can fall to either neighbour; the statements about
      rounded durations give bounds that hold for both, or are about
      values that are not halfway.
    - A [datetime64[ns]] value is the integer count of nanoseconds since
      1970-01-01T00:00:00, unbounded.
    - The date parser of pandas, its check of merge keys, the text it
      makes of a missing period, the selection widget of streamlit and the
      two chart functions of plotly are parameters of the functions that
      call them.
    - pandas does not say in which order its default sort leaves equal
      values; [sort_values_desc] leaves them in the order they had, and
      the statements about the rollup do not depend on it.
    - Strings are byte strings; [strip] and [lower] act on ASCII.
    - A Python exception is the [Raise] case of [result].  A frame that is
      assigned to is an object on a heap, so that aliasing shows. *)

From Stdlib Require Import ZArith QArith Qcanon Qround Lia Lqa Ascii.
From stdpp Require Import base numbers list strings pretty sorting gmap.

Local Open Scope Z_scope.

(** ** Exceptions and results *)

Inductive exn :=
  | KeyError (label : string)
  | ValueError
  | TypeError
  | AttributeError
  | MergeError.

Inductive result (A : Type) :=
  | Ok (a : A)
  | Raise (e : exn).
Arguments Ok {A} a.
Arguments Raise {A} e.

Global Instance result_ret : MRet result := @Ok.
Global Instance result_bind : MBind result := λ A B f m,
  match m with Ok a => f a | Raise e => Raise e end.

Definition is_Ok {A} (r : result A) : Prop := ∃ a, r = Ok a.

Global Instance exn_eq_dec : EqDecision exn.
Proof. solve_decision. Defined.
Global Instance result_eq_dec {A} `{EqDecision A} : EqDecision (result A).
Proof. solve_decision. Defined.

(** ** Cells, series and data frames *)

Inductive cell :=
  | NA
  | Str (s : string)
  | Num (x : Qc)
  | Ts (ns : Z)
  | Per (year month : Z).

Global Instance cell_eq_dec : EqDecision cell.
Proof. solve_decision. Defined.

Abbreviation Series := (list cell) (only parsing).

Record DataFrame := mkDataFrame {
  columns : list string;
  rows : list (list cell)
}.

Global Instance DataFrame_eq_dec : EqDecision DataFrame.
Proof. solve_decision. Defined.

Definition wf_frame (df : DataFrame) : Prop :=
  Forall (λ r, length r = length (columns df)) (rows df).

(** Positions of a label among the column labels. *)
Fixpoint positions (c : string) (cols : list string) (i : nat) : list nat :=
  match cols with
  | [] => []
  | c' :: cols' =>
      if decide (c' = c) then i :: positions c cols' (S i)
      else positions c cols' (S i)
  end.

Definition cell_at (r : list cell) (i : nat) : cell := default NA (r !! i).

(** [df[c]]: a [KeyError] when the label is absent.  When the label occurs
    more than once pandas hands back a frame instead of a series, on which
    every caller in app.py fails; this is the [ValueError] case. *)
Definition getitem (df : DataFrame) (c : string) : result Series :=
  match positions c (columns df) 0 with
  | [] => Raise (KeyError c)
  | [i] => Ok (map (λ r, cell_at r i) (rows df))
  | _ => Raise ValueError
  end.

(** The cell of row [r] under the first column labelled [c]. *)
Definition row_get (cols : list string) (r : list cell) (c : string) : cell :=
  match positions c cols 0 with
  | [] => NA
  | i :: _ => cell_at r i
  end.

(** Writing value [v] into row [r] under label [c]: every column carrying
    the label is overwritten; a new column is appended when there is none. *)
Fixpoint row_overwrite (c : string) (v : cell) (cols : list string)
    (r : list cell) : list cell :=
  match cols, r with
  | c' :: cols', x :: r' =>
      (if decide (c' = c) then v else x) :: row_overwrite c v cols' r'
  | _, _ => r
  end.

Definition row_set (c : string) (v : cell) (cols : list string)
    (r : list cell) : list cell :=
  if decide (c ∈ cols) then row_overwrite c v cols r else r ++ [v].

(** [df[c] = s] for a series [s] aligned with the rows of [df]. *)
Definition setitem (df : DataFrame) (c : string) (s : Series) : DataFrame :=
  {| columns := if decide (c ∈ columns df) then columns df
                else columns df ++ [c];
     rows := zip_with (λ r v, row_set c v (columns df) r) (rows df) s |}.

(** ** Python string helpers *)

Definition is_space (a : ascii) : bool :=
  let n := nat_of_ascii a in
  ((9 <=? n) && (n <=? 13) || (28 <=? n) && (n <=? 32))%nat.

Fixpoint lstrip (s : string) : string :=
  match s with
  | String a s' => if is_space a then lstrip s' else s
  | EmptyString => EmptyString
  end.

Fixpoint rstrip (s : string) : string :=
  match s with
  | String a s' =>
      match rstrip s' with
      | EmptyString => if is_space a then EmptyString else String a EmptyString
      | t => String a t
      end
  | EmptyString => EmptyString
  end.

(** [str.strip()] *)
Definition strip (s : string) : string := rstrip (lstrip s).

Definition lower_ascii (a : ascii) : ascii :=
  let n := nat_of_ascii a in
  if ((65 <=? n) && (n <=? 90))%nat then ascii_of_nat (n + 32) else a.

(** [str.lower()] *)
Fixpoint lower (s : string) : string :=
  match s with
  | String a s' => String (lower_ascii a) (lower s')
  | EmptyString => EmptyString
  end.

(** [str.startswith(p)] *)
Definition startswith (s p : string) : bool := String.prefix p s.

(** ** Calendar arithmetic on [datetime64[ns]] values *)

Definition ns_per_second : Z := 1000000000.
Definition ns_per_day : Z := 86400 * ns_per_second.

(** The calendar works in eras of 400 years (146097 days) that begin on
    a 1 March; [yoe] is the year of the era, [mp] the month counted from
    March, [d] the day of the month. *)

(** Day of the era of a date. *)
Definition era_day (yoe mp d : Z) : Z :=
  yoe * 365 + yoe / 4 - yoe / 100 + (153 * mp + 2) / 5 + d - 1.

(** Date of a day of the era. *)
Definition era_date (doe : Z) : Z * Z * Z :=
  let yoe := (doe - doe / 1460 + doe / 36524 - doe / 146096) / 365 in
  let doy := doe - (365 * yoe + yoe / 4 - yoe / 100) in
  let mp := (5 * doy + 2) / 153 in
  (yoe, mp, doy - (153 * mp + 2) / 5 + 1).

(** Day number (days since 1970-01-01) of a proleptic Gregorian date. *)
Definition days_from_civil (y m d : Z) : Z :=
  let y' := if m <=? 2 then y - 1 else y in
  let era := y' / 400 in
  let mp := if 2 <? m then m - 3 else m + 9 in
  era * 146097 + era_day (y' - era * 400) mp d - 719468.

(** Year, month and day of a day number. *)
Definition civil_from_days (z : Z) : Z * Z * Z :=
  let z' := z + 719468 in
  let era := z' / 146097 in
  let '(yoe, mp, d) := era_date (z' - era * 146097) in
  let m := if mp <? 10 then mp + 3 else mp - 9 in
  let y := yoe + era * 400 in
  (if m <=? 2 then y + 1 else y, m, d).

Definition day_number (ns : Z) : Z := ns / ns_per_day.

(** [Timestamp.to_period("M")]: the year and the month of the instant. *)
Definition year_month (ns : Z) : Z * Z :=
  let '(y, m, _) := civil_from_days (day_number ns) in (y, m).

Definition weekday_names : list string :=
  ["Monday"; "Tuesday"; "Wednesday"; "Thursday"; "Friday"; "Saturday";
   "Sunday"].

(** [Timestamp.weekday()], Monday being 0; 1970-01-01 was a Thursday. *)
Definition weekday_index (ns : Z) : Z := (day_number ns + 3) mod 7.

(** [Timestamp.day_name()] *)
Definition day_name (ns : Z) : string :=
  default "" (weekday_names !! Z.to_nat (weekday_index ns)).

(** ** Float arithmetic used by the normaliser *)

(** Rounding to the nearest integer, ties to the even one (numpy's [rint]). *)
Definition round_half_even (x : Q) : Z :=
  let f := Qfloor x in
  match Qcompare (x - inject_Z f) (1 # 2) with
  | Lt => f
  | Gt => f + 1
  | Eq => if Z.even f then f else f + 1
  end.

Definition pow10 (d : nat) : Qc := Qc_of_Z (10 ^ Z.of_nat d).

(** [round(x, d)]: scale by [10^d], round to an integer, scale back. *)
Definition round_float (d : nat) (x : Qc) : Qc :=
  (Qc_of_Z (round_half_even (x * pow10 d)%Qc) / pow10 d)%Qc.

(** ** Series operations of pandas *)

Section to_datetime.

(** The date parser of pandas, applied to a cell that is neither a
    timestamp nor missing; [None] is a value it cannot parse. *)
Variable parse : cell → option Z.

Definition to_datetime_cell (c : cell) : cell :=
  match c with
  | Ts t => Ts t
  | NA => NA
  | _ => match parse c with Some t => Ts t | None => NA end
  end.

(** [pd.to_datetime(s, errors="coerce")] *)
Definition to_datetime (s : Series) : Series := map to_datetime_cell s.

End to_datetime.

(** A [timedelta64[ns]] series: nanoseconds, [None] being [NaT]. *)
Abbreviation Timedeltas := (list (option Z)) (only parsing).

Definition sub_datetime_cell (a b : cell) : option Z :=
  match a, b with
  | Ts x, Ts y => Some (x - y)
  | _, _ => None
  end.

(** [a - b] on two datetime series. *)
Definition sub_datetime (a b : Series) : Timedeltas :=
  zip_with sub_datetime_cell a b.

(** [.dt.total_seconds()] *)
Definition total_seconds (d : Timedeltas) : Series :=
  map (λ o, match o with
            | Some ns => Num (Qc_of_Z ns / Qc_of_Z ns_per_second)%Qc
            | None => NA
            end) d.

Definition map_num (f : Qc → Qc) (s : Series) : Series :=
  map (λ c, match c with Num x => Num (f x) | _ => NA end) s.

(** [s / k] on a float series *)
Definition div_scalar (s : Series) (k : Z) : Series :=
  map_num (λ x, x / Qc_of_Z k)%Qc s.

(** [s.round(d)] *)
Definition round_series (d : nat) (s : Series) : Series :=
  map_num (round_float d) s.

(** [.dt.to_period("M")] *)
Definition to_period_M (s : Series) : Series :=
  map (λ c, match c with
            | Ts t => let '(y, m) := year_month t in Per y m
            | _ => NA
            end) s.

(** [.dt.day_name()] *)
Definition day_names (s : Series) : Series :=
  map (λ c, match c with Ts t => Str (day_name t) | _ => NA end) s.

(** ** Frames as mutable objects *)

Abbreviation loc := positive (only parsing).
Abbreviation heap := (gmap positive DataFrame) (only parsing).

(** Statements: they run on the heap and either yield a value or raise,
    keeping whatever they had already written. *)
Definition St (A : Type) : Type := heap → result A * heap.

Global Instance St_ret : MRet St := λ A a h, (Ok a, h).
Global Instance St_bind : MBind St := λ A B f m h,
  match m h with
  | (Ok a, h') => f a h'
  | (Raise e, h') => (Raise e, h')
  end.

Definition frame_of (df : loc) : St DataFrame := λ h,
  match h !! df with
  | Some d => (Ok d, h)
  | None => (Raise AttributeError, h)
  end.

Definition lift {A} (r : result A) : St A := λ h, (r, h).

(** [df.columns] *)
Definition load_columns (df : loc) : St (list string) :=
  d ← frame_of df; mret (columns d).

(** [df.columns = cols] *)
Definition store_columns (df : loc) (cols : list string) : St unit := λ h,
  match h !! df with
  | Some d =>
      if decide (length cols = length (columns d))
      then (Ok (), <[df := {| columns := cols; rows := rows d |}]> h)
      else (Raise ValueError, h)
  | None => (Raise AttributeError, h)
  end.

(** [df[c]] *)
Definition load_item (df : loc) (c : string) : St Series :=
  d ← frame_of df; lift (getitem d c).

(** [df[c] = s] *)
Definition store_item (df : loc) (c : string) (s : Series) : St unit := λ h,
  match h !! df with
  | Some d => (Ok (), <[df := setitem d c s]> h)
  | None => (Raise AttributeError, h)
  end.

(** ** Data normalisation (app.py, lines 74-87) *)

Section normalize.

Variable parse : cell → option Z.

Definition normalize_log_df (df : loc) : St loc :=
  cols ← load_columns df;
  store_columns df (map strip cols);;
  s ← load_item df "Full Start";
  store_item df "Full Start" (to_datetime parse s);;
  e ← load_item df "Full End";
  store_item df "Full End" (to_datetime parse e);;
  e ← load_item df "Full End";
  s ← load_item df "Full Start";
  store_item df "duration_hours"
    (round_series 2 (div_scalar (total_seconds (sub_datetime e s)) 3600));;
  s ← load_item df "Full Start";
  store_item df "month" (to_period_M (to_datetime parse s));;
  s ← load_item df "Full Start";
  store_item df "weekday" (day_names (to_datetime parse s));;
  mret df.

Definition normalize_register_df (df : loc) : St loc :=
  cols ← load_columns df;
  store_columns df (map strip cols);;
  mret df.

End normalize.

(** ** A parser for the timestamps the session form writes

    [new_session_form] stores [datetime.isoformat()] strings,
    [YYYY-MM-DDTHH:MM:SS]; this is the instance of the date parser used in
    the worked examples. *)

Definition digit (a : ascii) : option Z :=
  let n := nat_of_ascii a in
  if ((48 <=? n) && (n <=? 57))%nat then Some (Z.of_nat (n - 48)) else None.

Fixpoint number (ds : list ascii) (acc : Z) : option Z :=
  match ds with
  | [] => Some acc
  | a :: ds' => d ← digit a; number ds' (10 * acc + d)
  end.

Definition is_leap (y : Z) : bool :=
  (y mod 4 =? 0) && (negb (y mod 100 =? 0) || (y mod 400 =? 0)).

Definition days_in_month (y m : Z) : Z :=
  if m =? 2 then (if is_leap y then 29 else 28)
  else if (m =? 4) || (m =? 6) || (m =? 9) || (m =? 11) then 30 else 31.

Definition timestamp_of (y m d hh mm ss : Z) : Z :=
  days_from_civil y m d * ns_per_day
  + ((hh * 60 + mm) * 60 + ss) * ns_per_second.

Definition parse_iso (s : string) : option Z :=
  match String.list_ascii_of_string s with
  | [y1; y2; y3; y4; "-"; m1; m2; "-"; d1; d2; "T";
     h1; h2; ":"; n1; n2; ":"; s1; s2]%char =>
      y ← number [y1; y2; y3; y4] 0;
      m ← number [m1; m2] 0;
      d ← number [d1; d2] 0;
      hh ← number [h1; h2] 0;
      mm ← number [n1; n2] 0;
      ss ← number [s1; s2] 0;
      if (1 <=? m) && (m <=? 12) && (1 <=? d) && (d <=? days_in_month y m)
         && (hh <? 24) && (mm <? 60) && (ss <? 60)
      then Some (timestamp_of y m d hh mm ss)
      else None
  | _ => None
  end.

Definition parse_iso_cell (c : cell) : option Z :=
  match c with Str s => parse_iso s | _ => None end.

(** ** Sorting *)

Section sorting.
Context {A : Type} (leb : A → A → bool).

(** Insertion in front of the first element that [x] is allowed to
    precede; an element inserted later stays behind its equals. *)
Fixpoint insert_by (x : A) (l : list A) : list A :=
  match l with
  | [] => [x]
  | y :: l' => if leb x y then x :: l else y :: insert_by x l'
  end.

(** Stable sort: of two elements neither of which must follow the other,
    the one that came first stays first. *)
Definition sort_by (l : list A) : list A := foldr insert_by [] l.
End sorting.

Definition kind (c : cell) : Z :=
  match c with NA => 0 | Num _ => 1 | Str _ => 2 | Ts _ => 3 | Per _ _ => 4 end.

(** The order in which pandas lists group keys: numbers before text, each
    kind in its natural order (text by code point). *)
Definition cell_leb (a b : cell) : bool :=
  match a, b with
  | Num x, Num y => bool_decide (x ≤ y)%Qc
  | Str s, Str t => String.leb s t
  | Ts x, Ts y => x <=? y
  | Per y1 m1, Per y2 m2 => (y1 <? y2) || ((y1 =? y2) && (m1 <=? m2))
  | _, _ => kind a <=? kind b
  end.

(** Python's [sorted]: values of different types do not compare. *)
Definition sorted (l : list cell) : result (list cell) :=
  match l with
  | [] => Ok []
  | x :: l' =>
      if forallb (λ y, kind y =? kind x) l' then Ok (sort_by cell_leb l)
      else Raise TypeError
  end.

(** ** More series operations *)

(** [s.dropna()] *)
Definition dropna (s : Series) : Series := filter (λ c, c ≠ NA) s.

(** [s.unique()]: the distinct values, in order of first appearance. *)
Fixpoint unique (s : Series) : Series :=
  match s with
  | [] => []
  | c :: s' => c :: filter (λ c', c' ≠ c) (unique s')
  end.

(** [s.sum()]: missing values are skipped; text, timestamps and periods do
    not add up. *)
Fixpoint series_sum (s : Series) : result Qc :=
  match s with
  | [] => Ok 0%Qc
  | NA :: s' => series_sum s'
  | Num x :: s' => t ← series_sum s'; Ok (x + t)%Qc
  | _ :: _ => Raise TypeError
  end.

(** [s.count()]: the number of values that are not missing. *)
Definition series_count (s : Series) : nat := length (dropna s).

(** [s.mean()]: [NaN] when every value is missing. *)
Definition series_mean (s : Series) : result cell :=
  t ← series_sum s;
  Ok (match series_count s with
      | O => NA
      | n => Num (t / Qc_of_Z (Z.of_nat n))%Qc
      end).

(** [s.nunique()] *)
Definition nunique (s : Series) : nat := length (unique (dropna s)).

(** [s.isin(values)] on one cell *)
Definition isin (values : list cell) (c : cell) : bool :=
  bool_decide (c ∈ values).

(** ** The join (app.py, lines 89-93) *)

Definition suffix_overlap (sfx : string) (other : list string)
    (cols : list string) : list string :=
  map (λ c, if decide (c ∈ other) then c +:+ sfx else c) cols.

(** The labels that renaming has made collide:
    [renamed[renamed.duplicated() & ~labels.duplicated()]], the renamed
    labels that repeat an earlier one where the label itself did not. *)
Definition suffix_dups (labels renamed : list string) : list string :=
  (filter (λ ixc, ixc.2.1 ∈ take ixc.1 renamed ∧ ixc.2.2 ∉ take ixc.1 labels)
          (imap pair (zip renamed labels))).*2.*1.

Section merge.

(** The check pandas runs on the two key columns before it joins them:
    their dtypes must go together, and a text column against a numeric one
    is refused.  Columns carry no dtype here, so the check is a
    parameter. *)
Variable keys_mergeable : Series → Series → bool.

(** [pd.merge(left, right, left_on=.., right_on=.., how="left")];
    [on=k] is the case where both labels are [k], and then the key column of
    [right] is not repeated in the output.  The key of [right] is looked up
    first, then that of [left]; then the two key columns are checked; a
    label the two frames share outside the key gets the suffixes [_x] and
    [_y], and the merge is refused when that makes a label collide with
    another.  Missing keys match each other, as they do in pandas. *)
Definition pd_merge (left right : DataFrame) (left_on right_on : string)
    : result DataFrame :=
  match positions right_on (columns right) 0 with
  | [] => Raise (KeyError right_on)
  | [j] =>
      match positions left_on (columns left) 0 with
      | [] => Raise (KeyError left_on)
      | [i] =>
          if keys_mergeable (map (λ l, cell_at l i) (rows left))
                            (map (λ r, cell_at r j) (rows right))
          then
            let same := bool_decide (left_on = right_on) in
            let part {X} (r : list X) : list X :=
              if same then delete j r else r in
            let rcols := part (columns right) in
            let llabels := suffix_overlap "_x" rcols (columns left) in
            let rlabels := suffix_overlap "_y" (columns left) rcols in
            match suffix_dups (columns left) llabels
                  ++ suffix_dups rcols rlabels with
            | [] =>
                Ok {| columns := llabels ++ rlabels;
                      rows :=
                        flat_map
                          (λ l,
                             match filter (λ r, cell_at r j = cell_at l i)
                                          (rows right)
                             with
                             | [] => [l ++ replicate (length rcols) NA]
                             | ms => map (λ r, l ++ part r) ms
                             end)
                          (rows left) |}
            | _ :: _ => Raise MergeError
            end
          else Raise ValueError
      | _ => Raise ValueError
      end
  | _ => Raise ValueError
  end.

Definition merge_data (log_df reg_df : DataFrame) : result DataFrame :=
  if bool_decide ("UID" ∈ columns log_df)
     && bool_decide ("UID" ∈ columns reg_df)
  then pd_merge log_df reg_df "UID" "UID"
  else pd_merge log_df reg_df "GAME" "Game".

End merge.

(** ** Summary metrics and achievement badges (app.py, lines 97-122) *)

Record metrics := mkMetrics {
  total_hours : Qc;
  total_sessions : nat;
  unique_games : nat;
  avg_session : cell
}.

(** The four values [show_summary_metrics] hands to the metric widgets. *)
Definition show_summary_metrics (df : DataFrame) : result metrics :=
  hours ← getitem df "duration_hours";
  total_hours ← series_sum hours;
  let total_sessions := length (rows df) in
  unique_games ←
    (if bool_decide ("GAME" ∈ columns df)
     then games ← getitem df "GAME"; Ok (nunique games)
     else Ok O);
  avg_session ←
    (if bool_decide (0 < total_sessions)%nat
     then hours ← getitem df "duration_hours"; series_mean hours
     else Ok (Num 0%Qc));
  Ok (mkMetrics total_hours total_sessions unique_games avg_session).

Definition milestones : list (Z * string) :=
  [(100, "🎯 Casual Grinder");
   (250, "🔥 Hardcore Enthusiast");
   (500, "⚔️ Legendary Gamer");
   (1000, "👑 God-Tier Completionist")].

Definition badge_span (title : string) : string :=
  "<span style='background:rgba(102,194,255,0.1);border:1px solid #66c2ff;border-radius:8px;padding:6px 10px;margin:5px;display:inline-block;'>"
  +:+ title +:+ "</span>".

(** The list comprehension of [playtime_achievements]. *)
Definition badges_for (total_hours : Qc) : list string :=
  map (λ m, badge_span m.2)
      (filter (λ m, (Qc_of_Z m.1 ≤ total_hours)%Qc) milestones).

(** The local [badges] of [playtime_achievements]. *)
Definition playtime_badges (df : DataFrame) : result (list string) :=
  hours ← getitem df "duration_hours";
  total_hours ← series_sum hours;
  Ok (badges_for total_hours).

(** [" ".join(l)] *)
Fixpoint join (sep : string) (l : list string) : string :=
  match l with
  | [] => ""
  | [x] => x
  | x :: l' => x +:+ sep +:+ join sep l'
  end.

(** The markdown [playtime_achievements] writes to the page: nothing when
    no badge is earned. *)
Definition playtime_achievements (df : DataFrame) : result (list string) :=
  badges ← playtime_badges df;
  Ok (match badges with
      | [] => []
      | _ => ["**Achievements Unlocked:** " +:+ join " " badges]
      end).

(** ** Rollups (app.py, lines 167-177) *)

(** [df.groupby(keys)[col].sum()] for a key series aligned with the rows:
    one entry per distinct key that is not missing, keys in sorted order. *)
Definition group_keys (keys : Series) : list cell :=
  sort_by cell_leb (unique (dropna keys)).

Definition group_values (keys values : Series) (k : cell) : Series :=
  (filter (λ kv, kv.1 = k) (zip keys values)).*2.

Definition groupby_sum (keys values : Series) : result (list (cell * Qc)) :=
  mapM (λ k, t ← series_sum (group_values keys values k); Ok (k, t))
       (group_keys keys).

(** [s.sort_values(ascending=False)] on a keyed float series.  Entries
    with equal values keep the order they had, as under a stable sort;
    the default sort kind of pandas promises no order among equal values. *)
Definition sort_values_desc (s : list (cell * Qc)) : list (cell * Qc) :=
  sort_by (λ a b, bool_decide (b.2 ≤ a.2)%Qc) s.

(** [s.head(n)] *)
Definition series_head {X} (n : nat) (s : list X) : list X := take n s.

(** The local [top_games] of [main_charts]. *)
Definition top_games (df : DataFrame) : result (list (cell * Qc)) :=
  games ← getitem df "GAME";
  hours ← getitem df "duration_hours";
  sums ← groupby_sum games hours;
  Ok (series_head 15 (sort_values_desc sums)).

Definition pad (width : nat) (s : string) : string :=
  String.string_of_list_ascii
    (replicate (width - String.length s) "0"%char) +:+ s.

(** [str(Period(y, m, "M"))], as in [2024-01]. *)
Definition period_str (y m : Z) : string :=
  pad 4 (pretty y) +:+ "-" +:+ pad 2 (pretty m).

Record charts := mkCharts {
  summary : metrics;
  achievements : list string;
  top_games_chart : list (cell * Qc);
  month_chart : list (cell * Qc)
}.

Section charts.

(** What [astype(str)] makes of a missing period: the text [NaT], or,
    where text columns have their own missing value, a missing value. *)
Variable nat_text : cell.

(** [px.bar] and [px.area] of plotly, on the rollup they are given. *)
Variable px_bar : list (cell * Qc) → result unit.
Variable px_area : list (cell * Qc) → result unit.

(** [s.astype(str)] on a period column.  Numbers and timestamps do not
    occur in the month column. *)
Definition astype_str (s : Series) : result Series :=
  mapM (λ c, match c with
             | Per y m => Ok (Str (period_str y m))
             | NA => Ok nat_text
             | Str t => Ok (Str t)
             | _ => Raise TypeError
             end) s.

(** The local [month_agg] of [main_charts]. *)
Definition month_agg (df : DataFrame) : result (list (cell * Qc)) :=
  months ← getitem df "month";
  months ← astype_str months;
  hours ← getitem df "duration_hours";
  groupby_sum months hours.

(** What [main_charts] computes for the page, in program order: the
    summary, the achievements line, and each rollup with its chart. *)
Definition main_charts (df : DataFrame) : result charts :=
  m ← show_summary_metrics df;
  a ← playtime_achievements df;
  t ← top_games df;
  px_bar t;;
  g ← month_agg df;
  px_area g;;
  Ok (mkCharts m a t g).

End charts.

(** ** Genre filter (app.py, lines 124-139) *)

Definition is_genre_col (c : string) : bool := startswith (lower c) "genretag".

(** The positions of the genre-tag columns. *)
Fixpoint genre_positions (cols : list string) (i : nat) : list nat :=
  match cols with
  | [] => []
  | c :: cols' =>
      if is_genre_col c then i :: genre_positions cols' (S i)
      else genre_positions cols' (S i)
  end.

(** [df[cols].melt(value_name="tag")["tag"]]: the selected columns stacked
    one after the other. *)
Definition melt (df : DataFrame) (pos : list nat) : Series :=
  flat_map (λ i, map (λ r, cell_at r i) (rows df)) pos.

(** [df[cols].isin(values).any(axis=1)] *)
Definition any_isin (df : DataFrame) (pos : list nat) (values : list cell)
    : list bool :=
  map (λ r, existsb (λ i, isin values (cell_at r i)) pos) (rows df).

(** [df[mask]] *)
Definition select_rows (df : DataFrame) (mask : list bool) : DataFrame :=
  {| columns := columns df;
     rows := (filter (λ rb, rb.2 = true) (zip (rows df) mask)).*1 |}.

Section genre_filter.

(** [st.sidebar.multiselect(label, options)]: what the user picked from
    the options shown. *)
Variable multiselect : list cell → list cell.

Definition genre_filter (df_register : DataFrame) : result DataFrame :=
  let genre_cols := genre_positions (columns df_register) 0 in
  match genre_cols with
  | [] => Ok df_register
  | _ =>
      let all_tags := unique (dropna (melt df_register genre_cols)) in
      options ← sorted all_tags;
      let selected_tags := multiselect options in
      match selected_tags with
      | _ :: _ =>
          let mask := any_isin df_register genre_cols selected_tags in
          Ok (select_rows df_register mask)
      | [] => Ok df_register
      end
  end.

End genre_filter.

(** * Definitions used by the statements *)

(** [df["duration_hours"].sum()], the total both [show_summary_metrics] and
    [playtime_achievements] start from. *)
Definition duration_total (df : DataFrame) : result Qc :=
  hours ← getitem df "duration_hours"; series_sum hours.

(** The milestones a total has reached. *)
Definition earned (total : Qc) : list (Z * string) :=
  filter (λ m, (Qc_of_Z m.1 ≤ total)%Qc) milestones.

(** A one-session table with 260 hours on it. *)
Definition table_260 : DataFrame :=
  {| columns := ["GAME"; "duration_hours"];
     rows := [[Str "Chrono Trigger"; Num (Qc_of_Z 260)]] |}.

(** The label names exactly one column. *)
Definition has_column (df : DataFrame) (c : string) : Prop :=
  ∃ i, positions c (columns df) 0 = [i].

(** Three sessions, one without a duration, 600 hours in all. *)
Definition table_600 : DataFrame :=
  {| columns := ["GAME"; "duration_hours"];
     rows := [[Str "Chrono Trigger"; Num (Qc_of_Z 260)];
              [Str "Tetris"; NA];
              [Str "Tetris"; Num (Qc_of_Z 340)]] |}.

(** The merged table of an empty log. *)
Definition empty_merged : DataFrame :=
  {| columns := ["GAME"; "Full Start"; "Full End"; "duration_hours"; "month";
                 "weekday"; "Game"];
     rows := [] |}.

(** The join key as the specification words it: [UID] on both sides when
    both tables have such a column, otherwise [GAME] against [Game]. *)
Definition spec_join_key (log_df reg_df : DataFrame) : string * string :=
  if decide ("UID" ∈ columns log_df ∧ "UID" ∈ columns reg_df)
  then ("UID", "UID") else ("GAME", "Game").

Definition key_position (df : DataFrame) (c : string) : nat :=
  default 0%nat (head (positions c (columns df) 0)).

(** The cells a register row contributes to a merged row: all of them, less
    the key cell when both key columns carry the same label. *)
Definition catalog_part (keys : string * string) (reg_df : DataFrame)
    (r : list cell) : list cell :=
  if decide (keys.1 = keys.2) then delete (key_position reg_df keys.2) r
  else r.

(** The number of catalog columns of the merged table. *)
Definition catalog_width (keys : string * string) (reg_df : DataFrame) : nat :=
  if decide (keys.1 = keys.2)
  then length (delete (key_position reg_df keys.2) (columns reg_df))
  else length (columns reg_df).

(** The labels of the catalog columns of the merged table. *)
Definition catalog_labels (keys : string * string) (reg_df : DataFrame)
    : list string :=
  if decide (keys.1 = keys.2)
  then delete (key_position reg_df keys.2) (columns reg_df)
  else columns reg_df.

(** The key column of a table. *)
Definition key_series (df : DataFrame) (c : string) : Series :=
  map (λ r, row_get (columns df) r c) (rows df).

(** No label of the log gets a suffix that makes it collide with another
    label of the log, and likewise for the catalog labels. *)
Definition no_collision (keys : string * string) (log_df reg_df : DataFrame)
    : Prop :=
  suffix_dups (columns log_df)
    (suffix_overlap "_x" (catalog_labels keys reg_df) (columns log_df)) = []
  ∧ suffix_dups (catalog_labels keys reg_df)
      (suffix_overlap "_y" (columns log_df) (catalog_labels keys reg_df)) = [].

(** pandas lets the merge through: the two key columns pass its check and
    no renamed label collides with another. *)
Definition merge_accepted (keys_mergeable : list cell → list cell → bool)
    (keys : string * string) (log_df reg_df : DataFrame) : Prop :=
  keys_mergeable (key_series log_df keys.1) (key_series reg_df keys.2) = true
  ∧ no_collision keys log_df reg_df.

(** A check of the key columns that refuses two keys of different kinds,
    such as a number against a text; used in the worked examples. *)
Definition keys_alike (l r : list cell) : bool :=
  forallb (λ a, forallb (λ b, (kind a =? 0) || (kind b =? 0)
                              || (kind a =? kind b)) r) l.

(** The register rows whose key equals the key of log row [l]. *)
Definition matches (keys : string * string) (log_df reg_df : DataFrame)
    (l : list cell) : list (list cell) :=
  filter (λ r, row_get (columns reg_df) r keys.2
               = row_get (columns log_df) l keys.1) (rows reg_df).

(** The rows of the left outer join of the log with the register, as a
    relation: a log row extended by a matching register row, or by missing
    values when no register row matches. *)
Definition left_outer_row (keys : string * string) (log_df reg_df : DataFrame)
    (o : list cell) : Prop :=
  ∃ l, l ∈ rows log_df ∧
    ((∃ r, r ∈ matches keys log_df reg_df l
           ∧ o = l ++ catalog_part keys reg_df r)
     ∨ (matches keys log_df reg_df l = []
        ∧ o = l ++ replicate (catalog_width keys reg_df) NA)).

(** The output rows that stem from log row [l]. *)
Definition fan_out (keys : string * string) (log_df reg_df : DataFrame)
    (l : list cell) : list (list cell) :=
  match matches keys log_df reg_df l with
  | [] => [l ++ replicate (catalog_width keys reg_df) NA]
  | ms => map (λ r, l ++ catalog_part keys reg_df r) ms
  end.

(** Scenario C: both tables have a [UID] column, and the titles disagree. *)
Definition log_c : DataFrame :=
  {| columns := ["UID"; "GAME"; "duration_hours"];
     rows := [[Str "g1"; Str "Chrono Trigger"; Num (Qc_of_Z 2)];
              [Str "g2"; Str "Tetris"; Num (Qc_of_Z 1)];
              [Str "g9"; Str "Pong"; NA]] |}.

Definition reg_c : DataFrame :=
  {| columns := ["UID"; "Game"; "genretag1"];
     rows := [[Str "g1"; Str "CHRONO TRIGGER (SNES)"; Str "RPG"];
              [Str "g2"; Str "Pong"; Str "Puzzle"];
              [Str "g2"; Str "Tetris DX"; Str "Puzzle"]] |}.

(** A log whose titles were read as numbers, against a register with text
    titles. *)
Definition log_numbered : DataFrame :=
  {| columns := ["GAME"; "duration_hours"];
     rows := [[Num (Qc_of_Z 1942); Num (Qc_of_Z 1)]] |}.

(** A log and a register that share the label [A], where the log has a
    label [A_x] already. *)
Definition log_suffixed : DataFrame :=
  {| columns := ["GAME"; "A"; "A_x"];
     rows := [[Str "Tetris"; Str "a"; Str "b"]] |}.

Definition reg_suffixed : DataFrame :=
  {| columns := ["Game"; "A"];
     rows := [[Str "Tetris"; Str "c"]] |}.

(** The tag vocabulary [genre_filter] offers: every value of a genre-tag
    column that is not missing, once. *)
Definition all_tags (df_register : DataFrame) : list cell :=
  unique (dropna (melt df_register (genre_positions (columns df_register) 0))).

(** Row [r] has, in at least one genre-tag column, a value that is among
    the selected tags. *)
Definition row_tagged (cols : list string) (selected : list cell)
    (r : list cell) : Prop :=
  Exists (λ ic, is_genre_col ic.2 = true ∧ cell_at r ic.1 ∈ selected)
         (imap pair cols).

Global Instance row_tagged_dec cols selected r :
  Decision (row_tagged cols selected r).
Proof. unfold row_tagged. apply _. Defined.

(** Scenario D: one register row tagged RPG and Adventure. *)
Definition reg_d : DataFrame :=
  {| columns := ["Game"; "genretag1"; "genretag2"];
     rows := [[Str "Chrono Trigger"; Str "RPG"; Str "Adventure"]] |}.

(** Strict order on group keys. *)
Definition cell_lt (a b : cell) : Prop := cell_leb a b = true ∧ a ≠ b.

(** The order of the top-games rollup: no group comes before one with more
    hours. *)
Definition not_below (a b : cell * Qc) : Prop := (b.2 ≤ a.2)%Qc.

(** A cell [Series.sum] accepts: a number or a missing value. *)
Definition numeric (c : cell) : Prop :=
  match c with NA | Num _ => True | _ => False end.

(** First position of a title in the GAME column. *)
Fixpoint first_seen (g : cell) (games : Series) : nat :=
  match games with
  | [] => 0
  | c :: games' => if decide (c = g) then 0 else S (first_seen g games')
  end.

(** The tie rule as the specification words it: of two groups with equal
    hours, the one whose title appears first in the table comes first. *)
Definition ties_first_seen (games : Series) (top : list (cell * Qc)) : Prop :=
  ∀ i j a b, top !! i = Some a → top !! j = Some b → (i < j)%nat →
    a.2 = b.2 → (first_seen a.1 games < first_seen b.1 games)%nat.

(** Two sessions of two hours each, Zelda played first. *)
Definition tie_table : DataFrame :=
  {| columns := ["GAME"; "duration_hours"];
     rows := [[Str "Zelda"; Num (Qc_of_Z 2)];
              [Str "Asteroids"; Num (Qc_of_Z 2)]] |}.

(** The same two sessions, Asteroids played first. *)
Definition tie_table_swapped : DataFrame :=
  {| columns := ["GAME"; "duration_hours"];
     rows := [[Str "Asteroids"; Num (Qc_of_Z 2)];
              [Str "Zelda"; Num (Qc_of_Z 2)]] |}.

(** The merged table restricted to the sessions that have a title, and to
    those whose title is missing. *)
Definition with_title (df : DataFrame) : DataFrame :=
  {| columns := columns df;
     rows := filter (λ r, row_get (columns df) r "GAME" ≠ NA) (rows df) |}.

Definition without_title (df : DataFrame) : DataFrame :=
  {| columns := columns df;
     rows := filter (λ r, ¬ row_get (columns df) r "GAME" ≠ NA) (rows df) |}.

(** Four sessions; the third has no title and seven hours. *)
Definition table_untitled : DataFrame :=
  {| columns := ["GAME"; "duration_hours"];
     rows := [[Str "Zelda"; Num (Qc_of_Z 2)];
              [Str "Asteroids"; Num (Qc_of_Z 2)];
              [NA; Num (Qc_of_Z 7)];
              [Str "Zelda"; NA]] |}.

(** What [normalize_log_df] does to the frame it is given, statement by
    statement, as a function of that frame. *)
Definition normalize_log_frame (parse : cell → option Z) (df : DataFrame)
    : result DataFrame :=
  let d1 := {| columns := map strip (columns df); rows := rows df |} in
  s ← getitem d1 "Full Start";
  let d2 := setitem d1 "Full Start" (to_datetime parse s) in
  e ← getitem d2 "Full End";
  let d3 := setitem d2 "Full End" (to_datetime parse e) in
  e ← getitem d3 "Full End";
  s ← getitem d3 "Full Start";
  let d4 := setitem d3 "duration_hours"
              (round_series 2
                 (div_scalar (total_seconds (sub_datetime e s)) 3600)) in
  s ← getitem d4 "Full Start";
  let d5 := setitem d4 "month" (to_period_M (to_datetime parse s)) in
  s ← getitem d5 "Full Start";
  Ok (setitem d5 "weekday" (day_names (to_datetime parse s))).

(** The time from [s] to [e], both in nanoseconds, in hours. *)
Definition hours_between (s e : Z) : Qc :=
  (Qc_of_Z (e - s) / Qc_of_Z 1000000000 / Qc_of_Z 3600)%Qc.

(** ** The calendar, as the statements have it

    Instants are nanoseconds since 1970-01-01T00:00:00, a Thursday; a day
    has 86400 seconds.  Years are those of the proleptic Gregorian
    calendar. *)

(** The English name of the day of the week of an instant. *)
Definition weekday_of (ns : Z) : string :=
  let day := ns / 86400000000000 in
  nth (Z.to_nat ((day + 3) mod 7))
      ["Monday"; "Tuesday"; "Wednesday"; "Thursday"; "Friday"; "Saturday";
       "Sunday"] "".

Definition leap_year (y : Z) : bool :=
  (y mod 4 =? 0) && (negb (y mod 100 =? 0) || (y mod 400 =? 0)).

(** Days from 1970-01-01 to the first of January of year [y]. *)
Definition year_begin (y : Z) : Z :=
  365 * (y - 1970) + ((y - 1) / 4 - 492) - ((y - 1) / 100 - 19)
  + ((y - 1) / 400 - 4).

(** Days from the first of January to the first of month [m]. *)
Definition days_before_month (y m : Z) : Z :=
  nth (Z.to_nat (m - 1)) [0; 31; 59; 90; 120; 151; 181; 212; 243; 273; 304; 334]
      0
  + (if (2 <? m) && leap_year y then 1 else 0).

(** The first instant of month [m] of year [y], and the first instant
    after it. *)
Definition month_begin (y m : Z) : Z :=
  (year_begin y + days_before_month y m) * 86400000000000.

Definition month_end (y m : Z) : Z :=
  if m =? 12 then month_begin (y + 1) 1 else month_begin y (m + 1).

(** Scenario A: one session of two and a half hours on a Monday, and one
    whose start cannot be read. *)
Definition log_a : DataFrame :=
  {| columns := ["GAME"; " Full Start"; "Full End "];
     rows := [[Str "Chrono Trigger"; Str "2024-01-01T20:00:00";
               Str "2024-01-01T22:30:00"];
              [Str "Tetris"; Str "yesterday evening";
               Str "2024-01-02T22:30:00"]] |}.

(** The column labels after [df[c] = ...]. *)
Definition cols_after (c : string) (cols : list string) : list string :=
  if decide (c ∈ cols) then cols else cols ++ [c].

(** [df[c] = ...] with a value computed row by row: [g] gets the labels
    and the row. *)
Definition derive (c : string) (g : list string → list cell → cell)
    (df : DataFrame) : DataFrame :=
  {| columns := cols_after c (columns df);
     rows := map (λ r, row_set c (g (columns df) r) (columns df) r)
                 (rows df) |}.

(** The derived cells of one row, from the cells of that row. *)
Definition duration_cell (e s : cell) : cell :=
  match e, s with
  | Ts e, Ts s => Num (round_float 2 (hours_between s e))
  | _, _ => NA
  end.

Definition period_cell (c : cell) : cell :=
  match c with
  | Ts t => let '(y, m) := year_month t in Per y m
  | _ => NA
  end.

Definition day_name_cell (c : cell) : cell :=
  match c with Ts t => Str (day_name t) | _ => NA end.

(** The frame [normalize_log_df] leaves behind when it succeeds. *)
Definition normalized (parse : cell → option Z) (df : DataFrame) : DataFrame :=
  derive "weekday"
    (λ cols r, day_name_cell (to_datetime_cell parse (row_get cols r "Full Start")))
    (derive "month"
       (λ cols r, period_cell (to_datetime_cell parse (row_get cols r "Full Start")))
       (derive "duration_hours"
          (λ cols r, duration_cell (row_get cols r "Full End")
                                   (row_get cols r "Full Start"))
          (derive "Full End"
             (λ cols r, to_datetime_cell parse (row_get cols r "Full End"))
             (derive "Full Start"
                (λ cols r, to_datetime_cell parse (row_get cols r "Full Start"))
                {| columns := map strip (columns df); rows := rows df |})))).

(** The frame after [df.columns = df.columns.str.strip()]. *)
Definition stripped (df : DataFrame) : DataFrame :=
  {| columns := map strip (columns df); rows := rows df |}.

(** The heap with the log of scenario A as its only table. *)
Definition heap_a : gmap positive DataFrame := {[ 1%positive := log_a ]}.

(** Length of month [mp] (counted from March) of year [yoe] of an era. *)
Definition era_month_days (yoe mp : Z) : Z :=
  if mp =? 11 then (if is_leap (yoe + 1) then 29 else 28)
  else if (mp =? 1) || (mp =? 3) || (mp =? 6) || (mp =? 8) then 30 else 31.


(** * The rest of app.py *)

(** ** Game cards (app.py, lines 141-160) *)

(** [row.get(c, default)] on a row of the frame: the cells under label [c]
    (one cell when the label names one column), the default when no column
    has the label. *)
Definition row_get_default (cols : list string) (r : list cell) (c : string)
    (default : cell) : list cell :=
  match positions c cols 0 with
  | [] => [default]
  | ps => map (cell_at r) ps
  end.

(** [row[c]] *)
Definition row_item (cols : list string) (r : list cell) (c : string)
    : result (list cell) :=
  match positions c cols 0 with
  | [] => Raise (KeyError c)
  | ps => Ok (map (cell_at r) ps)
  end.

(** The values the card template interpolates, in the order it evaluates
    them; the title is used twice, as [alt] text and as heading. *)
Record card := mkCard {
  cover : list cell;
  title : list cell;
  system : list cell;
  genre : list cell;
  total_time : list cell;
  price_paid : list cell
}.

Definition game_card (cols : list string) (r : list cell) : result card :=
  let cover := row_get_default cols r "Game Image" (Str "") in
  title ← row_item cols r "Game";
  Ok (mkCard cover title
        (row_get_default cols r "System" (Str ""))
        (row_get_default cols r "Genre" (Str ""))
        (row_get_default cols r "Total Time" (Num 0%Qc))
        (row_get_default cols r "Total Price Paid" (Num 0%Qc))).

(** The cards [game_card_view] writes, each with the index of the page
    column ([cols[i % 4]]) it is written to. *)
Definition game_card_view (df_register : DataFrame)
    : result (list (nat * card)) :=
  mapM (λ ir, c ← game_card (columns df_register) ir.2;
              Ok ((ir.1 mod 4)%nat, c))
       (imap pair (rows df_register)).

(** ** The worksheet (app.py, lines 59-70) *)

(** A worksheet tab as [get_all_records] reads it: the labels of the
    header row and, for every row below it, the values under these
    labels. *)
Record Worksheet := mkSheet {
  header : list string;
  records : list (list cell)
}.

(** [pd.DataFrame(sheet.get_all_records())]: one record per row below the
    header, keyed by the header; without such rows there are no records and
    the frame has no columns at all.  The cache that [st.cache_data] keeps
    for five minutes is not modelled: this is the load that reads the
    sheet. *)
Definition load_from_gsheet (sheet : Worksheet) : DataFrame :=
  match records sheet with
  | [] => {| columns := []; rows := [] |}
  | _ => {| columns := header sheet; rows := records sheet |}
  end.

Section append.

(** What a later read returns for a value that was written to a cell:
    gspread hands text that reads as a number back as that number. *)
Variable read_back : cell → cell.

(** [sheet.append_row(list(row_dict.values()))]: the values go below the
    last row in the order of the dictionary; its keys are not looked at. *)
Definition append_to_gsheet (sheet : Worksheet)
    (row_dict : list (string * cell)) : Worksheet :=
  {| header := header sheet;
     records := records sheet ++ [map read_back row_dict.*2] |}.

End append.

(** ** The session form (app.py, lines 181-214) *)

Record pydate := mkDate { d_year : Z; d_month : Z; d_day : Z }.

Record pytime := mkTime {
  t_hour : Z; t_minute : Z; t_second : Z; t_microsecond : Z
}.

(** [datetime.datetime.combine(date, time)] *)
Definition combine (d : pydate) (t : pytime) : pydate * pytime := (d, t).

(** Microseconds of a [datetime] since 1970-01-01T00:00:00. *)
Definition datetime_micros (dt : pydate * pytime) : Z :=
  let '(d, t) := dt in
  ((days_from_civil (d_year d) (d_month d) (d_day d) * 24 + t_hour t) * 60
   + t_minute t) * 60 * 1000000
  + t_second t * 1000000 + t_microsecond t.

(** [(a - b).total_seconds()] *)
Definition seconds_between (a b : pydate * pytime) : Qc :=
  (Qc_of_Z (datetime_micros a - datetime_micros b) / Qc_of_Z 1000000)%Qc.

Definition digit_char (k : Z) : ascii := ascii_of_nat (48 + Z.to_nat k).

(** The last [w] decimal digits of [n]. *)
Fixpoint digits (w : nat) (n : Z) : list ascii :=
  match w with
  | O => []
  | S w' => digits w' (n / 10) ++ [digit_char (n mod 10)]
  end.

(** [str(date)], [date.isoformat()] *)
Definition date_isoformat (d : pydate) : list ascii :=
  digits 4 (d_year d) ++ ["-"%char] ++ digits 2 (d_month d)
  ++ ["-"%char] ++ digits 2 (d_day d).

(** [str(time)], [time.isoformat()]: the microseconds are written when
    they are not zero. *)
Definition time_isoformat (t : pytime) : list ascii :=
  digits 2 (t_hour t) ++ [":"%char] ++ digits 2 (t_minute t)
  ++ [":"%char] ++ digits 2 (t_second t)
  ++ (if t_microsecond t =? 0 then []
      else ["."%char] ++ digits 6 (t_microsecond t)).

(** [datetime.isoformat()] *)
Definition datetime_isoformat (dt : pydate * pytime) : list ascii :=
  date_isoformat dt.1 ++ ["T"%char] ++ time_isoformat dt.2.

Definition text (l : list ascii) : cell := Str (String.string_of_list_ascii l).

(** What the widgets of the form hold when it is submitted. *)
Record session_input := mkSession {
  in_date : pydate;
  in_system : string;
  in_game : string;
  in_solo_or_social : string;
  in_online_or_offline : string;
  in_start_time : pytime;
  in_end_time : pytime;
  in_submitted : bool
}.

(** The local [duration] of [new_session_form]. *)
Definition session_duration (i : session_input) : Qc :=
  let full_start := combine (in_date i) (in_start_time i) in
  let full_end := combine (in_date i) (in_end_time i) in
  round_float 2 (seconds_between full_end full_start / Qc_of_Z 3600)%Qc.

(** The local [row] of [new_session_form], a dictionary in insertion
    order. *)
Definition session_row (i : session_input) : list (string * cell) :=
  let full_start := combine (in_date i) (in_start_time i) in
  let full_end := combine (in_date i) (in_end_time i) in
  [("date", text (date_isoformat (in_date i)));
   ("TIME START", text (time_isoformat (in_start_time i)));
   ("TIME END", text (time_isoformat (in_end_time i)));
   ("SYSTEM", Str (in_system i));
   ("GAME", Str (in_game i));
   ("SOLO OR SOCIAL", Str (in_solo_or_social i));
   ("ONLINE OR OFFLINE", Str (in_online_or_offline i));
   ("Full Start", text (datetime_isoformat full_start));
   ("Full End", text (datetime_isoformat full_end));
   ("Duration Hours", Num (session_duration i))].

(** The worksheet after [new_session_form]: one more row when the form was
    submitted. *)
Definition new_session_form (read_back : cell → cell) (i : session_input)
    (sheet : Worksheet) : Worksheet :=
  if in_submitted i then append_to_gsheet read_back sheet (session_row i)
  else sheet.

(** ** The page (app.py, lines 226-240) *)

(** What the load button leads to: the charts and the cards, or the
    exception that [st.error] reports.  Widgets drawn before an exception
    stay on the page; they are not part of the outcome.  The session form
    is drawn after the cards and writes to the sheet only; it is
    [new_session_form] above. *)
Inductive outcome :=
  | Shown (c : charts) (cards : list (nat * card))
  | Failed (e : exn).

Section app.

Variable parse : cell → option Z.
Variable multiselect : list cell → list cell.
Variable keys_mergeable : Series → Series → bool.
Variable nat_text : cell.
Variable px_bar : list (cell * Qc) → result unit.
Variable px_area : list (cell * Qc) → result unit.

(** The body of the [try] block of [app], on the two worksheets the
    loads return.  The two frames are fresh objects. *)
Definition app_load (log_sheet reg_sheet : Worksheet) : outcome :=
  let h : gmap positive DataFrame :=
    <[2%positive := load_from_gsheet reg_sheet]>
      {[1%positive := load_from_gsheet log_sheet]} in
  match normalize_log_df parse 1%positive h with
  | (Raise e, _) => Failed e
  | (Ok log_ref, h) =>
      match normalize_register_df 2%positive h with
      | (Raise e, _) => Failed e
      | (Ok reg_ref, h) =>
          match h !! log_ref, h !! reg_ref with
          | Some log_df, Some reg_df =>
              match merge_data keys_mergeable log_df reg_df with
              | Raise e => Failed e
              | Ok merged =>
                  match genre_filter multiselect reg_df with
                  | Raise e => Failed e
                  | Ok filtered_register =>
                      match main_charts nat_text px_bar px_area merged with
                      | Raise e => Failed e
                      | Ok c =>
                          match game_card_view filtered_register with
                          | Raise e => Failed e
                          | Ok cards => Shown c cards
                          end
                      end
                  end
              end
          | _, _ => Failed AttributeError
          end
      end
  end.

End app.

(** * Definitions used by the further statements *)

(** ** Labels *)

(** The text does not begin with white space. *)
Definition starts_clean (s : string) : Prop :=
  match s with String a _ => is_space a = false | EmptyString => True end.

(** A register whose labels carry stray blanks. *)
Definition reg_spaced : DataFrame :=
  {| columns := [" Game"; "System "];
     rows := [[Str "Tetris"; Str "Game Boy"]] |}.

(** A log without a start column, and one without an end column. *)
Definition log_no_start : DataFrame :=
  {| columns := ["GAME"; "Full End "];
     rows := [[Str "Tetris"; Str "2024-01-02T22:30:00"]] |}.

Definition log_no_end : DataFrame :=
  {| columns := ["GAME"; " Full Start"];
     rows := [[Str "Tetris"; Str "2024-01-02T20:00:00"]] |}.

(** ** The join *)

(** A log and a register that both have a [UID] and a [GAME] column. *)
Definition log_u : DataFrame :=
  {| columns := ["UID"; "GAME"; "duration_hours"; "month"];
     rows := [[Str "g1"; Str "Chrono Trigger"; Num (Qc_of_Z 2); Per 2024 1]] |}.

Definition reg_u : DataFrame :=
  {| columns := ["UID"; "GAME"; "System"];
     rows := [[Str "g1"; Str "CHRONO TRIGGER (SNES)"; Str "SNES"]] |}.

(** A log whose title column has another name, a register without a
    [Game] column, and a log with two [UID] columns. *)
Definition log_titles : DataFrame :=
  {| columns := ["TITLE"; "duration_hours"];
     rows := [[Str "Tetris"; Num (Qc_of_Z 1)]] |}.

Definition reg_titles : DataFrame :=
  {| columns := ["Title"; "System"];
     rows := [[Str "Tetris"; Str "Game Boy"]] |}.

Definition log_two_uid : DataFrame :=
  {| columns := ["UID"; "GAME"; "UID"];
     rows := [[Str "g1"; Str "Tetris"; Str "g2"]] |}.

(** ** Genre tags *)

(** [x] is a tag of the register: a value, not missing, of some row in a
    genre-tag column. *)
Definition is_tag (df_register : DataFrame) (x : cell) : Prop :=
  x ≠ NA ∧ ∃ r, r ∈ rows df_register ∧ row_tagged (columns df_register) [x] r.

(** Row [r] has a value in at least one genre-tag column. *)
Definition has_tag (cols : list string) (r : list cell) : Prop :=
  Exists (λ ic, is_genre_col ic.2 = true ∧ cell_at r ic.1 ≠ NA)
         (imap pair cols).

Global Instance has_tag_dec cols r : Decision (has_tag cols r).
Proof. unfold has_tag. apply _. Defined.

(** A register with one game that has a tag and one that has none. *)
Definition reg_untagged : DataFrame :=
  {| columns := ["Game"; "genretag1"];
     rows := [[Str "Chrono Trigger"; Str "RPG"]; [Str "Pong"; NA]] |}.

(** A register in which one tag was read as a number. *)
Definition reg_mixed : DataFrame :=
  {| columns := ["Game"; "genretag1"];
     rows := [[Str "Chrono Trigger"; Str "RPG"];
              [Str "1942"; Num (Qc_of_Z 1942)]] |}.

(** ** Rollups *)

(** The sum of a list of numbers. *)
Definition sum_nums (l : list Qc) : Qc := foldr Qcplus 0%Qc l.

(** The label under which the monthly rollup files a cell of a period
    column: the text of the period, and for a missing period whatever
    [astype(str)] makes of it. *)
Definition month_label (nat_text : cell) (c : cell) : cell :=
  match c with
  | Per y m => Str (period_str y m)
  | NA => nat_text
  | c => c
  end.

(** The merged table restricted to the sessions that have a month. *)
Definition with_month (df : DataFrame) : DataFrame :=
  {| columns := columns df;
     rows := filter (λ r, row_get (columns df) r "month" ≠ NA) (rows df) |}.

(** A cell of a period column. *)
Definition is_period (c : cell) : Prop :=
  match c with NA | Per _ _ => True | _ => False end.

(** Three sessions in two months and one without a start. *)
Definition table_months : DataFrame :=
  {| columns := ["GAME"; "duration_hours"; "month"];
     rows := [[Str "Zelda"; Num (Qc_of_Z 2); Per 2024 2];
              [Str "Tetris"; Num (Qc_of_Z 1); Per 2024 1];
              [Str "Zelda"; Num (Qc_of_Z 3); Per 2024 1];
              [Str "Pong"; Num (Qc_of_Z 5); NA]] |}.

(** One session that has neither a title nor a start. *)
Definition table_no_title : DataFrame :=
  {| columns := ["GAME"; "duration_hours"; "month"];
     rows := [[NA; Num (Qc_of_Z 5); NA]] |}.

(** A plot that is drawn when it is given something to draw, and raises
    [ValueError] on an empty rollup. *)
Definition plot_nonempty (s : list (cell * Qc)) : result unit :=
  match s with [] => Raise ValueError | _ :: _ => Ok () end.

(** ** Game cards *)

(** A register of five games, without cover, genre, time or price. *)
Definition reg_five : DataFrame :=
  {| columns := ["Game"; "System"];
     rows := [[Str "Zelda"; Str "NES"]; [Str "Tetris"; Str "Game Boy"];
              [Str "Pong"; Str "Arcade"]; [Str "Myst"; Str "PC"];
              [Str "Doom"; Str "PC"]] |}.

(** ** The session form *)

(** Microseconds since midnight. *)
Definition clock_micros (t : pytime) : Z :=
  ((t_hour t * 60 + t_minute t) * 60 + t_second t) * 1000000
  + t_microsecond t.

(** A time of day. *)
Definition valid_time (t : pytime) : Prop :=
  0 ≤ t_hour t < 24 ∧ 0 ≤ t_minute t < 60 ∧ 0 ≤ t_second t < 60
  ∧ 0 ≤ t_microsecond t < 1000000.

(** The columns of the log sheet, in the order in which the form writes
    its values. *)
Definition log_header : list string :=
  ["date"; "TIME START"; "TIME END"; "SYSTEM"; "GAME"; "SOLO OR SOCIAL";
   "ONLINE OR OFFLINE"; "Full Start"; "Full End"; "Duration Hours"].

(** A clock time in whole minutes, as the time widget hands it over. *)
Definition whole_minutes (t : pytime) : Prop :=
  t_second t = 0 ∧ t_microsecond t = 0.

(** A session from eleven in the evening to one in the morning, entered
    on the date of its start. *)
Definition session_late : session_input :=
  {| in_date := mkDate 2024 1 5;
     in_system := "SNES";
     in_game := "Chrono Trigger";
     in_solo_or_social := "Solo";
     in_online_or_offline := "Offline";
     in_start_time := mkTime 23 0 0 0;
     in_end_time := mkTime 1 0 0 0;
     in_submitted := true |}.

(** An evening session of two and a half hours. *)
Definition session_evening : session_input :=
  {| in_date := mkDate 2024 1 5;
     in_system := "SNES";
     in_game := "Chrono Trigger";
     in_solo_or_social := "Solo";
     in_online_or_offline := "Offline";
     in_start_time := mkTime 20 0 0 0;
     in_end_time := mkTime 22 30 0 0;
     in_submitted := true |}.

(** ** The page *)

(** A log sheet with the columns of the form and one session on it, and a
    register sheet with two games. *)
Definition log_sheet_a : Worksheet :=
  {| header := log_header;
     records := [[Str "2024-01-01"; Str "20:00:00"; Str "22:30:00";
                  Str "SNES"; Str "Chrono Trigger"; Str "Solo";
                  Str "Offline"; Str "2024-01-01T20:00:00";
                  Str "2024-01-01T22:30:00"; Num (Q2Qc (5 # 2))]] |}.

Definition reg_sheet_a : Worksheet :=
  {| header := ["Game"; "System"; "genretag1"];
     records := [[Str "Chrono Trigger"; Str "SNES"; Str "RPG"];
                 [Str "Tetris"; Str "Game Boy"; Str "Puzzle"]] |}.

(** A sheet that has its header and nothing below it. *)
Definition log_sheet_blank : Worksheet :=
  {| header := log_header; records := [] |}.

(** * Properties *)

(** ** Achievement badges *)

Lemma playtime_badges_total df :
  playtime_badges df = t ← duration_total df; Ok (badges_for t).
Proof. unfold playtime_badges, duration_total. by destruct (getitem df _). Qed.

Lemma Qc_of_Z_le (a b : Z) : (Qc_of_Z a ≤ Qc_of_Z b)%Qc ↔ a ≤ b.
Proof. unfold Qcle, Qle; simpl. lia. Qed.

(** C4. Whenever the table has a total, the badges of
    [playtime_achievements] are the spans of exactly those milestones of the
    fixed table whose threshold is at most the total, all of them, in the
    table's ascending order of thresholds; a total of 260 hours earns
    Casual Grinder and Hardcore Enthusiast and nothing else. *)
Theorem playtime_badges_exact (df : DataFrame) (total : Qc) :
  duration_total df = Ok total →
  milestones.*1 = [100; 250; 500; 1000] ∧
  playtime_badges df = Ok (map (λ m, badge_span m.2) (earned total)) ∧
  earned total `sublist_of` milestones ∧
  StronglySorted Z.lt (earned total).*1 ∧
  (∀ m, m ∈ milestones → m ∈ earned total ↔ (Qc_of_Z m.1 ≤ total)%Qc) ∧
  (total = Qc_of_Z 260 →
   (earned total).*2 = ["🎯 Casual Grinder"; "🔥 Hardcore Enthusiast"]).
Proof.
  intros Ht. rewrite playtime_badges_total, Ht. split; [done|]. split; [done|].
  split; [apply sublist_filter|].
  split.
  { unfold earned, milestones. rewrite !filter_cons, filter_nil.
    repeat case_decide; simpl; repeat constructor; lia. }
  split.
  { intros m Hm. unfold earned. rewrite list_elem_of_filter. tauto. }
  intros ->. unfold earned, milestones. rewrite !filter_cons, filter_nil.
  simpl. repeat case_decide; try done;
    repeat match goal with
           | H : context [Qcle] |- _ => rewrite Qc_of_Z_le in H
           end; lia.
Qed.

Lemma playtime_badges_exact_witness :
  playtime_badges table_260
  = Ok (map (λ m, badge_span m.2) (earned (Qc_of_Z 260))) ∧
  (earned (Qc_of_Z 260)).*2 = ["🎯 Casual Grinder"; "🔥 Hardcore Enthusiast"].
Proof.
  assert (H : duration_total table_260 = Ok (Qc_of_Z 260)).
  { apply (bool_decide_unpack _). vm_compute. exact I. }
  destruct (playtime_badges_exact table_260 (Qc_of_Z 260) H)
    as (_ & Hb & _ & _ & _ & H260).
  split; [exact Hb | exact (H260 eq_refl)].
Defined.

(** ** Column lookup *)

Lemma elem_of_positions c cols i j :
  j ∈ positions c cols i ↔ (i ≤ j)%nat ∧ cols !! (j - i)%nat = Some c.
Proof.
  revert i. induction cols as [|c' cols IH]; intros i; simpl.
  { rewrite elem_of_nil, lookup_nil. split; [done|]. by intros [_ ?]. }
  assert (Hstep : j ∈ positions c cols (S i)
                  ↔ (i < j)%nat ∧ (c' :: cols) !! (j - i)%nat = Some c).
  { rewrite IH. split; intros [? H]; (split; [lia|]).
    - by replace (j - i)%nat with (S (j - S i)) by lia.
    - by replace (j - i)%nat with (S (j - S i)) in H by lia. }
  case_decide as Hc; [rewrite elem_of_cons|]; rewrite Hstep.
  - subst c'. split.
    + intros [->|[? ?]]; [|split; [lia|done]].
      split; [lia|]. by rewrite Nat.sub_diag.
    + intros [Hle Hl]. destruct (decide (j = i)) as [->|]; [by left|].
      right. split; [lia|done].
  - split; [intros [? ?]; split; [lia|done]|].
    intros [Hle Hl]. split; [|done].
    destruct (decide (j = i)) as [->|]; [|lia].
    rewrite Nat.sub_diag in Hl. simpl in Hl. congruence.
Qed.

Lemma positions_nil c cols i : positions c cols i = [] ↔ c ∉ cols.
Proof.
  split.
  - intros Hp Hin. apply list_elem_of_lookup in Hin as [k Hk].
    assert (Hj : (i + k)%nat ∈ positions c cols i).
    { apply elem_of_positions. split; [lia|].
      by replace (i + k - i)%nat with k by lia. }
    rewrite Hp in Hj. by apply elem_of_nil in Hj.
  - intros Hn. destruct (positions c cols i) as [|j l] eqn:Hp; [done|].
    exfalso. apply Hn.
    assert (Hj : j ∈ positions c cols i) by (rewrite Hp; left).
    apply elem_of_positions in Hj as [_ Hj].
    by eapply list_elem_of_lookup_2.
Qed.

Lemma has_column_elem df c : has_column df c → c ∈ columns df.
Proof.
  intros [i Hi]. destruct (decide (c ∈ columns df)) as [|Hn]; [done|].
  apply (positions_nil c (columns df) 0%nat) in Hn. congruence.
Qed.

Lemma getitem_empty df c :
  rows df = [] → has_column df c → getitem df c = Ok [].
Proof. intros Hr [i Hi]. unfold getitem. by rewrite Hi, Hr. Qed.

(** C8. The badge set is monotone in the total: of two tables, the one with
    the larger (or equal) total of hours earns every badge the other
    earns. *)
Theorem badges_monotone (df1 df2 : DataFrame) (t1 t2 : Qc)
    (b1 b2 : list string) :
  duration_total df1 = Ok t1 →
  duration_total df2 = Ok t2 →
  playtime_badges df1 = Ok b1 →
  playtime_badges df2 = Ok b2 →
  (t1 ≤ t2)%Qc →
  b1 ⊆ b2.
Proof.
  intros H1 H2. rewrite !playtime_badges_total, H1, H2. simpl.
  intros [= <-] [= <-] Hle b. unfold badges_for.
  rewrite !list_elem_of_fmap. intros (m & -> & Hm). exists m. split; [done|].
  apply list_elem_of_filter in Hm as [Hm ?]. apply list_elem_of_filter.
  split; [|done]. by apply Qcle_trans with t1.
Qed.

Lemma badges_monotone_witness :
  map (λ m, badge_span m.2) (earned (Qc_of_Z 260))
  ⊆ map (λ m, badge_span m.2) (earned (Qc_of_Z 600)).
Proof.
  apply (badges_monotone table_260 table_600 (Qc_of_Z 260) (Qc_of_Z 600)).
  - apply (bool_decide_unpack _). vm_compute. exact I.
  - apply (bool_decide_unpack _). vm_compute. exact I.
  - apply (bool_decide_unpack _). vm_compute. exact I.
  - apply (bool_decide_unpack _). vm_compute. exact I.
  - apply Qc_of_Z_le. lia.
Defined.

(** C6. On a merged table without rows every aggregate is defined: the total
    is 0 hours, there are 0 sessions and 0 distinct games, the average
    session is exactly 0, no badge is earned, nothing is written to the
    page, and both rollups are empty. *)
Theorem empty_table_aggregates (nat_text : cell) (df : DataFrame) :
  rows df = [] →
  has_column df "duration_hours" →
  has_column df "GAME" →
  has_column df "month" →
  show_summary_metrics df
  = Ok {| total_hours := 0%Qc; total_sessions := 0; unique_games := 0;
          avg_session := Num 0%Qc |} ∧
  playtime_badges df = Ok [] ∧
  playtime_achievements df = Ok [] ∧
  top_games df = Ok [] ∧
  month_agg nat_text df = Ok [].
Proof.
  intros Hr Hd Hg Hm.
  pose proof (getitem_empty df _ Hr Hd) as Ed.
  pose proof (getitem_empty df _ Hr Hg) as Eg.
  pose proof (getitem_empty df _ Hr Hm) as Em.
  pose proof (has_column_elem df _ Hg) as Hin.
  unfold show_summary_metrics, playtime_achievements, playtime_badges,
    top_games, month_agg.
  rewrite Ed, Eg, Em, Hr. simpl.
  rewrite (bool_decide_eq_true_2 _ Hin). simpl.
  repeat split; try done.
Qed.

Lemma empty_table_aggregates_witness :
  show_summary_metrics empty_merged
  = Ok {| total_hours := 0%Qc; total_sessions := 0; unique_games := 0;
          avg_session := Num 0%Qc |} ∧
  playtime_badges empty_merged = Ok [] ∧
  playtime_achievements empty_merged = Ok [] ∧
  top_games empty_merged = Ok [] ∧
  month_agg (Str "NaT") empty_merged = Ok [].
Proof.
  apply (empty_table_aggregates (Str "NaT") empty_merged).
  - reflexivity.
  - exists 3%nat. reflexivity.
  - exists 0%nat. reflexivity.
  - exists 4%nat. reflexivity.
Defined.

(** ** The join *)

Lemma merge_data_spec_key km log_df reg_df :
  merge_data km log_df reg_df
  = pd_merge km log_df reg_df (spec_join_key log_df reg_df).1
      (spec_join_key log_df reg_df).2.
Proof.
  unfold merge_data, spec_join_key.
  destruct (decide _) as [[H1 H2]|Hn]; simpl.
  - by rewrite !bool_decide_eq_true_2.
  - destruct (bool_decide ("UID" ∈ columns log_df)) eqn:E1;
      destruct (bool_decide ("UID" ∈ columns reg_df)) eqn:E2; try done.
    apply bool_decide_eq_true in E1, E2. tauto.
Qed.

Lemma row_get_unique df c i r :
  positions c (columns df) 0 = [i] → row_get (columns df) r c = cell_at r i.
Proof. intros H. unfold row_get. by rewrite H. Qed.

Lemma flat_map_join {A B} (f : A → list B) (l : list A) :
  flat_map f l = mjoin (map f l).
Proof. induction l as [|x l IH]; simpl; [done|]. by rewrite IH. Qed.

(** What [pd.merge] does once both key labels each name one column. *)
Lemma pd_merge_run km left right lk rk :
  has_column left lk → has_column right rk →
  pd_merge km left right lk rk
  = if km (key_series left lk) (key_series right rk)
    then
      match suffix_dups (columns left)
              (suffix_overlap "_x" (catalog_labels (lk, rk) right)
                 (columns left))
            ++ suffix_dups (catalog_labels (lk, rk) right)
                 (suffix_overlap "_y" (columns left)
                    (catalog_labels (lk, rk) right))
      with
      | [] =>
          Ok {| columns :=
                  suffix_overlap "_x" (catalog_labels (lk, rk) right)
                    (columns left)
                  ++ suffix_overlap "_y" (columns left)
                       (catalog_labels (lk, rk) right);
                rows := mjoin (map (fan_out (lk, rk) left right)
                                 (rows left)) |}
      | _ :: _ => Raise MergeError
      end
    else Raise ValueError.
Proof.
  intros [i Hi] [j Hj]. unfold pd_merge. rewrite Hi, Hj.
  assert (Hkl : map (λ l, cell_at l i) (rows left) = key_series left lk).
  { apply map_ext. intros l. by rewrite (row_get_unique left lk i l Hi). }
  assert (Hkr : map (λ r, cell_at r j) (rows right) = key_series right rk).
  { apply map_ext. intros r. by rewrite (row_get_unique right rk j r Hj). }
  rewrite Hkl, Hkr. destruct (km _ _); [|done].
  assert (Hrows : ∀ l,
            fan_out (lk, rk) left right l
            = match filter (λ r, cell_at r j = cell_at l i) (rows right) with
              | [] => [l ++ replicate (length (catalog_labels (lk, rk) right))
                                      NA]
              | ms => map (λ r, l ++ catalog_part (lk, rk) right r) ms
              end).
  { intros l. unfold fan_out, matches, catalog_width, catalog_labels. simpl.
    rewrite (row_get_unique left lk i l Hi).
    assert (Hf : filter (λ r, row_get (columns right) r rk = cell_at l i)
                   (rows right)
                 = filter (λ r, cell_at r j = cell_at l i) (rows right)).
    { apply list_filter_iff. intros r.
      by rewrite (row_get_unique right rk j r Hj). }
    rewrite Hf. by destruct (decide (lk = rk)). }
  rewrite flat_map_join.
  rewrite (map_ext _ _ Hrows).
  unfold catalog_labels, catalog_part, key_position. simpl.
  rewrite Hj. simpl.
  destruct (decide (lk = rk)) as [->|Hne].
  - by rewrite bool_decide_eq_true_2.
  - by rewrite bool_decide_eq_false_2.
Qed.

Lemma merge_data_run km log_df reg_df :
  let keys := spec_join_key log_df reg_df in
  has_column log_df keys.1 → has_column reg_df keys.2 →
  (merge_accepted km keys log_df reg_df →
   merge_data km log_df reg_df
   = Ok {| columns :=
             suffix_overlap "_x" (catalog_labels keys reg_df) (columns log_df)
             ++ suffix_overlap "_y" (columns log_df)
                  (catalog_labels keys reg_df);
           rows := mjoin (map (fan_out keys log_df reg_df) (rows log_df)) |})
  ∧ (km (key_series log_df keys.1) (key_series reg_df keys.2) = false →
     merge_data km log_df reg_df = Raise ValueError)
  ∧ (km (key_series log_df keys.1) (key_series reg_df keys.2) = true →
     ¬ no_collision keys log_df reg_df →
     merge_data km log_df reg_df = Raise MergeError).
Proof.
  intros keys Hl Hr. rewrite merge_data_spec_key. fold keys.
  rewrite (pd_merge_run km _ _ _ _ Hl Hr).
  assert (Hk : (keys.1, keys.2) = keys) by by destruct keys.
  rewrite Hk. unfold merge_accepted, no_collision.
  destruct (km _ _).
  - destruct (suffix_dups (columns log_df) _) as [|x xs] eqn:E1;
      destruct (suffix_dups (catalog_labels keys reg_df) _) as [|y ys] eqn:E2;
      simpl; (split; [|split]); try done; try (by intros [_ [? ?]]);
      intros _ Hn; exfalso; by apply Hn.
  - split; [|split]; try done. by intros [? _].
Qed.

Lemma elem_of_fan_out keys log_df reg_df l o :
  o ∈ fan_out keys log_df reg_df l ↔
  (∃ r, r ∈ matches keys log_df reg_df l
        ∧ o = l ++ catalog_part keys reg_df r)
  ∨ (matches keys log_df reg_df l = []
     ∧ o = l ++ replicate (catalog_width keys reg_df) NA).
Proof.
  unfold fan_out. destruct (matches keys log_df reg_df l) as [|m ms] eqn:E.
  - rewrite list_elem_of_singleton. split.
    + intros ->. by right.
    + intros [(r & Hr & _)|[_ ->]]; [|done]. by apply elem_of_nil in Hr.
  - rewrite list_elem_of_fmap. split.
    + intros (r & -> & Hr). left. by exists r.
    + intros [(r & Hr & ->)|[? _]]; [|done]. by exists r.
Qed.

(** C2. The join key is chosen once, from the columns of the two tables:
    [UID] on both sides when both have a [UID] column, whatever their
    [GAME] and [Game] columns hold, and otherwise [GAME] of the log against
    [Game] of the register.  When the chosen labels each name one column
    and pandas lets the merge through (the two key columns pass its check,
    no renamed label collides), the merge returns, and its rows are exactly
    those of the left outer join of the log with the register on that key.
    When the key columns do not pass the check the merge raises
    [ValueError], and when a renamed label collides, [MergeError]. *)
Theorem merge_data_left_outer (keys_mergeable : list cell → list cell → bool)
    (log_df reg_df : DataFrame) :
  let keys := spec_join_key log_df reg_df in
  has_column log_df keys.1 →
  has_column reg_df keys.2 →
  merge_data keys_mergeable log_df reg_df
  = pd_merge keys_mergeable log_df reg_df keys.1 keys.2 ∧
  (merge_accepted keys_mergeable keys log_df reg_df →
   ∃ out, merge_data keys_mergeable log_df reg_df = Ok out ∧
     ∀ o, o ∈ rows out ↔ left_outer_row keys log_df reg_df o) ∧
  (keys_mergeable (key_series log_df keys.1) (key_series reg_df keys.2)
   = false →
   merge_data keys_mergeable log_df reg_df = Raise ValueError) ∧
  (keys_mergeable (key_series log_df keys.1) (key_series reg_df keys.2)
   = true →
   ¬ no_collision keys log_df reg_df →
   merge_data keys_mergeable log_df reg_df = Raise MergeError).
Proof.
  intros keys Hl Hr. split; [apply merge_data_spec_key|].
  destruct (merge_data_run keys_mergeable log_df reg_df Hl Hr)
    as (Hok & Hv & Hm). fold keys in Hok, Hv, Hm.
  split; [|by split].
  intros Hacc. rewrite (Hok Hacc). eexists. split; [done|]. intros o. simpl.
  rewrite list_elem_of_join. unfold left_outer_row. split.
  - intros (g & Ho & Hg). apply list_elem_of_fmap in Hg as (l & -> & Hin).
    exists l. split; [done|]. by apply elem_of_fan_out.
  - intros (l & Hin & Ho). exists (fan_out keys log_df reg_df l). split.
    + by apply elem_of_fan_out.
    + apply list_elem_of_fmap. by exists l.
Qed.

Lemma merge_data_left_outer_witness :
  (∃ out, merge_data keys_alike log_c reg_c = Ok out ∧
     ∀ o, o ∈ rows out ↔ left_outer_row ("UID", "UID") log_c reg_c o) ∧
  merge_data keys_alike log_numbered reg_d = Raise ValueError ∧
  merge_data keys_alike log_suffixed reg_suffixed = Raise MergeError.
Proof.
  destruct (merge_data_left_outer keys_alike log_c reg_c) as (_ & H1 & _).
  { exists 0%nat. reflexivity. }
  { exists 0%nat. reflexivity. }
  destruct (merge_data_left_outer keys_alike log_numbered reg_d)
    as (_ & _ & H2 & _).
  { exists 0%nat. reflexivity. }
  { exists 0%nat. reflexivity. }
  destruct (merge_data_left_outer keys_alike log_suffixed reg_suffixed)
    as (_ & _ & _ & H3).
  { exists 0%nat. reflexivity. }
  { exists 0%nat. reflexivity. }
  split; [|split].
  - apply H1. split; [reflexivity|]. split; reflexivity.
  - apply H2. reflexivity.
  - apply H3; [reflexivity|]. intros [Hx _]. discriminate Hx.
Defined.

(** Scenario C, evaluated: the join follows [UID]; the titles, which
    disagree, play no part. *)
Example merge_data_scenario_c :
  merge_data keys_alike log_c reg_c
  = Ok {| columns := ["UID"; "GAME"; "duration_hours"; "Game"; "genretag1"];
          rows := [[Str "g1"; Str "Chrono Trigger"; Num (Qc_of_Z 2);
                    Str "CHRONO TRIGGER (SNES)"; Str "RPG"];
                   [Str "g2"; Str "Tetris"; Num (Qc_of_Z 1);
                    Str "Pong"; Str "Puzzle"];
                   [Str "g2"; Str "Tetris"; Num (Qc_of_Z 1);
                    Str "Tetris DX"; Str "Puzzle"];
                   [Str "g9"; Str "Pong"; NA; NA; NA]] |}.
Proof. reflexivity. Qed.

Lemma filter_none {A} (P : A → Prop) `{!∀ x, Decision (P x)} (l : list A) :
  (∀ x, x ∈ l → ¬ P x) → filter P l = [].
Proof.
  induction l as [|x l IH]; intros Hl; [done|].
  rewrite filter_cons_False by (apply Hl; left).
  apply IH. intros y Hy. apply Hl. by right.
Qed.

Lemma filter_key_NoDup {A} (f : A → cell) (k : cell) (l : list A) :
  NoDup (map f l) → (length (filter (λ x, f x = k) l) ≤ 1)%nat.
Proof.
  induction l as [|x l IH]; simpl; [lia|].
  intros Hnd. apply NoDup_cons in Hnd as [Hx Hnd].
  rewrite filter_cons. case_decide as Hk; [|by apply IH].
  simpl. assert (filter (λ y, f y = k) l = []) as ->; [|simpl; lia].
  apply filter_none. intros y Hy Hfy.
  apply Hx. rewrite Hk, <- Hfy. by apply list_elem_of_fmap_2.
Qed.

Lemma getitem_unique df c i :
  positions c (columns df) 0 = [i] →
  getitem df c = Ok (map (λ r, row_get (columns df) r c) (rows df)).
Proof.
  intros H. unfold getitem. rewrite H. f_equal. apply map_ext. intros r.
  by rewrite (row_get_unique df c i r H).
Qed.

Lemma fan_out_prefix keys log_df reg_df l :
  Forall (λ o, l `prefix_of` o) (fan_out keys log_df reg_df l).
Proof.
  apply Forall_forall. intros o Ho. apply elem_of_fan_out in Ho.
  destruct Ho as [(r & _ & ->)|[_ ->]]; by eexists.
Qed.

Lemma fan_out_length keys log_df reg_df l :
  length (fan_out keys log_df reg_df l)
  = (1 `max` length (matches keys log_df reg_df l))%nat.
Proof.
  unfold fan_out. destruct (matches keys log_df reg_df l); simpl; [done|].
  by rewrite length_map.
Qed.

(** C3. Whenever pandas lets the merge through, every log row is in the
    merged table: the output is, log row after log row, a block of rows
    that each begin with that log row; a log row without a match yields one
    row whose catalog fields are all missing, and a log row with matches
    yields one row per matching register row, none dropped.  So the output
    has at least as many rows as the log, and when the key values of the
    register are distinct it has exactly one row per log row. *)
Theorem merge_data_fan_out (keys_mergeable : list cell → list cell → bool)
    (log_df reg_df : DataFrame) :
  let keys := spec_join_key log_df reg_df in
  has_column log_df keys.1 →
  has_column reg_df keys.2 →
  merge_accepted keys_mergeable keys log_df reg_df →
  ∃ out groups, merge_data keys_mergeable log_df reg_df = Ok out ∧
    rows out = mjoin groups ∧
    Forall2 (λ l g,
               Forall (λ o, l `prefix_of` o) g ∧
               length g = (1 `max` length (matches keys log_df reg_df l))%nat ∧
               (matches keys log_df reg_df l = [] →
                g = [l ++ replicate (catalog_width keys reg_df) NA]) ∧
               (matches keys log_df reg_df l ≠ [] →
                g = map (λ r, l ++ catalog_part keys reg_df r)
                      (matches keys log_df reg_df l)))
            (rows log_df) groups ∧
    (length (rows log_df) ≤ length (rows out))%nat ∧
    (∀ keycol, getitem reg_df keys.2 = Ok keycol → NoDup keycol →
       Forall2 (λ l o, l `prefix_of` o) (rows log_df) (rows out)).
Proof.
  intros keys Hl Hr Hacc.
  destruct (merge_data_run keys_mergeable log_df reg_df Hl Hr) as (Hok & _).
  fold keys in Hok. rewrite (Hok Hacc).
  eexists _, (map (fan_out keys log_df reg_df) (rows log_df)).
  split; [done|]. split; [done|]. simpl. split; [|split].
  - apply Forall2_fmap_r, Forall_Forall2_diag, Forall_forall.
    intros l _. split; [apply fan_out_prefix|].
    split; [apply fan_out_length|]. unfold fan_out.
    split; [by intros ->|]. by destruct (matches keys log_df reg_df l).
  - clear. induction (rows log_df) as [|l ls IH]; simpl; [lia|].
    rewrite length_app, fan_out_length. lia.
  - intros keycol Hcol Hnd. destruct Hr as [j Hj].
    rewrite (getitem_unique reg_df _ j Hj) in Hcol. injection Hcol as <-.
    clear Hok Hacc.
    induction (rows log_df) as [|l ls IH]; simpl; [constructor|].
    pose proof (fan_out_prefix keys log_df reg_df l) as Hp.
    pose proof (fan_out_length keys log_df reg_df l) as Hlen.
    pose proof (filter_key_NoDup (λ r, row_get (columns reg_df) r keys.2)
                  (row_get (columns log_df) l keys.1) (rows reg_df) Hnd) as H1.
    unfold matches in Hlen.
    destruct (fan_out keys log_df reg_df l) as [|o [|o' g]]; simpl in *; try lia.
    constructor; [|done]. by inversion Hp.
Qed.

Lemma merge_data_fan_out_witness :
  ∃ out groups, merge_data keys_alike log_c reg_c = Ok out ∧
    rows out = mjoin groups ∧
    Forall2 (λ l g,
               Forall (λ o, l `prefix_of` o) g ∧
               length g
               = (1 `max` length (matches ("UID", "UID") log_c reg_c l))%nat ∧
               (matches ("UID", "UID") log_c reg_c l = [] →
                g = [l ++ replicate (catalog_width ("UID", "UID") reg_c) NA]) ∧
               (matches ("UID", "UID") log_c reg_c l ≠ [] →
                g = map (λ r, l ++ catalog_part ("UID", "UID") reg_c r)
                      (matches ("UID", "UID") log_c reg_c l)))
            (rows log_c) groups ∧
    (length (rows log_c) ≤ length (rows out))%nat ∧
    (∀ keycol, getitem reg_c "UID" = Ok keycol → NoDup keycol →
       Forall2 (λ l o, l `prefix_of` o) (rows log_c) (rows out)).
Proof.
  apply (merge_data_fan_out keys_alike log_c reg_c).
  - exists 0%nat. reflexivity.
  - exists 0%nat. reflexivity.
  - split; [reflexivity|]. split; reflexivity.
Defined.

(** ** Genre filter *)

Lemma row_tagged_iff cols selected r :
  row_tagged cols selected r ↔
  ∃ i c, cols !! i = Some c ∧ is_genre_col c = true
         ∧ cell_at r i ∈ selected.
Proof.
  unfold row_tagged. rewrite Exists_exists. split.
  - intros ([i c] & Hin & Hg & Hs). apply elem_of_lookup_imap in Hin.
    destruct Hin as (i' & c' & [= -> ->] & Hl). by exists i', c'.
  - intros (i & c & Hl & Hg & Hs). exists (i, c). split; [|done].
    apply elem_of_lookup_imap. by exists i, c.
Qed.

Lemma elem_of_genre_positions cols i j :
  j ∈ genre_positions cols i ↔
  (i ≤ j)%nat ∧ ∃ c, cols !! (j - i)%nat = Some c ∧ is_genre_col c = true.
Proof.
  revert i. induction cols as [|c' cols IH]; intros i; simpl.
  { rewrite elem_of_nil. split; [done|]. intros [_ (c & Hc & _)].
    by rewrite lookup_nil in Hc. }
  assert (Hstep : j ∈ genre_positions cols (S i)
                  ↔ (i < j)%nat ∧ ∃ c, (c' :: cols) !! (j - i)%nat = Some c
                                       ∧ is_genre_col c = true).
  { rewrite IH. split; intros [? (c & Hc & Hg)]; (split; [lia|]); exists c.
    - by replace (j - i)%nat with (S (j - S i)) by lia.
    - by replace (j - i)%nat with (S (j - S i)) in Hc by lia. }
  destruct (is_genre_col c') eqn:Hc'; [rewrite elem_of_cons|]; rewrite Hstep.
  - split.
    + intros [->|[? ?]]; [|split; [lia|done]].
      split; [lia|]. exists c'. by rewrite Nat.sub_diag.
    + intros [Hle Hl]. destruct (decide (j = i)) as [->|]; [by left|].
      right. split; [lia|done].
  - split; [intros [? ?]; split; [lia|done]|].
    intros [Hle (c & Hl & Hg)]. split; [|by exists c].
    destruct (decide (j = i)) as [->|]; [|lia].
    rewrite Nat.sub_diag in Hl. simpl in Hl. congruence.
Qed.

Lemma existsb_isin cols selected r :
  existsb (λ i, isin selected (cell_at r i)) (genre_positions cols 0) = true
  ↔ row_tagged cols selected r.
Proof.
  rewrite row_tagged_iff, existsb_exists. split.
  - intros (i & Hin & Hs). apply list_elem_of_In, elem_of_genre_positions in Hin.
    destruct Hin as [_ (c & Hc & Hg)]. rewrite Nat.sub_0_r in Hc.
    exists i, c. split; [done|]. split; [done|].
    by apply bool_decide_eq_true in Hs.
  - intros (i & c & Hc & Hg & Hs). exists i. split.
    + apply list_elem_of_In, elem_of_genre_positions. split; [lia|].
      exists c. by rewrite Nat.sub_0_r.
    + by apply bool_decide_eq_true.
Qed.

Lemma select_rows_filter (df : DataFrame) (f : list cell → bool) :
  select_rows df (map f (rows df))
  = {| columns := columns df; rows := filter (λ r, f r = true) (rows df) |}.
Proof.
  unfold select_rows. f_equal.
  induction (rows df) as [|r l IH]; simpl; [done|].
  rewrite !filter_cons. simpl.
  destruct (f r) eqn:E; repeat case_decide; simplify_eq/=; try done.
  by rewrite IH.
Qed.

Lemma genre_positions_nil cols :
  genre_positions cols 0 = [] ↔ Forall (λ c, is_genre_col c = false) cols.
Proof.
  rewrite Forall_forall. split.
  - intros Hp c Hin. apply list_elem_of_lookup in Hin as [i Hi].
    destruct (is_genre_col c) eqn:Hg; [|done].
    assert (Hj : i ∈ genre_positions cols 0).
    { apply elem_of_genre_positions. split; [lia|]. exists c.
      by rewrite Nat.sub_0_r. }
    rewrite Hp in Hj. by apply elem_of_nil in Hj.
  - intros Hn. destruct (genre_positions cols 0) as [|j l] eqn:Hp; [done|].
    assert (Hj : j ∈ genre_positions cols 0) by (rewrite Hp; left).
    apply elem_of_genre_positions in Hj as [_ (c & Hc & Hg)].
    rewrite (Hn c) in Hg; [done|]. by eapply list_elem_of_lookup_2.
Qed.

(** C7. Without genre-tag columns the filter returns the register itself.
    With such columns, and whenever the tag vocabulary can be listed in
    sorted order for the selection widget, it returns: for an empty
    selection the register itself; for any other selection the frame with
    the same columns and exactly those rows, in their order, that have a
    selected tag in some genre-tag column. *)
Theorem genre_filter_rows (multiselect : list cell → list cell)
    (df_register : DataFrame) :
  let genre_cols := filter (λ c, is_genre_col c = true) (columns df_register) in
  (genre_cols = [] → genre_filter multiselect df_register = Ok df_register) ∧
  ∀ options, sorted (all_tags df_register) = Ok options →
    let selected := multiselect options in
    (selected = [] → genre_filter multiselect df_register = Ok df_register) ∧
    (genre_cols ≠ [] → selected ≠ [] →
     genre_filter multiselect df_register
     = Ok {| columns := columns df_register;
             rows := filter (row_tagged (columns df_register) selected)
                       (rows df_register) |}).
Proof.
  intros genre_cols.
  assert (Hnil : genre_positions (columns df_register) 0 = []
                 ↔ genre_cols = []).
  { rewrite genre_positions_nil. unfold genre_cols. split.
    - intros H. apply filter_none. intros c Hc.
      rewrite Forall_forall in H. by rewrite (H c Hc).
    - intros H. apply Forall_forall. intros c Hc.
      destruct (is_genre_col c) eqn:Hg; [|done].
      assert (Hin : c ∈ filter (λ c, is_genre_col c = true)
                          (columns df_register))
        by by apply list_elem_of_filter.
      rewrite H in Hin. by apply elem_of_nil in Hin. }
  split.
  { intros Hg. apply Hnil in Hg. unfold genre_filter. by rewrite Hg. }
  intros options Hs selected. unfold genre_filter.
  fold (all_tags df_register). rewrite Hs. simpl. fold selected.
  split.
  - intros ->. by destruct (genre_positions _ _).
  - intros Hg Hsel.
    destruct (genre_positions (columns df_register) 0) as [|p ps] eqn:Hp.
    { exfalso. apply Hg. by apply Hnil. }
    rewrite <- Hp. clear Hp. revert Hsel.
    generalize selected. intros [|t ts] Hsel; [done|].
    unfold any_isin. rewrite select_rows_filter. do 2 f_equal.
    apply list_filter_iff. intros r. apply existsb_isin.
Qed.

Lemma genre_filter_rows_witness :
  genre_filter (λ _, [Str "RPG"]) reg_d
  = Ok {| columns := columns reg_d;
          rows := filter (row_tagged (columns reg_d) [Str "RPG"])
                    (rows reg_d) |} ∧
  genre_filter (λ _, []) reg_d = Ok reg_d.
Proof.
  destruct (genre_filter_rows (λ _, [Str "RPG"]) reg_d) as [_ H1].
  destruct (H1 [Str "Adventure"; Str "RPG"]) as [_ H3]; [reflexivity|].
  destruct (genre_filter_rows (λ _, []) reg_d) as [_ H2].
  destruct (H2 [Str "Adventure"; Str "RPG"]) as [H4 _]; [reflexivity|].
  split; [apply H3; discriminate|by apply H4].
Defined.

(** Scenario D, evaluated: the row tagged RPG and Adventure stays when RPG
    is selected and goes when only Platformer is. *)
Example genre_filter_scenario_d :
  genre_filter (λ _, [Str "RPG"]) reg_d = Ok reg_d ∧
  genre_filter (λ _, [Str "Platformer"]) reg_d
  = Ok {| columns := columns reg_d; rows := [] |}.
Proof. split; reflexivity. Qed.

(** Text tags can always be listed in sorted order. *)
Lemma sorted_text (l : list cell) :
  Forall (λ c, ∃ s, c = Str s) l → is_Ok (sorted l).
Proof.
  intros H. unfold sorted. destruct l as [|x l]; [by eexists|].
  apply Forall_cons in H as [[s ->] H].
  assert (forallb (λ y, kind y =? kind (Str s)) l = true) as ->;
    [|by eexists].
  apply forallb_forall. intros y Hy%list_elem_of_In.
  rewrite Forall_forall in H. by destruct (H y Hy) as [t ->].
Qed.

(** ** Order on cells *)

Lemma ascii_compare_refl a : Ascii.compare a a = Eq.
Proof. unfold Ascii.compare. apply N.compare_refl. Qed.

Lemma string_compare_refl s : String.compare s s = Eq.
Proof.
  induction s as [|a s IH]; simpl; [done|]. by rewrite ascii_compare_refl.
Qed.

Lemma string_compare_lt_trans s t u :
  String.compare s t = Lt → String.compare t u = Lt → String.compare s u = Lt.
Proof.
  revert t u. induction s as [|a s IH]; intros [|b t] [|c u]; simpl; try done.
  unfold Ascii.compare.
  destruct (N.compare_spec (N_of_ascii a) (N_of_ascii b)) as [Hab|Hab|Hab];
    destruct (N.compare_spec (N_of_ascii b) (N_of_ascii c)) as [Hbc|Hbc|Hbc];
    try done; intros H1 H2.
  - rewrite Hab, Hbc, N.compare_refl. by eapply IH.
  - rewrite Hab. by apply N.compare_lt_iff in Hbc as ->.
  - rewrite <- Hbc. by apply N.compare_lt_iff in Hab as ->.
  - assert (N_of_ascii a < N_of_ascii c)%N as Hac by lia.
    by apply N.compare_lt_iff in Hac as ->.
Qed.

Lemma string_leb_trans s t u :
  String.leb s t = true → String.leb t u = true → String.leb s u = true.
Proof.
  unfold String.leb.
  destruct (String.compare s t) eqn:E1; [| |done];
    destruct (String.compare t u) eqn:E2; try done; intros _ _.
  - apply String.compare_eq_iff in E1, E2. subst.
    by rewrite string_compare_refl.
  - apply String.compare_eq_iff in E1. subst. by rewrite E2.
  - apply String.compare_eq_iff in E2. subst. by rewrite E1.
  - by rewrite (string_compare_lt_trans s t u).
Qed.

Lemma cell_leb_total a b : cell_leb a b = true ∨ cell_leb b a = true.
Proof.
  destruct a, b; simpl; try (by left); try (by right).
  - apply String.leb_total.
  - destruct (Qc_le_total x x0); [left|right]; by apply bool_decide_eq_true.
  - lia.
  - lia.
Qed.

Lemma cell_leb_trans a b c :
  cell_leb a b = true → cell_leb b c = true → cell_leb a c = true.
Proof.
  destruct a, b, c; simpl; try done.
  - apply string_leb_trans.
  - rewrite !bool_decide_eq_true. apply Qcle_trans.
  - lia.
  - lia.
Qed.

Lemma cell_leb_antisym a b :
  cell_leb a b = true → cell_leb b a = true → a = b.
Proof.
  destruct a, b; simpl; try done.
  - intros H1 H2. f_equal. by apply String.leb_antisym.
  - rewrite !bool_decide_eq_true. intros H1 H2. f_equal.
    by apply Qcle_antisym.
  - intros. f_equal. lia.
  - intros. f_equal; lia.
Qed.

Lemma cell_lt_trans a b c : cell_lt a b → cell_lt b c → cell_lt a c.
Proof.
  intros [H1 N1] [H2 N2]. split; [by eapply cell_leb_trans|].
  intros ->. apply N1. by apply cell_leb_antisym.
Qed.

Lemma cell_lt_irrefl a : ¬ cell_lt a a.
Proof. by intros [_ ?]. Qed.

(** ** Insertion sort *)

Section sort_facts.
Context {A : Type} (leb : A → A → bool).

Lemma insert_by_perm x l : insert_by leb x l ≡ₚ x :: l.
Proof.
  induction l as [|y l IH]; simpl; [done|].
  destruct (leb x y); [done|]. rewrite IH. apply Permutation_swap.
Qed.

Lemma sort_by_perm l : sort_by leb l ≡ₚ l.
Proof.
  induction l as [|x l IH]; simpl; [done|].
  by rewrite insert_by_perm, IH.
Qed.

Lemma sort_by_length l : length (sort_by leb l) = length l.
Proof. apply Permutation_length, sort_by_perm. Qed.

Hypothesis leb_total : ∀ a b, leb a b = true ∨ leb b a = true.
Hypothesis leb_trans : ∀ a b c, leb a b = true → leb b c = true → leb a c = true.

Lemma insert_by_sorted x l :
  StronglySorted (λ a b, leb a b = true) l →
  StronglySorted (λ a b, leb a b = true) (insert_by leb x l).
Proof.
  induction 1 as [|y l Hs IH Hy]; simpl; [repeat constructor|].
  destruct (leb x y) eqn:E.
  - constructor; [by constructor|]. constructor; [done|].
    eapply Forall_impl; [exact Hy|]. intros z Hz. by eapply leb_trans.
  - constructor; [done|]. rewrite insert_by_perm. constructor; [|done].
    destruct (leb_total x y); [congruence|done].
Qed.

Lemma sort_by_sorted l : StronglySorted (λ a b, leb a b = true) (sort_by leb l).
Proof.
  induction l as [|x l IH]; simpl; [constructor|]. by apply insert_by_sorted.
Qed.

End sort_facts.

(** Sorting by descending value: no entry is followed by a larger one. *)
Lemma sort_values_desc_sorted s :
  StronglySorted not_below (sort_values_desc s).
Proof.
  unfold sort_values_desc.
  set (leb := λ a b : cell * Qc, bool_decide (b.2 ≤ a.2)%Qc).
  assert (Hs : StronglySorted (λ a b, leb a b = true) (sort_by leb s)).
  { apply sort_by_sorted.
    - intros a b. unfold leb. rewrite !bool_decide_eq_true.
      destruct (Qclt_le_dec a.2 b.2) as [H|H]; [right|by left].
      by apply Qclt_le_weak.
    - intros a b c. unfold leb. rewrite !bool_decide_eq_true.
      intros H1 H2. by eapply Qcle_trans. }
  induction Hs as [|x l Hs IH Hx]; constructor; [done|].
  eapply Forall_impl; [exact Hx|]. intros y. unfold leb, not_below.
  by rewrite bool_decide_eq_true.
Qed.

(** ** Distinct values *)

Lemma elem_of_unique (s : Series) c : c ∈ unique s ↔ c ∈ s.
Proof.
  induction s as [|x s IH]; simpl; [done|].
  rewrite !elem_of_cons, list_elem_of_filter, IH.
  destruct (decide (c = x)); tauto.
Qed.

Lemma NoDup_unique (s : Series) : NoDup (unique s).
Proof.
  induction s as [|x s IH]; simpl; [constructor|].
  constructor; [|by apply NoDup_filter].
  rewrite list_elem_of_filter. by intros [? _].
Qed.

Lemma elem_of_dropna (s : Series) c : c ∈ dropna s ↔ c ≠ NA ∧ c ∈ s.
Proof. unfold dropna. by rewrite list_elem_of_filter. Qed.

Lemma group_keys_perm keys : group_keys keys ≡ₚ unique (dropna keys).
Proof. apply sort_by_perm. Qed.

Lemma elem_of_group_keys keys k : k ∈ group_keys keys ↔ k ≠ NA ∧ k ∈ keys.
Proof. by rewrite group_keys_perm, elem_of_unique, elem_of_dropna. Qed.

Lemma NoDup_group_keys keys : NoDup (group_keys keys).
Proof. rewrite group_keys_perm. apply NoDup_unique. Qed.

Lemma group_keys_sorted keys : StronglySorted cell_lt (group_keys keys).
Proof.
  pose proof (sort_by_sorted cell_leb cell_leb_total cell_leb_trans
                (unique (dropna keys))) as Hs.
  pose proof (NoDup_group_keys keys) as Hnd. unfold group_keys in *.
  induction Hs as [|k l Hs IH Hk]; [constructor|].
  apply NoDup_cons in Hnd as [Hin Hnd].
  constructor; [by apply IH|].
  rewrite Forall_forall in Hk. apply Forall_forall. intros k' Hk'.
  split; [by apply Hk|]. by intros ->.
Qed.

(** ** Sums and groups *)

Lemma series_sum_numeric (s : Series) :
  is_Ok (series_sum s) ↔ Forall numeric s.
Proof.
  induction s as [|c s IH]; simpl.
  { split; [constructor|by eexists]. }
  rewrite Forall_cons, <- IH.
  destruct c; simpl; try (split; [by intros [? ?]|by intros [[] _]]).
  - tauto.
  - split.
    + intros [t Ht]. split; [done|].
      destruct (series_sum s); [by eexists|done].
    + intros [_ [t ->]]. by eexists.
Qed.

Lemma group_values_sublist keys values k :
  group_values keys values k `sublist_of` values.
Proof.
  unfold group_values. revert values.
  induction keys as [|c keys IH]; intros [|v values]; simpl; try done.
  { apply sublist_nil_l. }
  rewrite filter_cons. case_decide; simpl.
  - by apply sublist_skip.
  - by apply sublist_cons.
Qed.

Lemma group_values_numeric keys values k :
  Forall numeric values → Forall numeric (group_values keys values k).
Proof.
  rewrite !Forall_forall. intros H c Hc. apply H.
  eapply elem_of_sublist; [exact Hc|apply group_values_sublist].
Qed.

Lemma mapM_result {A B} (f : A → result B) (l : list A) :
  Forall (λ x, is_Ok (f x)) l →
  ∃ ys, mapM f l = Ok ys ∧ Forall2 (λ x y, f x = Ok y) l ys.
Proof.
  induction 1 as [|x l [y Hy] _ (ys & Hys & IH)]; simpl.
  - exists []. by split.
  - exists (y :: ys). rewrite Hy. simpl. rewrite Hys. simpl.
    split; [done|]. by constructor.
Qed.

Lemma groupby_sum_groups keys values :
  Forall numeric values →
  ∃ sums, groupby_sum keys values = Ok sums ∧
    sums.*1 = group_keys keys ∧
    ∀ k t, (k, t) ∈ sums ↔
           k ∈ group_keys keys ∧ series_sum (group_values keys values k) = Ok t.
Proof.
  intros Hn. unfold groupby_sum.
  destruct (mapM_result
    (λ k, t ← series_sum (group_values keys values k); Ok (k, t))
    (group_keys keys)) as (sums & Hs & H2).
  { apply Forall_forall. intros k _.
    destruct (proj2 (series_sum_numeric (group_values keys values k)))
      as [t Ht]; [by apply group_values_numeric|].
    rewrite Ht. by eexists. }
  exists sums. split; [done|]. clear Hs.
  induction H2 as [|k [k' t'] ks sums Hk H2 [IH1 IH2]]; simpl.
  { split; [done|]. intros k t. rewrite !elem_of_nil. tauto. }
  destruct (series_sum (group_values keys values k)) as [t|] eqn:Ht;
    simpl in Hk; [|done].
  injection Hk as <- <-. split; [f_equal; apply IH1|].
  intros k0 t0. rewrite !elem_of_cons, IH2. split.
  - intros [[= -> ->]|[? ?]]; [by split; [left|]|by split; [right|]].
  - intros [[->|Hin] Hsum]; [left|right; by split].
    rewrite Ht in Hsum. by injection Hsum as ->.
Qed.

(** ** The top-games rollup *)

Lemma StronglySorted_fmap_inv {A B} (f : A → B) (R : relation B) l :
  StronglySorted R (f <$> l) → StronglySorted (λ x y, R (f x) (f y)) l.
Proof.
  induction l as [|a l IH]; csimpl; [constructor|].
  intros Hs. apply StronglySorted_inv in Hs as [Hs Ha].
  constructor; [by apply IH|]. rewrite Forall_fmap in Ha. exact Ha.
Qed.

Lemma duration_total_Ok df total :
  duration_total df = Ok total →
  ∃ hours, getitem df "duration_hours" = Ok hours
           ∧ series_sum hours = Ok total ∧ Forall numeric hours.
Proof.
  unfold duration_total. destruct (getitem df "duration_hours") as [hours|];
    simpl; [|done].
  intros Hs. exists hours. split; [done|]. split; [done|].
  apply series_sum_numeric. by eexists.
Qed.

Lemma has_column_getitem df c : has_column df c → is_Ok (getitem df c).
Proof. intros [i Hi]. unfold getitem. rewrite Hi. by eexists. Qed.

Lemma top_games_sums df total :
  has_column df "GAME" →
  duration_total df = Ok total →
  ∃ games hours sums,
    getitem df "GAME" = Ok games ∧
    getitem df "duration_hours" = Ok hours ∧
    groupby_sum games hours = Ok sums ∧
    sums.*1 = group_keys games ∧
    (∀ k t, (k, t) ∈ sums ↔
            k ∈ group_keys games
            ∧ series_sum (group_values games hours k) = Ok t) ∧
    top_games df = Ok (take 15 (sort_values_desc sums)).
Proof.
  intros Hg Ht. destruct (has_column_getitem df _ Hg) as [games Hgames].
  destruct (duration_total_Ok df total Ht) as (hours & Hhours & _ & Hnum).
  destruct (groupby_sum_groups games hours Hnum) as (sums & Hsums & Hk & Hin).
  exists games, hours, sums. repeat (split; [done|]).
  unfold top_games. rewrite Hgames, Hhours. simpl. by rewrite Hsums.
Qed.

(** C5, amended. The rollup has one group per distinct title that is not
    missing, each with the sum of the hours of the rows of that title; the
    groups are listed by descending sum, so that no group is followed by
    one with more hours, and the first 15 of that list are returned (all of
    them when there are fewer titles).  Nothing is said of the order among
    groups with equal sums. *)
Theorem top_games_ranked (df : DataFrame) (total : Qc) :
  has_column df "GAME" →
  duration_total df = Ok total →
  ∃ games hours ranked,
    getitem df "GAME" = Ok games ∧
    getitem df "duration_hours" = Ok hours ∧
    top_games df = Ok (take 15 ranked) ∧
    ranked.*1 ≡ₚ unique (dropna games) ∧
    (∀ g t, (g, t) ∈ ranked →
            series_sum (group_values games hours g) = Ok t) ∧
    StronglySorted not_below ranked ∧
    length (take 15 ranked) = (15 `min` nunique games)%nat.
Proof.
  intros Hg Ht.
  destruct (top_games_sums df total Hg Ht)
    as (games & hours & sums & Hgames & Hhours & Hsums & Hk & Hin & Htop).
  exists games, hours, (sort_values_desc sums).
  split; [done|]. split; [done|]. split; [done|].
  assert (Hperm : sort_values_desc sums ≡ₚ sums) by apply sort_by_perm.
  split; [by rewrite Hperm, Hk, group_keys_perm|].
  split.
  { intros g t Hgt. rewrite Hperm in Hgt. by apply Hin in Hgt as [_ ?]. }
  split; [apply sort_values_desc_sorted|].
  rewrite length_take, Hperm.
  assert (length sums = nunique games) as ->; [|done].
  rewrite <- (length_fmap fst), Hk, group_keys_perm. done.
Qed.

(** C5 as stated fails on a tie: Zelda appears first in the table, and
    the rollup lists Asteroids first.  The table in which Asteroids appears
    first has the same rollup. *)
Lemma top_games_tie_counterexample :
  ∃ top, top_games tie_table = Ok top ∧
    top.*1 = [Str "Asteroids"; Str "Zelda"] ∧
    getitem tie_table "GAME" = Ok [Str "Zelda"; Str "Asteroids"] ∧
    ¬ ties_first_seen [Str "Zelda"; Str "Asteroids"] top ∧
    top_games tie_table_swapped = Ok top.
Proof.
  eexists. split; [vm_compute; reflexivity|]. split; [reflexivity|].
  split; [reflexivity|]. split; [|reflexivity]. intros H.
  specialize (H 0%nat 1%nat _ _ eq_refl eq_refl). simpl in H.
  assert (H' := H ltac:(lia) eq_refl). vm_compute in H'. lia.
Qed.

(** The grouping lists its keys in sorted order before the sums are
    ranked, so the rollup cannot tell which title the table showed first. *)
Example top_games_forgets_first_seen :
  top_games tie_table = top_games tie_table_swapped.
Proof. reflexivity. Qed.

Lemma top_games_ranked_witness :
  ∃ games hours ranked,
    getitem tie_table "GAME" = Ok games ∧
    getitem tie_table "duration_hours" = Ok hours ∧
    top_games tie_table = Ok (take 15 ranked) ∧
    ranked.*1 ≡ₚ unique (dropna games) ∧
    (∀ g t, (g, t) ∈ ranked →
            series_sum (group_values games hours g) = Ok t) ∧
    StronglySorted not_below ranked ∧
    length (take 15 ranked) = (15 `min` nunique games)%nat.
Proof.
  apply (top_games_ranked tie_table (Qc_of_Z 4)).
  - exists 0%nat. reflexivity.
  - apply (bool_decide_unpack _). vm_compute. exact I.
Defined.

(** ** Sessions without a title *)

Lemma getitem_filter df c (P : list cell → Prop) `{!∀ r, Decision (P r)} :
  has_column df c →
  getitem df c = Ok (map (λ r, row_get (columns df) r c) (rows df)) ∧
  getitem {| columns := columns df; rows := filter P (rows df) |} c
  = Ok (map (λ r, row_get (columns df) r c) (filter P (rows df))).
Proof.
  intros [i Hi]. split; [by apply (getitem_unique df c i)|].
  by apply (getitem_unique {| columns := columns df |} c i).
Qed.

Lemma zip_map {A B C} (f : A → B) (g : A → C) (l : list A) :
  zip (map f l) (map g l) = map (λ x, (f x, g x)) l.
Proof. induction l as [|x l IH]; simpl; [done|]. by rewrite IH. Qed.

Lemma filter_map {A B} (f : A → B) (P : B → Prop) `{!∀ y, Decision (P y)}
    (l : list A) :
  filter P (map f l) = map f (filter (λ x, P (f x)) l).
Proof.
  induction l as [|x l IH]; simpl; [done|].
  rewrite !filter_cons, IH. by case_decide.
Qed.

Lemma mapM_result_ext {A B} (f g : A → result B) (l : list A) :
  Forall (λ x, f x = g x) l → mapM f l = mapM g l.
Proof.
  induction 1 as [|x l Hx _ IH]; simpl; [done|]. by rewrite Hx, IH.
Qed.

Lemma series_sum_split {A} (f : A → cell) (P : A → Prop)
    `{!∀ x, Decision (P x)} (l : list A) (t : Qc) :
  series_sum (map f l) = Ok t →
  ∃ t1 t2, series_sum (map f (filter P l)) = Ok t1 ∧
           series_sum (map f (filter (λ x, ¬ P x) l)) = Ok t2 ∧
           t = (t1 + t2)%Qc.
Proof.
  revert t. induction l as [|x l IH]; simpl; intros t Ht.
  { injection Ht as <-. exists 0%Qc, 0%Qc. by rewrite Qcplus_0_l. }
  rewrite !filter_cons.
  destruct (f x) as [| |q| |] eqn:Hfx; try done.
  - destruct (IH t Ht) as (t1 & t2 & H1 & H2 & ->).
    exists t1, t2. destruct (decide (P x)).
    + rewrite decide_False by tauto. simpl. by rewrite Hfx.
    + rewrite decide_True by tauto. simpl. by rewrite Hfx.
  - destruct (series_sum (map f l)) as [t'|] eqn:Ht'; simpl in Ht; [|done].
    injection Ht as <-.
    destruct (IH t' eq_refl) as (t1 & t2 & H1 & H2 & ->).
    destruct (decide (P x)).
    + rewrite decide_False by tauto. exists (q + t1)%Qc, t2. simpl.
      rewrite Hfx, H1. simpl. split; [done|]. split; [done|]. ring.
    + rewrite decide_True by tauto. exists t1, (q + t2)%Qc. simpl.
      rewrite Hfx, H2. simpl. split; [done|]. split; [done|]. ring.
Qed.

Lemma dropna_idemp (s : Series) : dropna (dropna s) = dropna s.
Proof.
  unfold dropna. by apply list_filter_filter_l.
Qed.

Lemma groupby_sum_dropna {A} (gi hj : A → cell) (l : list A) :
  groupby_sum (map gi (filter (λ r, gi r ≠ NA) l))
              (map hj (filter (λ r, gi r ≠ NA) l))
  = groupby_sum (map gi l) (map hj l).
Proof.
  assert (Hg : map gi (filter (λ r, gi r ≠ NA) l) = dropna (map gi l)).
  { unfold dropna. by rewrite filter_map. }
  assert (Hkeys : group_keys (map gi (filter (λ r, gi r ≠ NA) l))
                  = group_keys (map gi l)).
  { unfold group_keys. by rewrite Hg, dropna_idemp. }
  unfold groupby_sum. rewrite Hkeys.
  apply mapM_result_ext, Forall_forall. intros k Hk.
  unfold group_keys in Hk.
  rewrite sort_by_perm, elem_of_unique, elem_of_dropna in Hk.
  destruct Hk as [Hk _]. unfold group_values. rewrite !zip_map.
  rewrite (filter_map (λ r, (gi r, hj r)) (λ kv, kv.1 = k)).
  rewrite (filter_map (λ r, (gi r, hj r)) (λ kv, kv.1 = k)).
  rewrite list_filter_filter.
  assert (Hf : filter (λ a, (gi a, hj a).1 = k ∧ gi a ≠ NA) l
               = filter (λ x, (gi x, hj x).1 = k) l).
  { apply list_filter_iff. intros r. simpl. split; [tauto|].
    by intros ->. }
  by rewrite Hf.
Qed.

(** C10. Sessions whose title is missing are left out of the top-games
    rollup: no group has a missing title, and the rollup is the one of the
    table without those sessions, so their hours enter no group's sum.  The
    summary metrics count them all the same: the total is the hours of the
    titled sessions plus the hours of the untitled ones, and the session
    count is the number of both. *)
Theorem top_games_skips_untitled (df : DataFrame) (total : Qc) :
  has_column df "GAME" →
  duration_total df = Ok total →
  top_games df = top_games (with_title df) ∧
  (∃ top, top_games df = Ok top ∧ ∀ g t, (g, t) ∈ top → g ≠ NA) ∧
  ∃ m titled untitled,
    show_summary_metrics df = Ok m ∧
    duration_total (with_title df) = Ok titled ∧
    duration_total (without_title df) = Ok untitled ∧
    total_hours m = (titled + untitled)%Qc ∧
    total_sessions m
    = (length (rows (with_title df)) + length (rows (without_title df)))%nat.
Proof.
  intros Hg Ht.
  destruct (duration_total_Ok df total Ht) as (hours & Hhours & Hsum & Hnum).
  assert (Hd : has_column df "duration_hours").
  { unfold getitem in Hhours.
    destruct (positions "duration_hours" (columns df) 0) as [|i [|??]] eqn:E;
      try done. by exists i. }
  set (P := λ r : list cell, row_get (columns df) r "GAME" ≠ NA).
  destruct (getitem_filter df "GAME" P Hg) as [Hg1 Hg2].
  destruct (getitem_filter df "duration_hours" P Hd) as [Hd1 Hd2].
  destruct (getitem_filter df "duration_hours" (λ r, ¬ P r) Hd) as [_ Hd3].
  split; [|split].
  - change (with_title df)
      with {| columns := columns df; rows := filter P (rows df) |}.
    unfold top_games. rewrite Hg1, Hg2, Hd1, Hd2. simpl.
    by rewrite (groupby_sum_dropna
                  (λ r, row_get (columns df) r "GAME")
                  (λ r, row_get (columns df) r "duration_hours")).
  - destruct (top_games_sums df total Hg Ht)
      as (games & hours' & sums & _ & _ & _ & _ & Hsums & Htop).
    exists (take 15 (sort_values_desc sums)). split; [done|]. intros g t Hin.
    assert (Hk : (g, t) ∈ sums).
    { assert (Hp : sort_values_desc sums ≡ₚ sums) by apply sort_by_perm.
      rewrite <- Hp.
      eapply elem_of_sublist; [exact Hin|apply sublist_take]. }
    apply Hsums in Hk as [Hk _]. apply elem_of_group_keys in Hk. tauto.
  - rewrite Hhours in Hd1. injection Hd1 as ->.
    destruct (series_sum_split
                (λ r, row_get (columns df) r "duration_hours") P
                (rows df) total Hsum) as (t1 & t2 & H1 & H2 & ->).
    change (without_title df)
      with {| columns := columns df; rows := filter (λ r, ¬ P r) (rows df) |}.
    change (with_title df)
      with {| columns := columns df; rows := filter P (rows df) |}.
    unfold show_summary_metrics, duration_total.
    rewrite Hhours, Hd2, Hd3, Hg1. simpl. rewrite Hsum, H1, H2. simpl.
    rewrite (bool_decide_eq_true_2 _ (has_column_elem df _ Hg)). simpl.
    unfold series_mean. rewrite Hsum. simpl.
    destruct (bool_decide (0 < length (rows df))%nat); simpl;
      eexists _, t1, t2; (split; [reflexivity|]); simpl;
      (split; [done|]); (split; [done|]); (split; [done|]);
      by rewrite <- (length_app), (Permutation_length (filter_app_complement P (rows df))).
Qed.

Lemma top_games_skips_untitled_witness :
  top_games table_untitled = top_games (with_title table_untitled) ∧
  (∃ top, top_games table_untitled = Ok top
          ∧ ∀ g t, (g, t) ∈ top → g ≠ NA) ∧
  ∃ m titled untitled,
    show_summary_metrics table_untitled = Ok m ∧
    duration_total (with_title table_untitled) = Ok titled ∧
    duration_total (without_title table_untitled) = Ok untitled ∧
    total_hours m = (titled + untitled)%Qc ∧
    total_sessions m
    = (length (rows (with_title table_untitled))
       + length (rows (without_title table_untitled)))%nat.
Proof.
  apply (top_games_skips_untitled table_untitled (Qc_of_Z 11)).
  - exists 0%nat. reflexivity.
  - apply (bool_decide_unpack _). vm_compute. exact I.
Defined.

(** The table with the untitled session, evaluated: the rollup shows four
    hours, the summary eleven hours in four sessions. *)
Example untitled_session_counts :
  (top_games table_untitled ≫= λ top, Ok (top.*1))
  = Ok [Str "Asteroids"; Str "Zelda"] ∧
  (show_summary_metrics table_untitled ≫= λ m, Ok (total_sessions m))
  = Ok 4%nat ∧
  duration_total table_untitled = Ok (Qc_of_Z 11) ∧
  duration_total (with_title table_untitled) = Ok (Qc_of_Z 4).
Proof.
  split; [reflexivity|]. split; [reflexivity|].
  split; apply (bool_decide_unpack _); vm_compute; exact I.
Qed.

(** ** The calendar *)

(** The year of the era is found again from the day of the era. *)
Lemma era_year_of_day yoe doy :
  0 ≤ yoe < 400 → 0 ≤ doy →
  doy < 365 + (if is_leap (yoe + 1) then 1 else 0) →
  let doe := yoe * 365 + yoe / 4 - yoe / 100 + doy in
  0 ≤ doe < 146097 ∧
  (doe - doe / 1460 + doe / 36524 - doe / 146096) / 365 = yoe.
Proof.
  intros Hy Hd Hl doe. unfold is_leap in Hl. subst doe.
  destruct ((yoe + 1) mod 4 =? 0) eqn:E4;
    destruct ((yoe + 1) mod 100 =? 0) eqn:E100;
    destruct ((yoe + 1) mod 400 =? 0) eqn:E400; simpl in Hl;
    split; Z.div_mod_to_equations; lia.
Qed.

(** The month and the day are found again from the day of the year. *)
Lemma era_month_of_day yoe mp d :
  0 ≤ mp < 12 → 1 ≤ d ≤ era_month_days yoe mp →
  let doy := (153 * mp + 2) / 5 + d - 1 in
  0 ≤ doy < 365 + (if is_leap (yoe + 1) then 1 else 0) ∧
  (5 * doy + 2) / 153 = mp ∧
  doy - (153 * ((5 * doy + 2) / 153) + 2) / 5 + 1 = d.
Proof.
  intros Hm Hd doy. subst doy. unfold era_month_days in Hd.
  assert (Hcase : mp = 0 ∨ mp = 1 ∨ mp = 2 ∨ mp = 3 ∨ mp = 4 ∨ mp = 5
                  ∨ mp = 6 ∨ mp = 7 ∨ mp = 8 ∨ mp = 9 ∨ mp = 10 ∨ mp = 11)
    by lia.
  destruct Hcase as [->|[->|[->|[->|[->|[->|[->|[->|[->|[->|[->| ->]]]]]]]]]]];
    simpl in Hd; destruct (is_leap (yoe + 1));
    repeat split; Z.div_mod_to_equations; lia.
Qed.

Lemma era_date_day yoe mp d :
  0 ≤ yoe < 400 → 0 ≤ mp < 12 → 1 ≤ d ≤ era_month_days yoe mp →
  0 ≤ era_day yoe mp d < 146097 ∧ era_date (era_day yoe mp d) = (yoe, mp, d).
Proof.
  intros Hy Hm Hd.
  destruct (era_month_of_day yoe mp d Hm Hd) as ([Hd0 Hd1] & Hmp & Hday).
  destruct (era_year_of_day yoe _ Hy Hd0 Hd1) as [Hdoe Hyoe].
  cbv zeta in *. unfold era_day, era_date.
  replace (yoe * 365 + yoe / 4 - yoe / 100 + (153 * mp + 2) / 5 + d - 1)
    with (yoe * 365 + yoe / 4 - yoe / 100 + ((153 * mp + 2) / 5 + d - 1))
    by lia.
  split; [done|]. cbv zeta. rewrite Hyoe.
  replace (yoe * 365 + yoe / 4 - yoe / 100 + ((153 * mp + 2) / 5 + d - 1)
           - (365 * yoe + yoe / 4 - yoe / 100))
    with ((153 * mp + 2) / 5 + d - 1) by lia.
  by rewrite Hday, Hmp.
Qed.

Lemma is_leap_era y k : is_leap (y + 400 * k) = is_leap y.
Proof.
  unfold is_leap.
  replace ((y + 400 * k) mod 4) with (y mod 4)
    by (replace (400 * k) with (100 * k * 4) by lia; by rewrite Z.mod_add).
  replace ((y + 400 * k) mod 100) with (y mod 100)
    by (replace (400 * k) with (4 * k * 100) by lia; by rewrite Z.mod_add).
  replace ((y + 400 * k) mod 400) with (y mod 400)
    by (replace (400 * k) with (k * 400) by lia; by rewrite Z.mod_add).
  done.
Qed.

(** The day number and the date are inverse to each other on the dates of
    the calendar. *)
Lemma civil_from_days_from_civil y m d :
  1 ≤ m ≤ 12 → 1 ≤ d ≤ days_in_month y m →
  civil_from_days (days_from_civil y m d) = (y, m, d).
Proof.
  intros Hm Hd. unfold days_from_civil, civil_from_days.
  remember (if m <=? 2 then y - 1 else y) as y' eqn:Hy'.
  remember (y' / 400) as era eqn:Hera.
  remember (if 2 <? m then m - 3 else m + 9) as mp eqn:Hmp'.
  remember (y' - era * 400) as yoe eqn:Hyoe'.
  assert (Hyoe : 0 ≤ yoe < 400).
  { pose proof (Z.mod_pos_bound y' 400 ltac:(lia)) as Hb.
    rewrite Z.mod_eq in Hb by lia. subst yoe era. lia. }
  assert (Hmp : 0 ≤ mp < 12) by (subst mp; destruct (2 <? m) eqn:E; lia).
  assert (Hdim : era_month_days yoe mp = days_in_month y m).
  { unfold era_month_days, days_in_month.
    assert (Hcase : m = 1 ∨ m = 2 ∨ m = 3 ∨ m = 4 ∨ m = 5 ∨ m = 6 ∨ m = 7
                    ∨ m = 8 ∨ m = 9 ∨ m = 10 ∨ m = 11 ∨ m = 12) by lia.
    destruct Hcase as [->|[->|[->|[->|[->|[->|[->|[->|[->|[->|[->| ->]]]]]]]]]]];
      subst mp; simpl in *; try done.
    replace (yoe + 1) with (y + 400 * (- era)); [by rewrite is_leap_era|].
    subst yoe y'. lia. }
  destruct (era_date_day yoe mp d Hyoe Hmp) as [Hdoe Hdate]; [lia|].
  replace (era * 146097 + era_day yoe mp d - 719468 + 719468)
    with (era_day yoe mp d + era * 146097) by lia.
  rewrite Z.div_add, (Z.div_small _ 146097), Z.add_0_l by lia.
  replace (era_day yoe mp d + era * 146097 - era * 146097)
    with (era_day yoe mp d) by lia.
  rewrite Hdate.
  assert (Hm' : (if mp <? 10 then mp + 3 else mp - 9) = m).
  { subst mp. destruct (2 <? m) eqn:E1.
    - destruct (m - 3 <? 10) eqn:E2; lia.
    - destruct (m + 9 <? 10) eqn:E2; lia. }
  rewrite Hm'. do 2 f_equal.
  subst yoe y'. destruct (m <=? 2) eqn:E; lia.
Qed.

(** The year and the month of an instant given by date and time of day. *)
Lemma year_month_timestamp_of y m d hh mm ss :
  1 ≤ m ≤ 12 → 1 ≤ d ≤ days_in_month y m →
  0 ≤ hh < 24 → 0 ≤ mm < 60 → 0 ≤ ss < 60 →
  year_month (timestamp_of y m d hh mm ss) = (y, m).
Proof.
  intros Hm Hd Hh Hmi Hs. unfold year_month, day_number, timestamp_of.
  assert (Hday : (days_from_civil y m d * ns_per_day
                  + ((hh * 60 + mm) * 60 + ss) * ns_per_second) / ns_per_day
                 = days_from_civil y m d).
  { unfold ns_per_day, ns_per_second.
    rewrite Z.add_comm, Z.div_add, Z.div_small by lia. lia. }
  rewrite Hday. by rewrite civil_from_days_from_civil.
Qed.

(** Weekdays repeat every seven days and advance by one from a day to the
    next. *)
Lemma weekday_index_next ns :
  weekday_index (ns + ns_per_day) = (weekday_index ns + 1) mod 7.
Proof.
  unfold weekday_index, day_number.
  replace (ns + ns_per_day) with (ns + 1 * ns_per_day) by lia.
  rewrite Z.div_add by done.
  rewrite Zplus_mod_idemp_l. f_equal. lia.
Qed.

Lemma weekday_index_range ns : 0 ≤ weekday_index ns < 7.
Proof. unfold weekday_index. apply Z.mod_pos_bound. lia. Qed.

Example weekday_anchor :
  day_name (timestamp_of 2024 1 1 20 0 0) = "Monday" ∧
  day_name (timestamp_of 1970 1 1 0 0 0) = "Thursday".
Proof. split; reflexivity. Qed.

(** ** The calendar of the statements

    The day number of a date is the days of the years before it, of the
    months before it, and of the month itself. *)

Lemma leap_year_is_leap y : leap_year y = is_leap y.
Proof. reflexivity. Qed.

Lemma days_from_civil_begin y m d :
  1 ≤ m ≤ 12 →
  days_from_civil y m d = year_begin y + days_before_month y m + d - 1.
Proof.
  intros Hm. unfold days_from_civil, era_day, year_begin, days_before_month,
    leap_year.
  assert (Hcase : m = 1 ∨ m = 2 ∨ m = 3 ∨ m = 4 ∨ m = 5 ∨ m = 6 ∨ m = 7
                  ∨ m = 8 ∨ m = 9 ∨ m = 10 ∨ m = 11 ∨ m = 12) by lia.
  destruct Hcase as [->|[->|[->|[->|[->|[->|[->|[->|[->|[->|[->| ->]]]]]]]]]]];
    cbn -[Z.div Z.modulo Z.mul Z.add Z.sub Z.eqb];
    repeat match goal with
           | |- context [Z.to_nat ?a] =>
               let v := eval vm_compute in (Z.to_nat a) in
               change (Z.to_nat a) with v
           end;
    repeat match goal with
           | |- context [?a =? 0] => destruct (Z.eqb_spec a 0)
           end;
    cbn -[Z.div Z.modulo Z.mul Z.add Z.sub];
    Z.div_mod_to_equations; lia.
Qed.

Lemma year_begin_next y :
  year_begin (y + 1) = year_begin y + 365 + (if leap_year y then 1 else 0).
Proof.
  unfold year_begin, leap_year.
  replace (y + 1 - 1) with y by lia.
  repeat match goal with
         | |- context [?a =? 0] => destruct (Z.eqb_spec a 0)
         end;
    cbn -[Z.div Z.modulo Z.mul Z.add Z.sub];
    Z.div_mod_to_equations; lia.
Qed.

Lemma days_before_month_next y m :
  1 ≤ m < 12 →
  days_before_month y (m + 1) = days_before_month y m + days_in_month y m.
Proof.
  intros Hm. unfold days_before_month, days_in_month.
  change (is_leap y) with (leap_year y).
  assert (Hcase : m = 1 ∨ m = 2 ∨ m = 3 ∨ m = 4 ∨ m = 5 ∨ m = 6 ∨ m = 7
                  ∨ m = 8 ∨ m = 9 ∨ m = 10 ∨ m = 11) by lia.
  destruct Hcase as [->|[->|[->|[->|[->|[->|[->|[->|[->|[->| ->]]]]]]]]]];
    destruct (leap_year y); reflexivity.
Qed.

Lemma days_before_december y :
  days_before_month y 12 + 31 = 365 + (if leap_year y then 1 else 0).
Proof. unfold days_before_month. destruct (leap_year y); reflexivity. Qed.

Lemma month_end_begin y m :
  1 ≤ m ≤ 12 →
  month_end y m = month_begin y m + days_in_month y m * 86400000000000.
Proof.
  intros Hm. unfold month_end, month_begin.
  destruct (Z.eqb_spec m 12) as [->|Hne].
  - rewrite year_begin_next.
    pose proof (days_before_december y) as H.
    change (days_before_month (y + 1) 1) with 0.
    change (days_in_month y 12) with 31. lia.
  - rewrite days_before_month_next by lia. lia.
Qed.

Lemma year_month_in_month y m s :
  1 ≤ m ≤ 12 → month_begin y m ≤ s < month_end y m →
  year_month s = (y, m).
Proof.
  intros Hm Hs. rewrite (month_end_begin y m Hm) in Hs.
  unfold month_begin in Hs.
  set (B := year_begin y + days_before_month y m) in *.
  unfold year_month, day_number, ns_per_day, ns_per_second.
  change (86400 * 1000000000) with 86400000000000.
  set (z := s / 86400000000000).
  assert (Hz : B ≤ z < B + days_in_month y m).
  { subst z. split.
    - apply Z.div_le_lower_bound; lia.
    - apply Z.div_lt_upper_bound; lia. }
  assert (Hd : z = days_from_civil y m (z - B + 1)).
  { rewrite days_from_civil_begin by done. subst B. lia. }
  rewrite Hd, civil_from_days_from_civil; [done|done|lia].
Qed.

Lemma day_name_weekday_of s : day_name s = weekday_of s.
Proof.
  unfold day_name, weekday_of, weekday_index, day_number, ns_per_day,
    ns_per_second, weekday_names.
  change (86400 * 1000000000) with 86400000000000.
  pose proof (Z.mod_pos_bound (s / 86400000000000 + 3) 7 ltac:(lia)) as Hr.
  set (i := (s / 86400000000000 + 3) mod 7) in *.
  assert (Hcase : i = 0 ∨ i = 1 ∨ i = 2 ∨ i = 3 ∨ i = 4 ∨ i = 5 ∨ i = 6) by lia.
  destruct Hcase as [->|[->|[->|[->|[->|[->| ->]]]]]]; reflexivity.
Qed.

(** ** Normalisation: the run on the heap *)

Lemma load_item_run (h : heap) l d c :
  h !! l = Some d → load_item l c h = (getitem d c, h).
Proof. intros Hl. unfold load_item, frame_of, mbind, St_bind. by rewrite Hl. Qed.

Lemma store_item_run (h : heap) l d c s :
  h !! l = Some d → store_item l c s h = (Ok (), <[l := setitem d c s]> h).
Proof. intros Hl. unfold store_item. by rewrite Hl. Qed.

Lemma bind_run {A B} (m : St A) (f : A → St B) (h : heap) :
  (m ≫= f) h
  = match m h with
    | (Ok a, h') => f a h'
    | (Raise e, h') => (Raise e, h')
    end.
Proof. done. Qed.

Lemma normalize_log_df_run parse (h : heap) l df :
  h !! l = Some df →
  ∃ res h', normalize_log_df parse l h = (res, h') ∧
    res = (normalize_log_frame parse df ≫= λ _, Ok l) ∧
    (∀ df', normalize_log_frame parse df = Ok df' → h' = <[l := df']> h) ∧
    (∀ k, k ≠ l → h' !! k = h !! k).
Proof.
  intros Hl. unfold normalize_log_df, normalize_log_frame.
  rewrite bind_run. unfold load_columns at 1, frame_of.
  rewrite bind_run, Hl. simpl.
  rewrite bind_run. unfold store_columns at 1. rewrite Hl.
  rewrite decide_True by by rewrite length_map.
  set (d1 := {| columns := map strip (columns df); rows := rows df |}).
  assert (H1 : <[l := d1]> h !! l = Some d1) by apply lookup_insert_eq.
  rewrite bind_run, (load_item_run _ l d1 _ H1).
  destruct (getitem d1 "Full Start") as [s1|e1]; simpl.
  2:{ eexists _, _. split; [done|]. split; [done|]. split; [done|].
      intros k Hk. by apply lookup_insert_ne. }
  rewrite bind_run, (store_item_run _ l d1 _ _ H1), insert_insert_eq.
  set (d2 := setitem d1 _ _).
  assert (H2 : <[l := d2]> h !! l = Some d2) by apply lookup_insert_eq.
  rewrite bind_run, (load_item_run _ l d2 _ H2).
  destruct (getitem d2 "Full End") as [s2|e2]; simpl.
  2:{ eexists _, _. split; [done|]. split; [done|]. split; [done|].
      intros k Hk. by apply lookup_insert_ne. }
  rewrite bind_run, (store_item_run _ l d2 _ _ H2), insert_insert_eq.
  set (d3 := setitem d2 _ _).
  assert (H3 : <[l := d3]> h !! l = Some d3) by apply lookup_insert_eq.
  rewrite bind_run, (load_item_run _ l d3 _ H3).
  destruct (getitem d3 "Full End") as [s3|e3]; simpl.
  2:{ eexists _, _. split; [done|]. split; [done|]. split; [done|].
      intros k Hk. by apply lookup_insert_ne. }
  rewrite bind_run, (load_item_run _ l d3 _ H3).
  destruct (getitem d3 "Full Start") as [s4|e4]; simpl.
  2:{ eexists _, _. split; [done|]. split; [done|]. split; [done|].
      intros k Hk. by apply lookup_insert_ne. }
  rewrite bind_run, (store_item_run _ l d3 _ _ H3), insert_insert_eq.
  set (d4 := setitem d3 _ _).
  assert (H4 : <[l := d4]> h !! l = Some d4) by apply lookup_insert_eq.
  rewrite bind_run, (load_item_run _ l d4 _ H4).
  destruct (getitem d4 "Full Start") as [s5|e5]; simpl.
  2:{ eexists _, _. split; [done|]. split; [done|]. split; [done|].
      intros k Hk. by apply lookup_insert_ne. }
  rewrite bind_run, (store_item_run _ l d4 _ _ H4), insert_insert_eq.
  set (d5 := setitem d4 _ _).
  assert (H5 : <[l := d5]> h !! l = Some d5) by apply lookup_insert_eq.
  rewrite bind_run, (load_item_run _ l d5 _ H5).
  destruct (getitem d5 "Full Start") as [s6|e6]; simpl.
  2:{ eexists _, _. split; [done|]. split; [done|]. split; [done|].
      intros k Hk. by apply lookup_insert_ne. }
  rewrite bind_run, (store_item_run _ l d5 _ _ H5), insert_insert_eq.
  simpl. eexists _, _. split; [done|]. split; [done|]. split.
  - by intros df' [= <-].
  - intros k Hk. by apply lookup_insert_ne.
Qed.

(** ** Normalisation: rows *)

Lemma positions_app c l1 l2 i :
  positions c (l1 ++ l2) i
  = positions c l1 i ++ positions c l2 (i + length l1).
Proof.
  revert i. induction l1 as [|c' l1 IH]; intros i; simpl.
  { by rewrite Nat.add_0_r. }
  rewrite IH. replace (S i + length l1)%nat with (i + S (length l1))%nat by lia.
  by case_decide.
Qed.

Lemma positions_lt c cols i j :
  j ∈ positions c cols i → (j < i + length cols)%nat ∧ cols !! (j - i)%nat = Some c.
Proof.
  intros H. apply elem_of_positions in H as [Hle Hl]. split; [|done].
  apply lookup_lt_Some in Hl. lia.
Qed.

Lemma positions_cols_after c c' cols :
  c' ≠ c → positions c' (cols_after c cols) 0 = positions c' cols 0.
Proof.
  intros Hne. unfold cols_after. case_decide; [done|].
  rewrite positions_app. simpl. rewrite decide_False by done.
  by rewrite app_nil_r.
Qed.

Lemma positions_cols_after_elem c cols :
  c ∈ cols → cols_after c cols = cols.
Proof. intros H. unfold cols_after. by rewrite decide_True. Qed.

Lemma row_overwrite_length c v cols r :
  length (row_overwrite c v cols r) = length r.
Proof.
  revert r. induction cols as [|c' cols IH]; intros [|x r]; simpl; try done.
  by rewrite IH.
Qed.

Lemma cell_at_row_overwrite c v cols r i c' :
  length r = length cols → cols !! i = Some c' →
  cell_at (row_overwrite c v cols r) i
  = if decide (c' = c) then v else cell_at r i.
Proof.
  revert r i. induction cols as [|c0 cols IH]; intros [|x r] i Hlen Hi;
    simpl in *; try done.
  destruct i as [|i]; simpl in *.
  - injection Hi as ->. unfold cell_at. simpl. by case_decide.
  - unfold cell_at in *. simpl. apply IH; [lia|done].
Qed.

Lemma row_set_length c v cols r :
  length r = length cols →
  length (row_set c v cols r) = length (cols_after c cols).
Proof.
  intros Hlen. unfold row_set, cols_after. case_decide.
  - by rewrite row_overwrite_length.
  - rewrite !length_app. simpl. lia.
Qed.

Lemma row_get_row_set c v cols r c' :
  length r = length cols →
  row_get (cols_after c cols) (row_set c v cols r) c'
  = if decide (c' = c) then v else row_get cols r c'.
Proof.
  intros Hlen. unfold row_get, row_set, cols_after.
  destruct (decide (c ∈ cols)) as [Hin|Hin].
  - destruct (positions c' cols 0) as [|i ps] eqn:Hp.
    + case_decide as Hc; [|done]. subst. apply positions_nil in Hp. done.
    + assert (Hi : i ∈ positions c' cols 0) by (rewrite Hp; left).
      apply positions_lt in Hi as [_ Hi]. rewrite Nat.sub_0_r in Hi.
      by rewrite (cell_at_row_overwrite c v cols r i c').
  - rewrite positions_app. simpl. case_decide as Hc.
    + subst c'. rewrite decide_True by done.
      apply (positions_nil c cols 0%nat) in Hin. rewrite Hin. simpl.
      unfold cell_at. rewrite <- Hlen.
      by rewrite lookup_app_r, Nat.sub_diag by lia.
    + rewrite decide_False by done. rewrite app_nil_r.
      destruct (positions c' cols 0) as [|i ps] eqn:Hp; [done|].
      assert (Hi : i ∈ positions c' cols 0) by (rewrite Hp; left).
      apply positions_lt in Hi as [Hi _]. unfold cell_at.
      by rewrite lookup_app_l by lia.
Qed.

Lemma zip_with_map_r {A B C} (f : A → B → C) (g : A → B) (l : list A) :
  zip_with f l (map g l) = map (λ x, f x (g x)) l.
Proof. induction l as [|x l IH]; simpl; [done|]. by rewrite IH. Qed.

Lemma setitem_derive c (g : list string → list cell → cell) df :
  setitem df c (map (g (columns df)) (rows df)) = derive c g df.
Proof. unfold setitem, derive, cols_after. by rewrite zip_with_map_r. Qed.

Lemma derive_wf c g df : wf_frame df → wf_frame (derive c g df).
Proof.
  unfold wf_frame, derive. simpl. rewrite !Forall_forall. intros H r' Hr'.
  apply list_elem_of_fmap in Hr' as (r & -> & Hr).
  apply row_set_length. by apply H.
Qed.

Lemma derive_rows c g df k :
  rows (derive c g df) !! k
  = (λ r, row_set c (g (columns df) r) (columns df) r) <$> rows df !! k.
Proof. unfold derive. simpl. apply list_lookup_fmap. Qed.

Lemma derive_has_column c g df c' :
  c' ≠ c ∨ c ∈ columns df →
  positions c' (columns (derive c g df)) 0 = positions c' (columns df) 0.
Proof.
  intros [Hne|Hin]; simpl.
  - by apply positions_cols_after.
  - by rewrite positions_cols_after_elem.
Qed.

Lemma duration_series {A} (f g : A → cell) (l : list A) :
  round_series 2
    (div_scalar (total_seconds (sub_datetime (map f l) (map g l))) 3600)
  = map (λ r, duration_cell (f r) (g r)) l.
Proof.
  induction l as [|x l IH]; [done|]. simpl in *. rewrite IH. f_equal.
  unfold duration_cell, sub_datetime_cell, hours_between.
  by destruct (f x), (g x).
Qed.

Lemma month_series {A} parse (f : A → cell) (l : list A) :
  to_period_M (to_datetime parse (map f l))
  = map (λ r, period_cell (to_datetime_cell parse (f r))) l.
Proof. unfold to_period_M, to_datetime. by rewrite !map_map. Qed.

Lemma weekday_series {A} parse (f : A → cell) (l : list A) :
  day_names (to_datetime parse (map f l))
  = map (λ r, day_name_cell (to_datetime_cell parse (f r))) l.
Proof. unfold day_names, to_datetime. by rewrite !map_map. Qed.

Lemma datetime_series {A} parse (f : A → cell) (l : list A) :
  to_datetime parse (map f l) = map (λ r, to_datetime_cell parse (f r)) l.
Proof. unfold to_datetime. by rewrite map_map. Qed.

Lemma bind_Ok {A B} (a : A) (f : A → result B) : (Ok a ≫= f) = f a.
Proof. done. Qed.

Lemma normalize_log_frame_normalized parse df iS iE :
  positions "Full Start" (map strip (columns df)) 0 = [iS] →
  positions "Full End" (map strip (columns df)) 0 = [iE] →
  normalize_log_frame parse df = Ok (normalized parse df).
Proof.
  intros HS HE. unfold normalize_log_frame, normalized.
  set (d1 := {| columns := map strip (columns df); rows := rows df |}).
  assert (HinS : "Full Start" ∈ columns d1).
  { destruct (decide ("Full Start" ∈ columns d1)) as [|Hn]; [done|].
    apply (positions_nil _ _ 0%nat) in Hn. simpl in Hn. congruence. }
  assert (HinE : "Full End" ∈ columns d1).
  { destruct (decide ("Full End" ∈ columns d1)) as [|Hn]; [done|].
    apply (positions_nil _ _ 0%nat) in Hn. simpl in Hn. congruence. }
  cbv zeta.
  rewrite (getitem_unique d1 "Full Start" iS HS), bind_Ok.
  rewrite datetime_series.
  rewrite (setitem_derive "Full Start"
             (λ cols r, to_datetime_cell parse (row_get cols r "Full Start")) d1).
  set (d2 := derive "Full Start" _ d1).
  assert (HS2 : positions "Full Start" (columns d2) 0 = [iS]).
  { unfold d2. rewrite derive_has_column; [done|by right]. }
  assert (HE2 : positions "Full End" (columns d2) 0 = [iE]).
  { unfold d2. rewrite derive_has_column; [done|by left]. }
  assert (HinE2 : "Full End" ∈ columns d2).
  { unfold d2. simpl. by rewrite positions_cols_after_elem. }
  rewrite (getitem_unique d2 "Full End" iE HE2), bind_Ok.
  rewrite datetime_series.
  rewrite (setitem_derive "Full End"
             (λ cols r, to_datetime_cell parse (row_get cols r "Full End")) d2).
  set (d3 := derive "Full End" _ d2).
  assert (HS3 : positions "Full Start" (columns d3) 0 = [iS]).
  { unfold d3. rewrite derive_has_column; [done|by left]. }
  assert (HE3 : positions "Full End" (columns d3) 0 = [iE]).
  { unfold d3. rewrite derive_has_column; [done|by right]. }
  rewrite (getitem_unique d3 "Full End" iE HE3), bind_Ok.
  rewrite (getitem_unique d3 "Full Start" iS HS3), bind_Ok.
  rewrite duration_series.
  rewrite (setitem_derive "duration_hours"
             (λ cols r, duration_cell (row_get cols r "Full End")
                                      (row_get cols r "Full Start")) d3).
  set (d4 := derive "duration_hours" _ d3).
  assert (HS4 : positions "Full Start" (columns d4) 0 = [iS]).
  { unfold d4. rewrite derive_has_column; [done|by left]. }
  rewrite (getitem_unique d4 "Full Start" iS HS4), bind_Ok.
  rewrite month_series.
  rewrite (setitem_derive "month"
             (λ cols r, period_cell
                          (to_datetime_cell parse (row_get cols r "Full Start")))
             d4).
  set (d5 := derive "month" _ d4).
  assert (HS5 : positions "Full Start" (columns d5) 0 = [iS]).
  { unfold d5. rewrite derive_has_column; [done|by left]. }
  rewrite (getitem_unique d5 "Full Start" iS HS5), bind_Ok.
  rewrite weekday_series.
  by rewrite (setitem_derive "weekday"
             (λ cols r, day_name_cell
                          (to_datetime_cell parse (row_get cols r "Full Start")))
             d5).
Qed.

Lemma derive_row_get c g df k r :
  wf_frame df → rows df !! k = Some r →
  ∃ r', rows (derive c g df) !! k = Some r' ∧
    ∀ c', row_get (columns (derive c g df)) r' c'
          = if decide (c' = c) then g (columns df) r
            else row_get (columns df) r c'.
Proof.
  intros Hwf Hr. rewrite derive_rows, Hr. simpl. eexists. split; [done|].
  intros c'. apply row_get_row_set.
  unfold wf_frame in Hwf. rewrite Forall_forall in Hwf. apply Hwf.
  by eapply list_elem_of_lookup_2.
Qed.

Lemma to_datetime_cell_idemp parse c :
  to_datetime_cell parse (to_datetime_cell parse c) = to_datetime_cell parse c.
Proof. destruct c; simpl; try done; by destruct (parse _). Qed.

(** Rounding to the nearest integer is off by at most one half. *)
Lemma round_half_even_bound (q : Q) :
  (inject_Z (round_half_even q) - q <= 1 # 2)%Q ∧
  (q - inject_Z (round_half_even q) <= 1 # 2)%Q.
Proof.
  unfold round_half_even.
  pose proof (Qfloor_le q) as Hlo. pose proof (Qlt_floor q) as Hhi.
  rewrite inject_Z_plus in Hhi. change (inject_Z 1) with 1%Q in Hhi.
  destruct (Qcompare_spec (q - inject_Z (Qfloor q)) (1 # 2)) as [He|Hl|Hg].
  - destruct (Z.even (Qfloor q)).
    + split; lra.
    + rewrite inject_Z_plus. change (inject_Z 1) with 1%Q. split; lra.
  - split; lra.
  - rewrite inject_Z_plus. change (inject_Z 1) with 1%Q. split; lra.
Qed.

(** [round(x, 2)] is a whole number of hundredths, at most half a hundredth
    away from [x]. *)
Lemma round_float_2 (x : Qc) :
  ∃ n : Z, round_float 2 x = (Qc_of_Z n / Qc_of_Z 100)%Qc ∧
    (Qc_of_Z (2 * n - 1) ≤ Qc_of_Z 200 * x)%Qc ∧
    (Qc_of_Z 200 * x ≤ Qc_of_Z (2 * n + 1))%Qc.
Proof.
  exists (round_half_even (x * pow10 2)%Qc). split; [done|].
  destruct (round_half_even_bound (x * pow10 2)%Qc) as [H1 H2].
  set (n := round_half_even (x * pow10 2)%Qc) in *.
  assert (Hy : ((x * pow10 2)%Qc == x * 100)%Q).
  { simpl. by rewrite Qred_correct. }
  rewrite Hy in H1, H2.
  unfold Qcle. simpl. rewrite !Qred_correct.
  unfold Z.sub. rewrite !inject_Z_plus, !inject_Z_mult.
  change (inject_Z 200) with 200%Q. change (inject_Z 2) with 2%Q.
  change (inject_Z 1) with 1%Q. change (inject_Z (- (1))) with (-1)%Q.
  split; lra.
Qed.

Lemma stripped_wf df : wf_frame df → wf_frame (stripped df).
Proof.
  unfold wf_frame, stripped. simpl. by rewrite length_map.
Qed.

(** The cells of a normalised row, column by column. *)
Lemma normalized_row parse df k r :
  wf_frame df → rows df !! k = Some r →
  ∃ r', rows (normalized parse df) !! k = Some r' ∧
    let cols := map strip (columns df) in
    let cols' := columns (normalized parse df) in
    let start := to_datetime_cell parse (row_get cols r "Full Start") in
    let end_ := to_datetime_cell parse (row_get cols r "Full End") in
    row_get cols' r' "Full Start" = start ∧
    row_get cols' r' "Full End" = end_ ∧
    row_get cols' r' "duration_hours" = duration_cell end_ start ∧
    row_get cols' r' "month" = period_cell start ∧
    row_get cols' r' "weekday" = day_name_cell start.
Proof.
  intros Hwf Hr. unfold normalized. fold (stripped df).
  pose proof (stripped_wf df Hwf) as Hwf1.
  assert (Hr1 : rows (stripped df) !! k = Some r) by done.
  set (gS := λ cols r, to_datetime_cell parse (row_get cols r "Full Start")).
  set (gE := λ cols r, to_datetime_cell parse (row_get cols r "Full End")).
  set (gD := λ cols r, duration_cell (row_get cols r "Full End")
                                     (row_get cols r "Full Start")).
  set (gM := λ cols r, period_cell (gS cols r)).
  set (gW := λ cols r, day_name_cell (gS cols r)).
  destruct (derive_row_get "Full Start" gS _ k r Hwf1 Hr1) as (r2 & Hr2 & G2).
  pose proof (derive_wf "Full Start" gS _ Hwf1) as Hwf2.
  destruct (derive_row_get "Full End" gE _ k r2 Hwf2 Hr2) as (r3 & Hr3 & G3).
  pose proof (derive_wf "Full End" gE _ Hwf2) as Hwf3.
  destruct (derive_row_get "duration_hours" gD _ k r3 Hwf3 Hr3)
    as (r4 & Hr4 & G4).
  pose proof (derive_wf "duration_hours" gD _ Hwf3) as Hwf4.
  destruct (derive_row_get "month" gM _ k r4 Hwf4 Hr4) as (r5 & Hr5 & G5).
  pose proof (derive_wf "month" gM _ Hwf4) as Hwf5.
  destruct (derive_row_get "weekday" gW _ k r5 Hwf5 Hr5) as (r6 & Hr6 & G6).
  exists r6. split; [done|]. cbv zeta.
  assert (ES : row_get (columns (derive "Full End" gE
                 (derive "Full Start" gS (stripped df)))) r3 "Full Start"
               = gS (map strip (columns df)) r).
  { rewrite G3, decide_False by done. by rewrite G2, decide_True. }
  assert (EE : row_get (columns (derive "Full End" gE
                 (derive "Full Start" gS (stripped df)))) r3 "Full End"
               = gE (map strip (columns df)) r).
  { rewrite G3, decide_True by done. unfold gE at 1.
    by rewrite G2, decide_False. }
  repeat split.
  - rewrite G6, decide_False by done. rewrite G5, decide_False by done.
    by rewrite G4, decide_False.
  - rewrite G6, decide_False by done. rewrite G5, decide_False by done.
    by rewrite G4, decide_False.
  - rewrite G6, decide_False by done. rewrite G5, decide_False by done.
    rewrite G4, decide_True by done. unfold gD. by rewrite ES, EE.
  - rewrite G6, decide_False by done. rewrite G5, decide_True by done.
    unfold gM, gS at 1. rewrite G4, decide_False by done.
    rewrite ES. unfold gS. by rewrite to_datetime_cell_idemp.
  - rewrite G6, decide_True by done. unfold gW, gS at 1.
    rewrite G5, decide_False by done. rewrite G4, decide_False by done.
    rewrite ES. unfold gS. by rewrite to_datetime_cell_idemp.
Qed.

(** C1. When the stripped labels name one [Full Start] and one [Full End]
    column, normalisation completes, whatever the cells hold, and keeps the
    number of rows.  In a row whose two timestamps parse, [duration_hours]
    is the time from start to end in hours rounded to two decimals: a whole
    number of hundredths of an hour, at most half a hundredth away from the
    exact time.  In a row whose start parses, [month] is the calendar month
    the start falls in and [weekday] is the English name of its day of the
    week.  In a row where either timestamp does not parse [duration_hours]
    is missing, and where the start does not parse [month] and [weekday]
    are missing too. *)
Theorem normalize_log_rows (parse : cell → option Z) (h : heap) (l : loc)
    (df : DataFrame) :
  h !! l = Some df →
  wf_frame df →
  has_column (stripped df) "Full Start" →
  has_column (stripped df) "Full End" →
  ∃ out, normalize_log_df parse l h = (Ok l, <[l := out]> h) ∧
    length (rows out) = length (rows df) ∧
    ∀ k r, rows df !! k = Some r →
      ∃ r', rows out !! k = Some r' ∧
        let cols := map strip (columns df) in
        let start := to_datetime_cell parse (row_get cols r "Full Start") in
        let end_ := to_datetime_cell parse (row_get cols r "Full End") in
        row_get (columns out) r' "Full Start" = start ∧
        row_get (columns out) r' "Full End" = end_ ∧
        (∀ s e, start = Ts s → end_ = Ts e →
           ∃ n : Z,
             row_get (columns out) r' "duration_hours"
             = Num (Qc_of_Z n / Qc_of_Z 100)%Qc ∧
             (Qc_of_Z (2 * n - 1) ≤ Qc_of_Z 200 * hours_between s e)%Qc ∧
             (Qc_of_Z 200 * hours_between s e ≤ Qc_of_Z (2 * n + 1))%Qc) ∧
        (∀ s, start = Ts s →
           row_get (columns out) r' "weekday" = Str (weekday_of s) ∧
           ∀ y m, 1 ≤ m ≤ 12 → month_begin y m ≤ s < month_end y m →
             row_get (columns out) r' "month" = Per y m) ∧
        (start = NA ∨ end_ = NA →
           row_get (columns out) r' "duration_hours" = NA) ∧
        (start = NA →
           row_get (columns out) r' "month" = NA ∧
           row_get (columns out) r' "weekday" = NA).
Proof.
  intros Hl Hwf [iS HS] [iE HE].
  pose proof (normalize_log_frame_normalized parse df iS iE HS HE) as Hf.
  destruct (normalize_log_df_run parse h l df Hl)
    as (res & h' & Hrun & Hres & Hh' & _).
  exists (normalized parse df). split.
  { rewrite Hrun, Hres, Hf, (Hh' _ Hf). done. }
  split.
  { unfold normalized, derive. simpl. by rewrite !length_map. }
  intros k r Hr.
  destruct (normalized_row parse df k r Hwf Hr)
    as (r' & Hr' & H1 & H2 & H3 & H4 & H5).
  exists r'. split; [done|]. cbv zeta in *.
  split; [done|]. split; [done|]. split; [|split; [|split]].
  - intros s e Hs He. rewrite Hs, He in *. simpl in *.
    destruct (round_float_2 (hours_between s e)) as (n & Hn & Hlo & Hhi).
    exists n. split; [|done]. rewrite H3. f_equal.
    rewrite <- Hn. done.
  - intros s Hs. rewrite Hs in *. split.
    + rewrite H5. unfold day_name_cell. by rewrite day_name_weekday_of.
    + intros y m Hm Hin. rewrite H4. unfold period_cell.
      by rewrite (year_month_in_month y m s Hm Hin).
  - intros [Hs|He]; rewrite H3.
    + rewrite Hs. unfold duration_cell.
      by destruct (to_datetime_cell parse (row_get _ r "Full End")).
    + by rewrite He.
  - intros Hs. rewrite Hs in *. done.
Qed.

(** Scenario A through the theorem: the session from 20:00 to 22:30 on
    1 January 2024 has 2.5 hours, month 2024-01 and weekday Monday, and
    the session whose start cannot be read has none of the three. *)
Lemma normalize_log_rows_witness :
  ∃ out r0 r1,
    normalize_log_df parse_iso_cell 1%positive heap_a
    = (Ok 1%positive, <[1%positive := out]> heap_a) ∧
    rows out !! 0%nat = Some r0 ∧ rows out !! 1%nat = Some r1 ∧
    row_get (columns out) r0 "duration_hours" = Num (Q2Qc (5 # 2)) ∧
    row_get (columns out) r0 "month" = Per 2024 1 ∧
    row_get (columns out) r0 "weekday" = Str "Monday" ∧
    row_get (columns out) r1 "duration_hours" = NA ∧
    row_get (columns out) r1 "month" = NA ∧
    row_get (columns out) r1 "weekday" = NA.
Proof.
  destruct (normalize_log_rows parse_iso_cell heap_a 1%positive log_a)
    as (out & Hrun & _ & Hrows).
  - reflexivity.
  - repeat constructor.
  - exists 1%nat. reflexivity.
  - exists 2%nat. reflexivity.
  - destruct (Hrows 0%nat _ eq_refl) as (r0 & Hr0 & _ & _ & Hd & Hs & _).
    destruct (Hrows 1%nat _ eq_refl) as (r1 & Hr1 & _ & _ & _ & _ & Hna & Hm).
    cbv zeta in *.
    destruct (Hd 1704139200000000000 1704148200000000000 eq_refl eq_refl)
      as (n & Hn & Hlo & Hhi).
    destruct (Hs 1704139200000000000 eq_refl) as [Hw Hmo].
    destruct (Hm eq_refl) as [Hm1 Hw1].
    assert (H500 : (Qc_of_Z 200
                    * hours_between 1704139200000000000 1704148200000000000
                    = Qc_of_Z 500)%Qc).
    { apply (bool_decide_unpack _). vm_compute. exact I. }
    rewrite H500 in Hlo, Hhi.
    apply (proj1 (Qc_of_Z_le _ _)) in Hlo.
    apply (proj1 (Qc_of_Z_le _ _)) in Hhi.
    assert (n = 250) as -> by lia.
    exists out, r0, r1. split; [exact Hrun|].
    split; [exact Hr0|]. split; [exact Hr1|].
    split.
    { rewrite Hn. f_equal. apply (bool_decide_unpack _). vm_compute. exact I. }
    split.
    { apply Hmo; [lia|]. vm_compute. split; [discriminate|reflexivity]. }
    split; [exact Hw|].
    split; [apply Hna; by left|]. split; [exact Hm1|exact Hw1].
Defined.

(** Scenario A, evaluated: two and a half hours, January 2024, a Monday;
    the row whose start does not parse has no duration, month or weekday. *)
Example normalize_log_scenario_a :
  normalized parse_iso_cell log_a
  = {| columns := ["GAME"; "Full Start"; "Full End"; "duration_hours";
                   "month"; "weekday"];
       rows := [[Str "Chrono Trigger"; Ts 1704139200000000000;
                 Ts 1704148200000000000; Num (Q2Qc (5 # 2)); Per 2024 1;
                 Str "Monday"];
                [Str "Tetris"; NA; Ts 1704234600000000000; NA; NA; NA]] |} ∧
  period_str 2024 1 = "2024-01".
Proof.
  split; [|reflexivity]. apply (bool_decide_unpack _). vm_compute. exact I.
Qed.

(** ** Normalisation works in place *)

Lemma elem_of_cols_after c c' cols :
  c' ∈ cols_after c cols ↔ c' ∈ cols ∨ c' = c.
Proof.
  unfold cols_after. case_decide as Hin.
  - split; [by left|]. by intros [?| ->].
  - rewrite elem_of_app, list_elem_of_singleton. done.
Qed.

Lemma getitem_Ok_has_column df c s : getitem df c = Ok s → has_column df c.
Proof.
  unfold getitem. destruct (positions c (columns df) 0) as [|i [|??]] eqn:E;
    try done. intros _. by exists i.
Qed.

Lemma normalize_log_frame_Ok parse df df' :
  normalize_log_frame parse df = Ok df' →
  df' = normalized parse df ∧
  has_column (stripped df) "Full Start" ∧ has_column (stripped df) "Full End".
Proof.
  intros H.
  assert (HS : has_column (stripped df) "Full Start").
  { unfold normalize_log_frame in H. fold (stripped df) in H.
    destruct (getitem (stripped df) "Full Start") as [s|] eqn:E; [|done].
    by eapply getitem_Ok_has_column. }
  assert (HE : has_column (stripped df) "Full End").
  { unfold normalize_log_frame in H. fold (stripped df) in H.
    destruct (getitem (stripped df) "Full Start") as [s|] eqn:E; [|done].
    simpl in H.
    destruct (getitem (setitem (stripped df) "Full Start" _) "Full End")
      as [e|] eqn:E2; [|done].
    apply getitem_Ok_has_column in E2 as [i Hi]. exists i.
    simpl in Hi. rewrite decide_True in Hi; [done|].
    by apply has_column_elem in HS. }
  split; [|done]. destruct HS as [iS HS], HE as [iE HE].
  rewrite (normalize_log_frame_normalized parse df iS iE HS HE) in H.
  by injection H.
Qed.

Lemma normalized_columns parse df c :
  has_column (stripped df) "Full Start" →
  has_column (stripped df) "Full End" →
  c ∈ columns (normalized parse df)
  ↔ c ∈ map strip (columns df) ∨ c ∈ ["duration_hours"; "month"; "weekday"].
Proof.
  intros HS%has_column_elem HE%has_column_elem. simpl in HS, HE.
  unfold normalized. simpl.
  rewrite !elem_of_cols_after, !elem_of_cons, elem_of_nil.
  split.
  - intros [[[[[?| ->]| ->]| ->]| ->]| ->]; auto.
  - intros [?|[->|[->|[->|[]]]]]; auto 10.
Qed.

(** C9 as stated fails: after the call the table that was passed in is no
    longer what it was; it has the new labels and columns. *)
Lemma normalize_log_df_copy_counterexample :
  ∃ h', normalize_log_df parse_iso_cell 1%positive heap_a
        = (Ok 1%positive, h') ∧
    heap_a !! 1%positive = Some log_a ∧
    h' !! 1%positive ≠ Some log_a ∧
    columns <$> h' !! 1%positive
    = Some ["GAME"; "Full Start"; "Full End"; "duration_hours"; "month";
            "weekday"].
Proof.
  destruct (normalize_log_df_run parse_iso_cell heap_a 1%positive log_a)
    as (res & h' & Hrun & Hres & Hh' & _); [reflexivity|].
  assert (Hf : normalize_log_frame parse_iso_cell log_a
               = Ok (normalized parse_iso_cell log_a)).
  { by apply (normalize_log_frame_normalized _ _ 1%nat 2%nat). }
  exists h'. rewrite Hrun, Hres, Hf, (Hh' _ Hf). split; [done|].
  split; [done|]. split.
  - rewrite lookup_insert_eq. intros H. discriminate H.
  - by rewrite lookup_insert_eq.
Qed.

(** C9, amended. Normalisation works in place: when it succeeds, it returns
    the reference it was given, and the table behind that reference now has
    the stripped labels and the derived [duration_hours], [month] and
    [weekday] columns; every other table is as it was. *)
Theorem normalize_log_df_in_place (parse : cell → option Z) (h h' : heap)
    (l l' : loc) (df : DataFrame) :
  h !! l = Some df →
  normalize_log_df parse l h = (Ok l', h') →
  l' = l ∧
  h' = <[l := normalized parse df]> h ∧
  (∀ k, k ≠ l → h' !! k = h !! k) ∧
  (∀ c, c ∈ columns (normalized parse df)
        ↔ c ∈ map strip (columns df)
          ∨ c ∈ ["duration_hours"; "month"; "weekday"]).
Proof.
  intros Hl Hrun.
  destruct (normalize_log_df_run parse h l df Hl)
    as (res & h2 & Hrun2 & Hres & Hh2 & Hother).
  rewrite Hrun in Hrun2. injection Hrun2 as <- <-.
  destruct (normalize_log_frame parse df) as [df'|] eqn:Hf; [|done].
  simpl in Hres. injection Hres as ->.
  destruct (normalize_log_frame_Ok parse df df' Hf) as (-> & HS & HE).
  split; [done|]. split; [by apply Hh2|]. split; [done|].
  intros c. by apply normalized_columns.
Qed.

Lemma normalize_log_df_in_place_witness :
  (1%positive = 1%positive) ∧
  <[1%positive := normalized parse_iso_cell log_a]> heap_a
  = <[1%positive := normalized parse_iso_cell log_a]> heap_a ∧
  (∀ k, k ≠ 1%positive →
        <[1%positive := normalized parse_iso_cell log_a]> heap_a !! k
        = heap_a !! k) ∧
  (∀ c, c ∈ columns (normalized parse_iso_cell log_a)
        ↔ c ∈ map strip (columns log_a)
          ∨ c ∈ ["duration_hours"; "month"; "weekday"]).
Proof.
  apply (normalize_log_df_in_place parse_iso_cell heap_a _ 1%positive
           1%positive log_a).
  - reflexivity.
  - vm_compute. reflexivity.
Defined.

(** * Further properties *)

(** ** Stripping labels *)

Lemma lstrip_clean s : starts_clean (lstrip s).
Proof.
  induction s as [|a s IH]; simpl; [done|].
  destruct (is_space a) eqn:E; [done|]. simpl. done.
Qed.

Lemma lstrip_id s : starts_clean s → lstrip s = s.
Proof. destruct s as [|a s]; simpl; [done|]. by intros ->. Qed.

Lemma rstrip_clean s : starts_clean s → starts_clean (rstrip s).
Proof.
  destruct s as [|a s]; simpl; [done|]. intros Ha.
  destruct (rstrip s); simpl; [by rewrite Ha|done].
Qed.

Lemma rstrip_idemp s : rstrip (rstrip s) = rstrip s.
Proof.
  induction s as [|a s IH]; simpl; [done|].
  destruct (rstrip s) as [|b t] eqn:E.
  - destruct (is_space a) eqn:Ha; simpl; [done|]. by rewrite Ha.
  - simpl in *. by rewrite IH.
Qed.

Lemma strip_idemp s : strip (strip s) = strip s.
Proof.
  unfold strip. rewrite (lstrip_id (rstrip (lstrip s))).
  - apply rstrip_idemp.
  - apply rstrip_clean, lstrip_clean.
Qed.

Lemma stripped_idemp df : stripped (stripped df) = stripped df.
Proof.
  unfold stripped. simpl. f_equal. rewrite map_map.
  apply map_ext. intros c. apply strip_idemp.
Qed.

Lemma normalize_register_df_run (h : gmap positive DataFrame) l df :
  h !! l = Some df →
  normalize_register_df l h = (Ok l, <[l := stripped df]> h).
Proof.
  intros Hl. unfold normalize_register_df.
  rewrite bind_run. unfold load_columns at 1, frame_of.
  rewrite bind_run, Hl. simpl.
  rewrite bind_run. unfold store_columns at 1. rewrite Hl.
  rewrite decide_True by by rewrite length_map. done.
Qed.

(** X1. The register is normalised in place: the call returns the
    reference it was given, and the table behind it has every label
    stripped of surrounding white space and its rows untouched.  Nothing is
    left to strip: a second call changes nothing.  (For a table that has
    columns: whether the string accessor works on a table without any
    depends on the version of pandas.) *)
Theorem normalize_register_df_in_place (h : gmap positive DataFrame)
    (l : positive) (df : DataFrame) :
  h !! l = Some df →
  columns df ≠ [] →
  normalize_register_df l h = (Ok l, <[l := stripped df]> h) ∧
  rows (stripped df) = rows df ∧
  Forall (λ c, strip c = c) (columns (stripped df)) ∧
  normalize_register_df l (<[l := stripped df]> h)
  = (Ok l, <[l := stripped df]> h).
Proof.
  intros Hl _. split; [by apply normalize_register_df_run|]. split; [done|].
  split.
  - apply Forall_forall. intros c Hc. simpl in Hc.
    apply list_elem_of_fmap in Hc as (c' & -> & _). apply strip_idemp.
  - rewrite (normalize_register_df_run _ l (stripped df))
      by apply lookup_insert_eq.
    by rewrite insert_insert_eq, stripped_idemp.
Qed.

Lemma normalize_register_df_in_place_witness :
  normalize_register_df 1%positive {[1%positive := reg_spaced]}
  = (Ok 1%positive,
     <[1%positive := stripped reg_spaced]> {[1%positive := reg_spaced]}) ∧
  columns (stripped reg_spaced) = ["Game"; "System"] ∧
  rows (stripped reg_spaced) = rows reg_spaced.
Proof.
  destruct (normalize_register_df_in_place {[1%positive := reg_spaced]}
              1%positive reg_spaced) as (H1 & H2 & _ & _).
  - reflexivity.
  - discriminate.
  - split; [exact H1|]. split; [reflexivity|exact H2].
Defined.

(** X2. A log without a [Full Start] column (after stripping) makes
    normalisation fail with the missing label, and so does a log without a
    [Full End] column.  The table that was passed in is changed all the
    same: in the first case its labels are stripped, in the second its
    [Full Start] column is converted to timestamps as well.  (For a table
    that has columns, as under X1.) *)
Theorem normalize_log_df_missing_column (parse : cell → option Z)
    (h : gmap positive DataFrame) (l : positive) (df : DataFrame) :
  h !! l = Some df →
  columns df ≠ [] →
  ("Full Start" ∉ map strip (columns df) →
   normalize_log_df parse l h
   = (Raise (KeyError "Full Start"), <[l := stripped df]> h)) ∧
  (has_column (stripped df) "Full Start" →
   "Full End" ∉ map strip (columns df) →
   normalize_log_df parse l h
   = (Raise (KeyError "Full End"),
      <[l := derive "Full Start"
               (λ cols r, to_datetime_cell parse (row_get cols r "Full Start"))
               (stripped df)]> h)).
Proof.
  intros Hl _.
  assert (Hpre : ∀ K : list cell → St positive,
    (cols ← load_columns l; store_columns l (map strip cols);;
     s ← load_item l "Full Start"; K s) h
    = match getitem (stripped df) "Full Start" with
      | Ok s => K s (<[l := stripped df]> h)
      | Raise e => (Raise e, <[l := stripped df]> h)
      end).
  { intros K. rewrite bind_run. unfold load_columns at 1, frame_of.
    rewrite bind_run, Hl. simpl.
    rewrite bind_run. unfold store_columns at 1. rewrite Hl.
    rewrite decide_True by by rewrite length_map.
    fold (stripped df).
    rewrite bind_run, (load_item_run _ l (stripped df))
      by apply lookup_insert_eq.
    by destruct (getitem (stripped df) "Full Start"). }
  split.
  - intros Hn. unfold normalize_log_df. rewrite Hpre.
    apply (positions_nil _ _ 0%nat) in Hn.
    unfold getitem. simpl. by rewrite Hn.
  - intros [i Hi] Hn. unfold normalize_log_df. rewrite Hpre.
    rewrite (getitem_unique (stripped df) "Full Start" i Hi).
    rewrite datetime_series.
    rewrite bind_run, (store_item_run _ l (stripped df))
      by apply lookup_insert_eq.
    rewrite insert_insert_eq.
    rewrite (setitem_derive "Full Start"
      (λ cols r, to_datetime_cell parse (row_get cols r "Full Start"))
      (stripped df)).
    set (d2 := derive _ _ _).
    rewrite bind_run, (load_item_run _ l d2) by apply lookup_insert_eq.
    assert (Hp : positions "Full End" (columns d2) 0 = []).
    { unfold d2. rewrite derive_has_column by by left.
      by apply positions_nil. }
    unfold getitem. by rewrite Hp.
Qed.

Lemma normalize_log_df_missing_column_witness :
  normalize_log_df parse_iso_cell 1%positive {[1%positive := log_no_start]}
  = (Raise (KeyError "Full Start"),
     <[1%positive := stripped log_no_start]> {[1%positive := log_no_start]}) ∧
  normalize_log_df parse_iso_cell 1%positive {[1%positive := log_no_end]}
  = (Raise (KeyError "Full End"),
     <[1%positive :=
         derive "Full Start"
           (λ cols r, to_datetime_cell parse_iso_cell
                        (row_get cols r "Full Start"))
           (stripped log_no_end)]> {[1%positive := log_no_end]}).
Proof.
  split.
  - apply (normalize_log_df_missing_column parse_iso_cell
             {[1%positive := log_no_start]} 1%positive log_no_start).
    + reflexivity.
    + discriminate.
    + apply (bool_decide_unpack _). vm_compute. exact I.
  - apply (normalize_log_df_missing_column parse_iso_cell
             {[1%positive := log_no_end]} 1%positive log_no_end).
    + reflexivity.
    + discriminate.
    + exists 1%nat. reflexivity.
    + apply (bool_decide_unpack _). vm_compute. exact I.
Defined.
(** ** Normalisation leaves the other columns alone *)

Lemma normalized_row_other parse df k r c :
  wf_frame df → rows df !! k = Some r →
  c ∉ ["Full Start"; "Full End"; "duration_hours"; "month"; "weekday"] →
  ∃ r', rows (normalized parse df) !! k = Some r' ∧
    row_get (columns (normalized parse df)) r' c
    = row_get (map strip (columns df)) r c.
Proof.
  intros Hwf Hr Hc. unfold normalized. fold (stripped df).
  pose proof (stripped_wf df Hwf) as Hwf1.
  assert (Hr1 : rows (stripped df) !! k = Some r) by done.
  set (gS := λ cols r, to_datetime_cell parse (row_get cols r "Full Start")).
  set (gE := λ cols r, to_datetime_cell parse (row_get cols r "Full End")).
  set (gD := λ cols r, duration_cell (row_get cols r "Full End")
                                     (row_get cols r "Full Start")).
  set (gM := λ cols r, period_cell (gS cols r)).
  set (gW := λ cols r, day_name_cell (gS cols r)).
  destruct (derive_row_get "Full Start" gS _ k r Hwf1 Hr1) as (r2 & Hr2 & G2).
  pose proof (derive_wf "Full Start" gS _ Hwf1) as Hwf2.
  destruct (derive_row_get "Full End" gE _ k r2 Hwf2 Hr2) as (r3 & Hr3 & G3).
  pose proof (derive_wf "Full End" gE _ Hwf2) as Hwf3.
  destruct (derive_row_get "duration_hours" gD _ k r3 Hwf3 Hr3)
    as (r4 & Hr4 & G4).
  pose proof (derive_wf "duration_hours" gD _ Hwf3) as Hwf4.
  destruct (derive_row_get "month" gM _ k r4 Hwf4 Hr4) as (r5 & Hr5 & G5).
  pose proof (derive_wf "month" gM _ Hwf4) as Hwf5.
  destruct (derive_row_get "weekday" gW _ k r5 Hwf5 Hr5) as (r6 & Hr6 & G6).
  exists r6. split; [done|].
  rewrite !elem_of_cons, elem_of_nil in Hc.
  rewrite G6, decide_False by tauto. rewrite G5, decide_False by tauto.
  rewrite G4, decide_False by tauto. rewrite G3, decide_False by tauto.
  rewrite G2, decide_False by tauto. done.
Qed.

Lemma normalize_log_df_normalized parse (h : gmap positive DataFrame) l df :
  h !! l = Some df →
  has_column (stripped df) "Full Start" →
  has_column (stripped df) "Full End" →
  normalize_log_df parse l h = (Ok l, <[l := normalized parse df]> h).
Proof.
  intros Hl [iS HS] [iE HE].
  pose proof (normalize_log_frame_normalized parse df iS iE HS HE) as Hf.
  destruct (normalize_log_df_run parse h l df Hl)
    as (res & h' & Hrun & Hres & Hh' & _).
  by rewrite Hrun, Hres, Hf, (Hh' _ Hf).
Qed.

(** X3. Normalisation touches the two timestamp columns and the three derived
    columns only: under every other label each row keeps the cell it had,
    the session's game among them. *)
Theorem normalize_log_df_keeps_columns (parse : cell → option Z)
    (h : gmap positive DataFrame) (l : positive) (df : DataFrame) :
  h !! l = Some df →
  wf_frame df →
  has_column (stripped df) "Full Start" →
  has_column (stripped df) "Full End" →
  ∃ out, normalize_log_df parse l h = (Ok l, <[l := out]> h) ∧
    ∀ k r c, rows df !! k = Some r →
      c ∉ ["Full Start"; "Full End"; "duration_hours"; "month"; "weekday"] →
      ∃ r', rows out !! k = Some r' ∧
        row_get (columns out) r' c = row_get (map strip (columns df)) r c.
Proof.
  intros Hl Hwf HS HE. exists (normalized parse df).
  split; [by apply normalize_log_df_normalized|].
  intros k r c Hr Hc. by apply normalized_row_other.
Qed.

Lemma normalize_log_df_keeps_columns_witness :
  ∃ out, normalize_log_df parse_iso_cell 1%positive heap_a
         = (Ok 1%positive, <[1%positive := out]> heap_a) ∧
    ∃ r', rows out !! 0%nat = Some r' ∧
      row_get (columns out) r' "GAME" = Str "Chrono Trigger".
Proof.
  destruct (normalize_log_df_keeps_columns parse_iso_cell heap_a 1%positive
              log_a) as (out & Hrun & Hrows).
  - reflexivity.
  - repeat constructor.
  - exists 1%nat. reflexivity.
  - exists 2%nat. reflexivity.
  - exists out. split; [exact Hrun|].
    apply (Hrows 0%nat [Str "Chrono Trigger"; Str "2024-01-01T20:00:00";
                        Str "2024-01-01T22:30:00"] "GAME").
    + reflexivity.
    + apply (bool_decide_unpack _). vm_compute. exact I.
Defined.
(** ** The join: errors, shape and pass-through *)

Lemma positions_shift c cols i : positions c cols (S i) = S <$> positions c cols i.
Proof.
  revert i. induction cols as [|c' cols IH]; intros i; simpl; [done|].
  rewrite IH. by case_decide.
Qed.

Lemma row_get_nil cols c : row_get cols [] c = NA.
Proof. unfold row_get. by destruct (positions c cols 0). Qed.

Lemma row_get_cons c0 cols x r c :
  row_get (c0 :: cols) (x :: r) c
  = if decide (c0 = c) then x else row_get cols r c.
Proof.
  unfold row_get. simpl. case_decide; [done|].
  rewrite positions_shift. by destruct (positions c cols 0).
Qed.

Lemma row_get_absent cols r c : c ∉ cols → row_get cols r c = NA.
Proof.
  intros H. apply (positions_nil c cols 0%nat) in H. unfold row_get.
  by rewrite H.
Qed.

Lemma row_get_app_l cols1 cols2 r1 r2 c :
  c ∈ cols1 → length r1 = length cols1 →
  row_get (cols1 ++ cols2) (r1 ++ r2) c = row_get cols1 r1 c.
Proof.
  revert r1. induction cols1 as [|c0 cols1 IH]; intros r1 Hin Hlen.
  { by apply elem_of_nil in Hin. }
  destruct r1 as [|x r1]; [done|]. simpl in *.
  rewrite !row_get_cons. case_decide; [done|].
  apply elem_of_cons in Hin as [->|Hin]; [done|]. apply IH; [done|lia].
Qed.

Lemma row_get_app_r cols1 cols2 r1 r2 c :
  c ∉ cols1 → length r1 = length cols1 →
  row_get (cols1 ++ cols2) (r1 ++ r2) c = row_get cols2 r2 c.
Proof.
  revert r1. induction cols1 as [|c0 cols1 IH]; intros r1 Hin Hlen.
  { by destruct r1. }
  destruct r1 as [|x r1]; [done|]. simpl in *.
  rewrite row_get_cons. apply not_elem_of_cons in Hin as [Hne Hin].
  rewrite decide_False by done. apply IH; [done|lia].
Qed.

Lemma row_get_delete cols r c j :
  cols !! j ≠ Some c →
  row_get (delete j cols) (delete j r) c = row_get cols r c.
Proof.
  revert r j. induction cols as [|c0 cols IH]; intros r j Hj.
  { by destruct j. }
  destruct r as [|x r].
  { destruct j; simpl; by rewrite !row_get_nil. }
  destruct j as [|j]; simpl in *.
  - rewrite row_get_cons. rewrite decide_False; [done|]. by intros ->.
  - rewrite !row_get_cons. case_decide; [done|]. by apply IH.
Qed.
Lemma pd_merge_Ok km left right lk rk out :
  pd_merge km left right lk rk = Ok out →
  has_column left lk ∧ has_column right rk.
Proof.
  unfold pd_merge, has_column.
  destruct (positions rk (columns right) 0) as [|j [|??]]; try done.
  destruct (positions lk (columns left) 0) as [|i [|??]]; try done.
  intros _. split; by eexists.
Qed.

Lemma merge_data_Ok km log_df reg_df out :
  merge_data km log_df reg_df = Ok out →
  has_column log_df (spec_join_key log_df reg_df).1
  ∧ has_column reg_df (spec_join_key log_df reg_df).2.
Proof. rewrite merge_data_spec_key. apply pd_merge_Ok. Qed.

(** The table of a merge that went through. *)
Lemma merge_data_Ok_frame km log_df reg_df out :
  let keys := spec_join_key log_df reg_df in
  merge_data km log_df reg_df = Ok out →
  out = {| columns :=
             suffix_overlap "_x" (catalog_labels keys reg_df) (columns log_df)
             ++ suffix_overlap "_y" (columns log_df)
                  (catalog_labels keys reg_df);
           rows := mjoin (map (fan_out keys log_df reg_df) (rows log_df)) |}.
Proof.
  intros keys Hout. destruct (merge_data_Ok _ _ _ _ Hout) as [Hl Hr].
  rewrite merge_data_spec_key in Hout. fold keys in Hout, Hl, Hr.
  rewrite (pd_merge_run km _ _ _ _ Hl Hr) in Hout.
  assert (Hk : (keys.1, keys.2) = keys) by by destruct keys.
  rewrite Hk in Hout.
  destruct (km _ _); [|done]. destruct (_ ++ _); [|done].
  by injection Hout as <-.
Qed.

(** A list of labels none of which was renamed has no collision. *)
Lemma suffix_dups_same labels : suffix_dups labels labels = [].
Proof.
  unfold suffix_dups. rewrite filter_none; [done|].
  intros [i [c c']] Hin [H1 H2]. simpl in *.
  apply elem_of_lookup_imap in Hin as (i' & x & Hx & Hl). simplify_eq.
  apply lookup_zip_with_Some in Hl as (a & b & Hab & Ha & Hb). simplify_eq.
  done.
Qed.

Lemma suffix_overlap_length sfx other cols :
  length (suffix_overlap sfx other cols) = length cols.
Proof. unfold suffix_overlap. apply length_map. Qed.

Lemma suffix_overlap_disjoint sfx other cols :
  (∀ c, c ∈ cols → c ∉ other) → suffix_overlap sfx other cols = cols.
Proof.
  intros H. unfold suffix_overlap. induction cols as [|c cols IH]; [done|].
  simpl. rewrite decide_False by (apply H; left). f_equal.
  apply IH. intros c' Hc'. apply H. by right.
Qed.

Lemma catalog_part_length keys reg_df r :
  has_column reg_df keys.2 →
  length r = length (columns reg_df) →
  length (catalog_part keys reg_df r) = length (catalog_labels keys reg_df).
Proof.
  intros [j Hj] Hlen. unfold catalog_part, catalog_labels, key_position.
  rewrite Hj. simpl. case_decide; [|done].
  assert (Hin : j ∈ positions keys.2 (columns reg_df) 0) by (rewrite Hj; left).
  apply positions_lt in Hin as [Hlt _].
  rewrite !length_delete; [lia| |]; apply lookup_lt_is_Some; lia.
Qed.

Lemma catalog_width_labels keys reg_df :
  catalog_width keys reg_df = length (catalog_labels keys reg_df).
Proof. unfold catalog_width, catalog_labels. by case_decide. Qed.

(** X4. When both tables are rectangular, so is the merged table: every
    merged row has one cell per merged column, and the merged table has the
    columns of the log followed by those of the register, less the key
    column of the register when the join is on [UID]. *)
Theorem merge_data_rectangular (keys_mergeable : list cell → list cell → bool)
    (log_df reg_df out : DataFrame) :
  wf_frame log_df → wf_frame reg_df →
  merge_data keys_mergeable log_df reg_df = Ok out →
  wf_frame out ∧
  length (columns out)
  = (length (columns log_df)
     + catalog_width (spec_join_key log_df reg_df) reg_df)%nat.
Proof.
  intros Hwl Hwr Hout.
  destruct (merge_data_Ok _ _ _ _ Hout) as [Hl Hr].
  apply merge_data_Ok_frame in Hout as ->.
  set (keys := spec_join_key log_df reg_df) in *.
  assert (Hcols : length (suffix_overlap "_x" (catalog_labels keys reg_df)
                            (columns log_df)
                          ++ suffix_overlap "_y" (columns log_df)
                               (catalog_labels keys reg_df))
                  = (length (columns log_df)
                     + length (catalog_labels keys reg_df))%nat).
  { by rewrite length_app, !suffix_overlap_length. }
  split; [|by rewrite catalog_width_labels].
  unfold wf_frame in *. simpl. rewrite Hcols.
  rewrite Forall_forall in Hwl, Hwr. apply Forall_forall. intros o Ho.
  apply list_elem_of_join in Ho as (g & Ho & Hg).
  apply list_elem_of_fmap in Hg as (l & -> & Hl').
  apply elem_of_fan_out in Ho as [(r & Hr' & ->)|[_ ->]].
  - rewrite length_app, (Hwl l Hl'). f_equal.
    apply catalog_part_length; [done|]. apply Hwr.
    unfold matches in Hr'. by apply list_elem_of_filter in Hr' as [_ ?].
  - by rewrite length_app, (Hwl l Hl'), length_replicate, catalog_width_labels.
Qed.

Lemma merge_data_rectangular_witness :
  ∃ out, merge_data keys_alike log_c reg_c = Ok out ∧ wf_frame out ∧
    length (columns out) = 5%nat.
Proof.
  eexists. split; [reflexivity|].
  apply (merge_data_rectangular keys_alike log_c reg_c).
  - repeat constructor.
  - repeat constructor.
  - reflexivity.
Defined.

(** X5. When the two key columns pass the check of pandas and no log label
    is also a catalog label, the merge returns and nothing is renamed: the
    merged table has the log columns followed by the catalog columns, every
    merged row shows the cells of its log row under the log labels, and
    under the catalog labels the cells of the matching register row, or
    missing values when there is none. *)
Theorem merge_data_pass_through (keys_mergeable : list cell → list cell → bool)
    (log_df reg_df : DataFrame) :
  let keys := spec_join_key log_df reg_df in
  has_column log_df keys.1 →
  has_column reg_df keys.2 →
  keys_mergeable (key_series log_df keys.1) (key_series reg_df keys.2) = true →
  wf_frame log_df →
  (∀ c, c ∈ columns log_df → c ∉ catalog_labels keys reg_df) →
  ∃ out, merge_data keys_mergeable log_df reg_df = Ok out ∧
    columns out = columns log_df ++ catalog_labels keys reg_df ∧
    ∀ l, l ∈ rows log_df →
      (∀ o c, o ∈ fan_out keys log_df reg_df l → c ∈ columns log_df →
         row_get (columns out) o c = row_get (columns log_df) l c) ∧
      (∀ r c, r ∈ matches keys log_df reg_df l →
         c ∈ catalog_labels keys reg_df →
         row_get (columns out) (l ++ catalog_part keys reg_df r) c
         = row_get (columns reg_df) r c) ∧
      (∀ c, matches keys log_df reg_df l = [] →
         c ∈ catalog_labels keys reg_df →
         row_get (columns out)
           (l ++ replicate (catalog_width keys reg_df) NA) c = NA).
Proof.
  intros keys Hl Hr Hkm Hwf Hdis.
  assert (Hx : suffix_overlap "_x" (catalog_labels keys reg_df)
                 (columns log_df) = columns log_df)
    by by apply suffix_overlap_disjoint.
  assert (Hy : suffix_overlap "_y" (columns log_df)
                 (catalog_labels keys reg_df) = catalog_labels keys reg_df).
  { apply suffix_overlap_disjoint. intros c Hc Hc'. by apply (Hdis c). }
  destruct (merge_data_run keys_mergeable log_df reg_df Hl Hr) as (Hok & _).
  fold keys in Hok. rewrite Hok.
  2:{ split; [done|]. unfold no_collision. rewrite Hx, Hy.
      split; apply suffix_dups_same. }
  eexists. split; [done|]. simpl. rewrite Hx, Hy.
  split; [done|]. intros l Hin.
  assert (Hlen : length l = length (columns log_df)).
  { unfold wf_frame in Hwf. rewrite Forall_forall in Hwf. by apply Hwf. }
  split; [|split].
  - intros o c Ho Hc.
    apply elem_of_fan_out in Ho as [(r & _ & ->)|[_ ->]];
      by apply row_get_app_l.
  - intros r c Hm Hc. rewrite row_get_app_r; [|by intros ?%Hdis|done].
    unfold catalog_labels, catalog_part in *.
    destruct (decide (keys.1 = keys.2)) as [He|Hne]; [|done].
    apply row_get_delete. destruct Hr as [j Hj].
    unfold key_position in *. rewrite Hj in *. simpl in *.
    intros Hjc.
    assert (Hnd : c ∉ delete j (columns reg_df)); [|done].
    intros Hin'. apply list_elem_of_lookup in Hin' as [k Hk].
    assert (Hk' : (if decide (k < j)%nat then k else S k)
                  ∈ positions c (columns reg_df) 0).
    { apply elem_of_positions. split; [lia|]. rewrite Nat.sub_0_r.
      case_decide.
      - by rewrite list_lookup_delete_lt in Hk.
      - by rewrite list_lookup_delete_ge in Hk by lia. }
    assert (Hc2 : keys.2 = c).
    { assert (j ∈ positions keys.2 (columns reg_df) 0) as Hjin
        by (rewrite Hj; left).
      apply positions_lt in Hjin as [_ Hjin]. rewrite Nat.sub_0_r in Hjin.
      congruence. }
    rewrite <- Hc2, Hj in Hk'. apply list_elem_of_singleton in Hk'.
    case_decide; lia.
  - intros c Hm Hc. rewrite row_get_app_r; [|by intros ?%Hdis|done].
    unfold row_get. destruct (positions c _ 0) as [|p ?]; [done|].
    unfold cell_at. destruct (replicate _ NA !! p) eqn:E; [|done].
    by apply lookup_replicate in E as [-> _].
Qed.

Lemma merge_data_pass_through_witness :
  ∃ out, merge_data keys_alike log_c reg_c = Ok out ∧
    columns out = ["UID"; "GAME"; "duration_hours"; "Game"; "genretag1"] ∧
    row_get (columns out)
      ([Str "g9"; Str "Pong"; NA] ++ replicate 2 NA) "Game" = NA.
Proof.
  destruct (merge_data_pass_through keys_alike log_c reg_c)
    as (out & Hout & Hcols & Hrows).
  - exists 0%nat. reflexivity.
  - exists 0%nat. reflexivity.
  - reflexivity.
  - repeat constructor.
  - apply Forall_forall. apply (bool_decide_unpack _). vm_compute. exact I.
  - exists out. split; [exact Hout|]. split; [exact Hcols|].
    destruct (Hrows [Str "g9"; Str "Pong"; NA]) as (_ & _ & Hna).
    + apply (bool_decide_unpack _). vm_compute. exact I.
    + apply (Hna "Game"); [reflexivity|].
      apply (bool_decide_unpack _). vm_compute. exact I.
Defined.
(** X6. A key column that is missing or not unique stops the merge.  When
    the join is on the title, a log without a [GAME] column fails with that
    label and a register without a [Game] column with that one; when both
    tables have a [UID] label and one of them has it more than once, the
    merge fails because the label is ambiguous. *)
Theorem merge_data_key_errors (keys_mergeable : list cell → list cell → bool)
    (log_df reg_df : DataFrame) :
  (¬ ("UID" ∈ columns log_df ∧ "UID" ∈ columns reg_df) →
   "GAME" ∉ columns log_df → has_column reg_df "Game" →
   merge_data keys_mergeable log_df reg_df = Raise (KeyError "GAME")) ∧
  (¬ ("UID" ∈ columns log_df ∧ "UID" ∈ columns reg_df) →
   has_column log_df "GAME" → "Game" ∉ columns reg_df →
   merge_data keys_mergeable log_df reg_df = Raise (KeyError "Game")) ∧
  ("UID" ∈ columns log_df → "UID" ∈ columns reg_df →
   ¬ (has_column log_df "UID" ∧ has_column reg_df "UID") →
   merge_data keys_mergeable log_df reg_df = Raise ValueError).
Proof.
  split; [|split].
  - intros Hn Hg [j Hj]. rewrite merge_data_spec_key. unfold spec_join_key.
    rewrite decide_False by done. simpl. unfold pd_merge.
    apply (positions_nil _ _ 0%nat) in Hg. by rewrite Hj, Hg.
  - intros Hn [i Hi] Hg. rewrite merge_data_spec_key. unfold spec_join_key.
    rewrite decide_False by done. simpl. unfold pd_merge.
    apply (positions_nil _ _ 0%nat) in Hg. by rewrite Hg.
  - intros Hl Hr Hn. rewrite merge_data_spec_key. unfold spec_join_key.
    rewrite decide_True by done. simpl. unfold pd_merge.
    destruct (positions "UID" (columns reg_df) 0) as [|j [|j' qs]] eqn:Er.
    + apply positions_nil in Er. done.
    + destruct (positions "UID" (columns log_df) 0) as [|i [|i' ps]] eqn:El.
      * apply positions_nil in El. done.
      * exfalso. apply Hn. split; by eexists.
      * done.
    + done.
Qed.

Lemma merge_data_key_errors_witness :
  merge_data keys_alike log_titles reg_d = Raise (KeyError "GAME") ∧
  merge_data keys_alike log_c reg_titles = Raise (KeyError "Game") ∧
  merge_data keys_alike log_two_uid reg_c = Raise ValueError.
Proof.
  destruct (merge_data_key_errors keys_alike log_titles reg_d) as (H1 & _ & _).
  destruct (merge_data_key_errors keys_alike log_c reg_titles) as (_ & H2 & _).
  destruct (merge_data_key_errors keys_alike log_two_uid reg_c)
    as (_ & _ & H3).
  split; [|split].
  - apply H1.
    + apply (bool_decide_unpack _). vm_compute. exact I.
    + apply (bool_decide_unpack _). vm_compute. exact I.
    + exists 0%nat. reflexivity.
  - apply H2.
    + apply (bool_decide_unpack _). vm_compute. exact I.
    + exists 1%nat. reflexivity.
    + apply (bool_decide_unpack _). vm_compute. exact I.
  - apply H3.
    + apply (bool_decide_unpack _). vm_compute. exact I.
    + apply (bool_decide_unpack _). vm_compute. exact I.
    + intros [[i Hi] _]. discriminate Hi.
Defined.

Lemma append_suffix_not_GAME c sfx :
  sfx = "_x" ∨ sfx = "_y" → c +:+ sfx ≠ "GAME".
Proof.
  intros [-> | ->];
    destruct c as [|a1 [|a2 [|a3 [|a4 [|a5 c]]]]]; intros H;
    by simplify_eq/=.
Qed.

Lemma elem_of_suffix_overlap sfx other cols x :
  x ∈ suffix_overlap sfx other cols ↔
  ∃ c, c ∈ cols ∧ x = (if decide (c ∈ other) then c +:+ sfx else c).
Proof.
  unfold suffix_overlap. rewrite list_elem_of_fmap. naive_solver.
Qed.

Lemma elem_of_delete_ne {A} (l : list A) j x :
  x ∈ l → l !! j ≠ Some x → x ∈ delete j l.
Proof.
  intros Hin Hj. apply list_elem_of_lookup in Hin as [k Hk].
  apply list_elem_of_lookup.
  destruct (decide (k < j)%nat).
  - exists k. by rewrite list_lookup_delete_lt.
  - assert (k ≠ j) by (intros ->; congruence).
    exists (k - 1)%nat. rewrite list_lookup_delete_ge by lia.
    by replace (S (k - 1)) with k by lia.
Qed.

(** X7. A register that has a [GAME] column of its own, joined on [UID]:
    whenever pandas lets that merge through (the two [UID] columns pass its
    check, no renamed label collides), both [GAME] columns are renamed, so
    the merged table has none.  The summary then counts no games at all,
    and the top-games rollup, and with it [main_charts], fails on the
    missing label. *)
Theorem merge_data_shadows_game (keys_mergeable : list cell → list cell → bool)
    (nat_text : cell) (px_bar px_area : list (cell * Qc) → result unit)
    (log_df reg_df : DataFrame) :
  has_column log_df "UID" → has_column reg_df "UID" →
  "GAME" ∈ columns log_df → "GAME" ∈ columns reg_df →
  merge_accepted keys_mergeable ("UID", "UID") log_df reg_df →
  ∃ out, merge_data keys_mergeable log_df reg_df = Ok out ∧
    "GAME" ∉ columns out ∧
    "GAME_x" ∈ columns out ∧ "GAME_y" ∈ columns out ∧
    (∀ m, show_summary_metrics out = Ok m → unique_games m = 0%nat) ∧
    top_games out = Raise (KeyError "GAME") ∧
    ∃ e, main_charts nat_text px_bar px_area out = Raise e.
Proof.
  intros Hl Hr Hgl Hgr Hacc.
  assert (Hkeys : spec_join_key log_df reg_df = ("UID", "UID")).
  { unfold spec_join_key. rewrite decide_True; [done|].
    split; by apply has_column_elem. }
  pose proof (merge_data_run keys_mergeable log_df reg_df) as Hm.
  rewrite Hkeys in Hm.
  destruct (Hm Hl Hr) as (Hok & _). specialize (Hok Hacc). clear Hm.
  eexists. split; [exact Hok|]. simpl.
  assert (Hcat : "GAME" ∈ catalog_labels ("UID", "UID") reg_df).
  { unfold catalog_labels, key_position. simpl. destruct Hr as [j Hj].
    rewrite Hj. simpl. apply elem_of_delete_ne; [done|].
    assert (j ∈ positions "UID" (columns reg_df) 0) as Hjin
      by (rewrite Hj; left).
    apply positions_lt in Hjin as [_ Hjin]. rewrite Nat.sub_0_r in Hjin.
    rewrite Hjin. done. }
  assert (Hno : "GAME" ∉ suffix_overlap "_x" (catalog_labels ("UID", "UID") reg_df)
                          (columns log_df)
                        ++ suffix_overlap "_y" (columns log_df)
                             (catalog_labels ("UID", "UID") reg_df)).
  { rewrite elem_of_app, !elem_of_suffix_overlap.
    intros [(c & Hc & Hx)|(c & Hc & Hx)]; case_decide;
      try (symmetry in Hx; apply append_suffix_not_GAME in Hx; [done|auto]).
    - subst c. done.
    - subst c. done. }
  split; [done|]. split; [|split].
  - apply elem_of_app. left. apply elem_of_suffix_overlap. exists "GAME".
    split; [done|]. by rewrite decide_True.
  - apply elem_of_app. right. apply elem_of_suffix_overlap. exists "GAME".
    split; [done|]. by rewrite decide_True.
  - set (out := {| columns := _; rows := _ |}).
    assert (Hg : getitem out "GAME" = Raise (KeyError "GAME")).
    { unfold getitem. subst out. cbn [columns].
      by apply (positions_nil _ _ 0%nat) in Hno as ->. }
    assert (Htop : top_games out = Raise (KeyError "GAME")).
    { unfold top_games. by rewrite Hg. }
    split; [|split; [done|]].
    + intros m. unfold show_summary_metrics.
      replace (bool_decide ("GAME" ∈ columns out)) with false
        by (symmetry; by apply bool_decide_eq_false_2).
      destruct (getitem out "duration_hours") as [hs|]; simpl; [|done].
      destruct (series_sum hs); simpl; [|done].
      destruct (if bool_decide _ then _ else _); simpl; [|done].
      by intros [= <-].
    + unfold main_charts. rewrite Htop.
      destruct (show_summary_metrics out); simpl; [|by eexists].
      destruct (playtime_achievements out); simpl; by eexists.
Qed.

Lemma merge_data_shadows_game_witness :
  ∃ out, merge_data keys_alike log_u reg_u = Ok out ∧
    columns out = ["UID"; "GAME_x"; "duration_hours"; "month"; "GAME_y";
                   "System"] ∧
    top_games out = Raise (KeyError "GAME").
Proof.
  destruct (merge_data_shadows_game keys_alike NA (λ _, Ok ()) (λ _, Ok ())
              log_u reg_u)
    as (out & Hout & _ & _ & _ & _ & Htop & _).
  - exists 0%nat. reflexivity.
  - exists 0%nat. reflexivity.
  - apply (bool_decide_unpack _). vm_compute. exact I.
  - apply (bool_decide_unpack _). vm_compute. exact I.
  - split; [reflexivity|]. split; reflexivity.
  - exists out. split; [exact Hout|]. split; [|exact Htop].
    assert (E : Ok out = merge_data keys_alike log_u reg_u)
      by (symmetry; exact Hout).
    injection E as ->. reflexivity.
Defined.
(** ** The summary metrics *)

Lemma getitem_length df c s : getitem df c = Ok s → length s = length (rows df).
Proof.
  unfold getitem. destruct (positions c (columns df) 0) as [|i [|? ?]];
    try done. intros [= <-]. by rewrite length_map.
Qed.

Lemma series_sum_dropna (s : Series) : series_sum (dropna s) = series_sum s.
Proof.
  induction s as [|c s IH]; [done|]. unfold dropna in *.
  rewrite filter_cons. destruct c; case_decide; simpl; try done;
    by rewrite ?IH.
Qed.

Lemma Qc_of_Z_pos (n : nat) : n ≠ O → Qc_of_Z (Z.of_nat n) ≠ 0%Qc.
Proof.
  intros Hn H. apply (f_equal (λ q, Qnum (this q))) in H. simpl in H. lia.
Qed.

(** X8. The average session divides the total by the number of sessions that
    have a duration, not by the number of sessions; when there are sessions
    and none of them has a duration, it is not a number. *)
Theorem show_summary_metrics_average (df : DataFrame) (hours : Series)
    (m : metrics) :
  getitem df "duration_hours" = Ok hours →
  show_summary_metrics df = Ok m →
  total_sessions m = length hours ∧
  series_sum hours = Ok (total_hours m) ∧
  (hours = [] → avg_session m = Num 0%Qc) ∧
  (hours ≠ [] → series_count hours = 0%nat →
   total_hours m = 0%Qc ∧ avg_session m = NA) ∧
  (series_count hours ≠ 0%nat →
   ∃ a, avg_session m = Num a ∧
        (a * Qc_of_Z (Z.of_nat (series_count hours)) = total_hours m)%Qc).
Proof.
  intros Hh. pose proof (getitem_length _ _ _ Hh) as Hlen.
  unfold show_summary_metrics. rewrite Hh. simpl.
  destruct (series_sum hours) as [t|] eqn:Ht; simpl; [|done].
  destruct (if bool_decide ("GAME" ∈ columns df) then _ else _) as [g|];
    simpl; [|done].
  rewrite <- Hlen. unfold series_mean. rewrite Ht. simpl.
  case_bool_decide as Hpos; simpl; intros [= <-]; simpl.
  - split; [done|]. split; [done|]. split; [|split].
    + intros ->. simpl in Hpos. lia.
    + intros _ Hc. rewrite Hc. split; [|done].
      unfold series_count in Hc. apply nil_length_inv in Hc.
      rewrite <- series_sum_dropna, Hc in Ht. simpl in Ht. congruence.
    + intros Hc. destruct (series_count hours) as [|n] eqn:En; [done|].
      eexists. split; [done|]. field. by apply Qc_of_Z_pos.
  - assert (hours = []) as -> by (apply nil_length_inv; lia).
    split; [done|]. split; [done|]. split; [done|]. split; [done|].
    intros Hc. by unfold series_count in Hc.
Qed.

Lemma show_summary_metrics_average_witness :
  ∃ m, show_summary_metrics table_600 = Ok m ∧
    total_sessions m = 3%nat ∧
    ∃ a, avg_session m = Num a ∧ (a * Qc_of_Z 2 = total_hours m)%Qc.
Proof.
  eexists. split; [reflexivity|].
  destruct (show_summary_metrics_average table_600
              [Num (Qc_of_Z 260); NA; Num (Qc_of_Z 340)]
              {| total_hours := Qc_of_Z 260 + (Qc_of_Z 340 + 0);
                 total_sessions := 3; unique_games := 2;
                 avg_session :=
                   Num ((Qc_of_Z 260 + (Qc_of_Z 340 + 0)) / Qc_of_Z 2) |})
    as (H1 & _ & _ & _ & H2).
  - reflexivity.
  - reflexivity.
  - split; [exact H1|]. apply H2. discriminate.
Defined.

(** ** The achievements line *)

Lemma badges_for_nil (t : Qc) : badges_for t = [] ↔ (t < Qc_of_Z 100)%Qc.
Proof.
  unfold badges_for, milestones. rewrite !filter_cons, filter_nil. simpl.
  split.
  - intros H. apply Qcnot_le_lt. intros Hle.
    rewrite decide_True in H by done. done.
  - intros Hlt.
    assert (∀ z, 100 ≤ z → ¬ (Qc_of_Z z ≤ t)%Qc) as Hn.
    { intros z Hz Hle. apply (Qclt_not_le _ _ Hlt).
      eapply Qcle_trans; [|exact Hle]. by apply Qc_of_Z_le. }
    rewrite !decide_False by (apply Hn; lia). done.
Qed.

(** X9. The achievements line follows the total the summary shows: nothing is
    written while that total is below 100 hours, and from 100 hours on one
    line is written, the heading followed by the earned badges. *)
Theorem playtime_achievements_line (df : DataFrame) (m : metrics) :
  show_summary_metrics df = Ok m →
  ∃ lines, playtime_achievements df = Ok lines ∧
    ((total_hours m < Qc_of_Z 100)%Qc → lines = []) ∧
    ((Qc_of_Z 100 ≤ total_hours m)%Qc →
     lines = ["**Achievements Unlocked:** "
              +:+ join " " (badges_for (total_hours m))]).
Proof.
  unfold show_summary_metrics, playtime_achievements, playtime_badges.
  destruct (getitem df "duration_hours") as [hours|]; simpl; [|done].
  destruct (series_sum hours) as [t|]; simpl; [|done].
  destruct (if bool_decide ("GAME" ∈ columns df) then _ else _) as [g|];
    simpl; [|done].
  destruct (if bool_decide _ then _ else _) as [a|]; simpl; [|done].
  intros [= <-]. simpl. eexists. split; [done|]. split.
  - intros Hlt. by apply badges_for_nil in Hlt as ->.
  - intros Hle. destruct (badges_for t) eqn:E; [|done].
    apply badges_for_nil in E. by apply Qclt_not_le in E.
Qed.

Lemma playtime_achievements_line_witness :
  ∃ m lines, show_summary_metrics table_600 = Ok m ∧
    playtime_achievements table_600 = Ok lines ∧
    ((Qc_of_Z 100 ≤ total_hours m)%Qc →
     lines = ["**Achievements Unlocked:** "
              +:+ join " " (badges_for (total_hours m))]).
Proof.
  eexists.
  destruct (playtime_achievements_line table_600
              {| total_hours := Qc_of_Z 260 + (Qc_of_Z 340 + 0);
                 total_sessions := 3; unique_games := 2;
                 avg_session :=
                   Num ((Qc_of_Z 260 + (Qc_of_Z 340 + 0)) / Qc_of_Z 2) |})
    as (lines & Hl & _ & Hge).
  - reflexivity.
  - exists lines. split; [reflexivity|]. split; [exact Hl|exact Hge].
Defined.
(** ** The genre vocabulary *)

Lemma has_tag_iff cols r :
  has_tag cols r ↔
  ∃ i c, cols !! i = Some c ∧ is_genre_col c = true ∧ cell_at r i ≠ NA.
Proof.
  unfold has_tag. rewrite Exists_exists. split.
  - intros ([i c] & Hin & Hg & Hs). apply elem_of_lookup_imap in Hin.
    destruct Hin as (i' & c' & [= -> ->] & Hl). by exists i', c'.
  - intros (i & c & Hl & Hg & Hs). exists (i, c). split; [|done].
    apply elem_of_lookup_imap. by exists i, c.
Qed.

Lemma elem_of_melt df pos x :
  x ∈ melt df pos ↔ ∃ i r, i ∈ pos ∧ r ∈ rows df ∧ cell_at r i = x.
Proof.
  unfold melt. rewrite list_elem_of_In, in_flat_map. split.
  - intros (i & Hi & Hx). apply list_elem_of_In in Hi, Hx.
    apply list_elem_of_fmap in Hx as (r & -> & Hr). by exists i, r.
  - intros (i & r & Hi & Hr & <-). exists i. split; [by apply list_elem_of_In|].
    apply list_elem_of_In, list_elem_of_fmap. by exists r.
Qed.

Lemma elem_of_all_tags df x : x ∈ all_tags df ↔ is_tag df x.
Proof.
  unfold all_tags, is_tag.
  rewrite elem_of_unique, elem_of_dropna, elem_of_melt.
  split.
  - intros [Hx (i & r & Hi & Hr & <-)]. split; [done|]. exists r.
    split; [done|]. apply row_tagged_iff.
    apply elem_of_genre_positions in Hi as [_ (c & Hc & Hg)].
    rewrite Nat.sub_0_r in Hc. exists i, c. split; [done|]. split; [done|].
    by left.
  - intros [Hx (r & Hr & Ht)]. split; [done|].
    apply row_tagged_iff in Ht as (i & c & Hc & Hg & Hin).
    apply list_elem_of_singleton in Hin. exists i, r. split; [|done].
    apply elem_of_genre_positions. split; [lia|]. exists c.
    by rewrite Nat.sub_0_r.
Qed.

Lemma sorted_Ok_iff (l : list cell) :
  is_Ok (sorted l) ↔ ∀ a b, a ∈ l → b ∈ l → kind a = kind b.
Proof.
  unfold sorted. destruct l as [|x l].
  { split; [|by eexists]. intros _ a b Ha. by apply elem_of_nil in Ha. }
  destruct (forallb (λ y, kind y =? kind x) l) eqn:E.
  - split; [|by eexists]. intros _.
    rewrite forallb_forall in E.
    assert (Hk : ∀ a, a ∈ x :: l → kind a = kind x).
    { intros a [->|Ha]%elem_of_cons; [done|].
      apply list_elem_of_In, E in Ha. lia. }
    intros a b Ha Hb. by rewrite (Hk a Ha), (Hk b Hb).
  - split; [by intros [? ?]|]. intros Hk. exfalso.
    apply not_true_iff_false in E. apply E. apply forallb_forall.
    intros y Hy%list_elem_of_In. apply Z.eqb_eq, Hk; [by right|by left].
Qed.

Lemma sorted_inv (l : list cell) :
  sorted l = Ok (sort_by cell_leb l) ∨ sorted l = Raise TypeError.
Proof.
  unfold sorted. destruct l as [|x l]; [by left|].
  destruct (forallb _ l); [by left|by right].
Qed.

Lemma sort_by_strict (l : list cell) :
  NoDup l → StronglySorted cell_lt (sort_by cell_leb l).
Proof.
  intros Hnd.
  pose proof (sort_by_sorted cell_leb cell_leb_total cell_leb_trans l) as Hs.
  assert (Hnd' : NoDup (sort_by cell_leb l)) by by rewrite sort_by_perm.
  induction Hs as [|k l' Hs IH Hk]; [constructor|].
  apply NoDup_cons in Hnd' as [Hin Hnd'].
  constructor; [by apply IH|].
  rewrite Forall_forall in Hk. apply Forall_forall. intros k' Hk'.
  split; [by apply Hk|]. by intros ->.
Qed.

Lemma genre_positions_filter cols :
  genre_positions cols 0 = [] ↔ filter (λ c, is_genre_col c = true) cols = [].
Proof.
  rewrite genre_positions_nil. split.
  - intros H. apply filter_none. intros c Hc.
    rewrite Forall_forall in H. by rewrite (H c Hc).
  - intros H. apply Forall_forall. intros c Hc.
    destruct (is_genre_col c) eqn:Hg; [|done].
    assert (Hin : c ∈ filter (λ c, is_genre_col c = true) cols)
      by by apply list_elem_of_filter.
    rewrite H in Hin. by apply elem_of_nil in Hin.
Qed.

Lemma genre_filter_options multiselect df options :
  sorted (all_tags df) = Ok options →
  genre_filter multiselect df = genre_filter (λ _, multiselect options) df.
Proof.
  intros Hs. unfold genre_filter. fold (all_tags df). by rewrite Hs.
Qed.

(** X10. With genre-tag columns, the filter fails when the register holds
    tags of different kinds, such as a number and a text: they cannot be
    put in order for the selection widget.  Otherwise the widget is offered
    every tag of the register once, in ascending order, and nothing else. *)
Theorem genre_filter_vocabulary (multiselect : list cell → list cell)
    (df_register : DataFrame) :
  filter (λ c, is_genre_col c = true) (columns df_register) ≠ [] →
  ((∃ a b, is_tag df_register a ∧ is_tag df_register b ∧ kind a ≠ kind b) →
   genre_filter multiselect df_register = Raise TypeError) ∧
  ((∀ a b, is_tag df_register a → is_tag df_register b → kind a = kind b) →
   ∃ options,
     StronglySorted cell_lt options ∧
     (∀ x, x ∈ options ↔ is_tag df_register x) ∧
     genre_filter multiselect df_register
     = genre_filter (λ _, multiselect options) df_register ∧
     is_Ok (genre_filter multiselect df_register)).
Proof.
  intros Hg. rewrite <- genre_positions_filter in Hg.
  split.
  - intros (a & b & Ha & Hb & Hk).
    assert (Hn : ¬ is_Ok (sorted (all_tags df_register))).
    { rewrite sorted_Ok_iff. intros H. apply Hk.
      apply H; by apply elem_of_all_tags. }
    unfold genre_filter. fold (all_tags df_register).
    destruct (genre_positions (columns df_register) 0); [done|].
    destruct (sorted_inv (all_tags df_register)) as [E|E]; rewrite E in *;
      [|done].
    exfalso. apply Hn. by eexists.
  - intros Hk.
    assert (Hs : is_Ok (sorted (all_tags df_register))).
    { apply sorted_Ok_iff. intros a b Ha Hb.
      apply Hk; by apply elem_of_all_tags. }
    destruct (sorted_inv (all_tags df_register)) as [E|E];
      [|destruct Hs as [? Hs]; congruence].
    exists (sort_by cell_leb (all_tags df_register)).
    split; [apply sort_by_strict, NoDup_unique|].
    split; [intros x; by rewrite sort_by_perm, elem_of_all_tags|].
    split; [by apply genre_filter_options|].
    unfold genre_filter. fold (all_tags df_register). rewrite E. simpl.
    destruct (genre_positions (columns df_register) 0); [by eexists|].
    destruct (multiselect _); by eexists.
Qed.

Lemma genre_filter_vocabulary_witness :
  genre_filter (λ options, options) reg_mixed = Raise TypeError ∧
  ∃ options,
    StronglySorted cell_lt options ∧
    (∀ x, x ∈ options ↔ is_tag reg_c x) ∧
    is_Ok (genre_filter (λ options, options) reg_c).
Proof.
  split.
  - apply (genre_filter_vocabulary (λ options, options) reg_mixed).
    + discriminate.
    + exists (Str "RPG"), (Num (Qc_of_Z 1942)).
      split; [|split; [|discriminate]]; apply elem_of_all_tags;
        apply (bool_decide_unpack _); vm_compute; exact I.
  - destruct (genre_filter_vocabulary (λ options, options) reg_c)
      as [_ H]; [discriminate|].
    destruct H as (options & H1 & H2 & _ & H3).
    + intros a b Ha%elem_of_all_tags Hb%elem_of_all_tags.
      assert (Hs : ∀ x, x ∈ all_tags reg_c → kind x = 2).
      { intros x Hx.
        change (all_tags reg_c) with [Str "RPG"; Str "Puzzle"] in Hx.
        rewrite !elem_of_cons, elem_of_nil in Hx.
        destruct Hx as [->|[->|[]]]; reflexivity. }
      by rewrite (Hs a Ha), (Hs b Hb).
    + exists options. split; [exact H1|]. split; [exact H2|exact H3].
Defined.

Lemma filter_iff_in {A} (P Q : A → Prop) `{!∀ x, Decision (P x)}
    `{!∀ x, Decision (Q x)} (l : list A) :
  (∀ x, x ∈ l → P x ↔ Q x) → filter P l = filter Q l.
Proof.
  induction l as [|x l IH]; intros Hpq; [done|].
  rewrite !filter_cons, IH by (intros y Hy; apply Hpq; by right).
  assert (Hx : P x ↔ Q x) by (apply Hpq; by left).
  destruct (decide (P x)), (decide (Q x)); tauto.
Qed.

(** X11. Selecting every tag on offer is not the same as selecting none:
    with no selection every game stays, with all tags selected the games
    whose genre-tag cells are all missing go. *)
Theorem genre_filter_select_all (multiselect : list cell → list cell)
    (df_register : DataFrame) (options : list cell) :
  sorted (all_tags df_register) = Ok options →
  options ≠ [] →
  (∀ x, x ∈ multiselect options ↔ x ∈ options) →
  genre_filter multiselect df_register
  = Ok {| columns := columns df_register;
          rows := filter (has_tag (columns df_register))
                    (rows df_register) |} ∧
  genre_filter (λ _, []) df_register = Ok df_register.
Proof.
  intros Hs Hne Hall.
  assert (Hopt : ∀ x, x ∈ options ↔ is_tag df_register x).
  { intros x. destruct (sorted_inv (all_tags df_register)) as [E|E];
      rewrite E in Hs; [|done]. injection Hs as <-.
    by rewrite sort_by_perm, elem_of_all_tags. }
  assert (Hpos : genre_positions (columns df_register) 0 ≠ []).
  { intros Hp. destruct options as [|x ?]; [done|].
    assert (Hx : is_tag df_register x) by (apply Hopt; left).
    destruct Hx as [_ (r & _ & Ht)].
    apply row_tagged_iff in Ht as (i & c & Hc & Hgc & _).
    assert (Hi : i ∈ genre_positions (columns df_register) 0).
    { apply elem_of_genre_positions. split; [lia|]. exists c.
      by rewrite Nat.sub_0_r. }
    rewrite Hp in Hi. by apply elem_of_nil in Hi. }
  split.
  - unfold genre_filter. fold (all_tags df_register). rewrite Hs. simpl.
    destruct (genre_positions (columns df_register) 0) as [|p ps] eqn:Hp;
      [done|]. rewrite <- Hp.
    destruct (multiselect options) as [|t ts] eqn:Hsel.
    { destruct options as [|x ?]; [done|].
      assert (x ∈ []) as Hx by (apply Hall; left).
      by apply elem_of_nil in Hx. }
    rewrite <- Hsel in Hall |- *. unfold any_isin. rewrite select_rows_filter.
    do 2 f_equal. apply filter_iff_in. intros r Hr.
    rewrite existsb_isin, row_tagged_iff, has_tag_iff.
    split.
    + intros (i & c & Hc & Hgc & Hin). exists i, c.
      split; [done|]. split; [done|].
      apply Hall, Hopt in Hin. by destruct Hin.
    + intros (i & c & Hc & Hgc & Hna). exists i, c.
      split; [done|]. split; [done|]. apply Hall, Hopt.
      split; [done|]. exists r. split; [done|].
      apply row_tagged_iff. exists i, c. split; [done|]. split; [done|].
      by left.
  - unfold genre_filter. fold (all_tags df_register). rewrite Hs. simpl.
    by destruct (genre_positions _ _).
Qed.

Lemma genre_filter_select_all_witness :
  genre_filter (λ options, options) reg_untagged
  = Ok {| columns := columns reg_untagged;
          rows := [[Str "Chrono Trigger"; Str "RPG"]] |} ∧
  genre_filter (λ _, []) reg_untagged = Ok reg_untagged.
Proof.
  apply (genre_filter_select_all (λ options, options) reg_untagged
           [Str "RPG"]).
  - reflexivity.
  - discriminate.
  - reflexivity.
Defined.
(** ** The rollups account for the hours *)

Lemma sum_nums_perm (l1 l2 : list Qc) : l1 ≡ₚ l2 → sum_nums l1 = sum_nums l2.
Proof.
  induction 1 as [|x l1 l2 _ IH|x y l|l1 l2 l3 _ IH1 _ IH2]; simpl.
  - done.
  - by rewrite IH.
  - ring.
  - by rewrite IH1.
Qed.

Lemma group_values_map {A} (gi hj : A → cell) (l : list A) k :
  group_values (map gi l) (map hj l) k
  = map hj (filter (λ x, gi x = k) l).
Proof.
  unfold group_values. rewrite zip_map.
  rewrite (filter_map (λ r, (gi r, hj r)) (λ kv, kv.1 = k)).
  by rewrite <- list_fmap_compose.
Qed.

Lemma sum_groups {A} (gi hj : A → cell) (ks : list cell) :
  NoDup ks →
  ∀ (l : list A) (total : Qc) (sums : list (cell * Qc)),
  (∀ x, x ∈ l → gi x ∈ ks) →
  series_sum (map hj l) = Ok total →
  mapM (λ k, t ← series_sum (map hj (filter (λ x, gi x = k) l)); Ok (k, t)) ks
  = Ok sums →
  sum_nums sums.*2 = total.
Proof.
  induction 1 as [|k ks Hk Hnd IH]; intros l total sums Hin Ht Hs.
  { simpl in Hs. injection Hs as <-. destruct l as [|x l].
    - simpl in Ht. by injection Ht as <-.
    - exfalso. eapply elem_of_nil, (Hin x). by left. }
  destruct (series_sum_split hj (λ x, gi x = k) l total Ht)
    as (t1 & t2 & H1 & H2 & ->).
  simpl in Hs. rewrite H1 in Hs. simpl in Hs.
  set (l' := filter (λ x, ¬ gi x = k) l) in *.
  assert (Hext : mapM (λ k0, t ← series_sum
                         (map hj (filter (λ x, gi x = k0) l)); Ok (k0, t)) ks
                 = mapM (λ k0, t ← series_sum
                           (map hj (filter (λ x, gi x = k0) l')); Ok (k0, t)) ks).
  { apply mapM_result_ext, Forall_forall. intros k0 Hk0.
    assert (Hf : filter (λ x, gi x = k0) l' = filter (λ x, gi x = k0) l);
      [|by rewrite Hf].
    unfold l'. rewrite list_filter_filter. apply list_filter_iff.
    intros x. split; [tauto|]. intros Hx. split; [done|]. congruence. }
  rewrite Hext in Hs.
  destruct (mapM _ ks) as [rest|] eqn:Hrest; simpl in Hs; [|done].
  injection Hs as <-. simpl. f_equal.
  apply (IH l' t2 rest); [|done|done].
  intros x Hx. unfold l' in Hx. apply list_elem_of_filter in Hx as [Hne Hx].
  apply Hin in Hx. apply elem_of_cons in Hx as [?|?]; [done|done].
Qed.

Lemma groupby_sum_accounts {A} (gi hj : A → cell) (l : list A) total sums :
  (∀ x, x ∈ l → gi x ≠ NA) →
  series_sum (map hj l) = Ok total →
  groupby_sum (map gi l) (map hj l) = Ok sums →
  sum_nums sums.*2 = total.
Proof.
  intros Hna Ht Hs. unfold groupby_sum in Hs.
  apply (sum_groups gi hj (group_keys (map gi l)) (NoDup_group_keys _)
           l total sums); [|done|].
  - intros x Hx. apply elem_of_group_keys. split; [by apply Hna|].
    by apply list_elem_of_fmap_2.
  - rewrite <- Hs. apply mapM_result_ext, Forall_forall. intros k _.
    by rewrite group_values_map.
Qed.

(** X12. While there are at most 15 titles, the bars of the top-games chart add
    up to the hours of the sessions that have a title. *)
Theorem top_games_accounts (df : DataFrame) (games : Series) (total : Qc) :
  getitem df "GAME" = Ok games →
  duration_total df = Ok total →
  (nunique games ≤ 15)%nat →
  ∃ top titled,
    top_games df = Ok top ∧
    duration_total (with_title df) = Ok titled ∧
    sum_nums top.*2 = titled.
Proof.
  intros Hgames Ht Hn.
  pose proof (getitem_Ok_has_column _ _ _ Hgames) as Hg.
  destruct (duration_total_Ok df total Ht) as (hours & Hhours & Hsum & Hnum).
  pose proof (getitem_Ok_has_column _ _ _ Hhours) as Hd.
  set (gi := λ r : list cell, row_get (columns df) r "GAME").
  set (hj := λ r : list cell, row_get (columns df) r "duration_hours").
  set (P := λ r : list cell, gi r ≠ NA).
  destruct (getitem_filter df "GAME" P Hg) as [Hg1 Hg2].
  destruct (getitem_filter df "duration_hours" P Hd) as [Hd1 Hd2].
  fold gi in Hg1, Hg2. fold hj in Hd1, Hd2.
  rewrite Hhours in Hd1. injection Hd1 as ->.
  rewrite Hgames in Hg1. injection Hg1 as ->.
  destruct (series_sum_split hj P (rows df) total Hsum)
    as (t1 & t2 & H1 & H2 & ->).
  destruct (groupby_sum_groups (map gi (rows df)) (map hj (rows df)) Hnum)
    as (sums & Hsums & Hkeys & _).
  exists (take 15 (sort_values_desc sums)), t1.
  split; [|split].
  - unfold top_games. rewrite Hgames, Hhours. simpl. by rewrite Hsums.
  - change (with_title df)
      with {| columns := columns df; rows := filter P (rows df) |}.
    unfold duration_total. by rewrite Hd2.
  - assert (Hlen : length sums = nunique (map gi (rows df))).
    { by rewrite <- (length_fmap fst), Hkeys, group_keys_perm. }
    rewrite take_ge
      by (unfold sort_values_desc; rewrite sort_by_length; lia).
    rewrite (sum_nums_perm _ (sums.*2))
      by (apply fmap_Permutation, sort_by_perm).
    rewrite <- (groupby_sum_dropna gi hj) in Hsums.
    apply (groupby_sum_accounts gi hj (filter P (rows df))); [|done|done].
    intros x Hx. by apply list_elem_of_filter in Hx as [? _].
Qed.

Lemma top_games_accounts_witness :
  ∃ top titled,
    top_games table_untitled = Ok top ∧
    duration_total (with_title table_untitled) = Ok titled ∧
    sum_nums top.*2 = titled.
Proof.
  apply (top_games_accounts table_untitled
           [Str "Zelda"; Str "Asteroids"; NA; Str "Zelda"] (Qc_of_Z 11)).
  - reflexivity.
  - apply (bool_decide_unpack _). vm_compute. exact I.
  - vm_compute. lia.
Defined.

(** The table with the untitled session, evaluated: the two bars add up
    to four of the eleven hours. *)
Example top_games_untitled_sum :
  (top_games table_untitled ≫= λ top, Ok (sum_nums top.*2))
  = Ok (Qc_of_Z 4).
Proof. apply (bool_decide_unpack _). vm_compute. exact I. Qed.

Lemma astype_str_period nat_text (s : Series) :
  Forall is_period s →
  astype_str nat_text s = Ok (map (month_label nat_text) s).
Proof.
  unfold astype_str. induction 1 as [|c s Hc _ IH]; [done|].
  simpl. rewrite IH. by destruct c.
Qed.

(** X13. The months of the monthly chart are listed once each in ascending
    order of their labels, a label being the text of a month.  What becomes
    of the sessions without a start depends on what [astype(str)] makes of
    a missing month.  Where it makes the text NaT of it, these sessions
    form a month of their own under that label, and the hours of the
    months add up to all the hours of the table.  Where it leaves it
    missing, the grouping drops these sessions, and the hours of the months
    add up to the hours of the sessions that have a month. *)
Theorem month_agg_accounts (nat_text : cell) (df : DataFrame)
    (months : Series) (total : Qc) :
  nat_text = Str "NaT" ∨ nat_text = NA →
  getitem df "month" = Ok months →
  Forall is_period months →
  duration_total df = Ok total →
  ∃ g, month_agg nat_text df = Ok g ∧
    StronglySorted cell_lt g.*1 ∧
    (∀ k, k ∈ g.*1 ↔
          k ≠ NA ∧ ∃ c, c ∈ months ∧ k = month_label nat_text c) ∧
    (nat_text = Str "NaT" →
       sum_nums g.*2 = total ∧ (NA ∈ months → Str "NaT" ∈ g.*1)) ∧
    (nat_text = NA →
       ∃ dated, duration_total (with_month df) = Ok dated ∧
         sum_nums g.*2 = dated).
Proof.
  intros Hnat Hmonths Hper Ht.
  pose proof (getitem_Ok_has_column _ _ _ Hmonths) as Hmc.
  destruct (duration_total_Ok df total Ht) as (hours & Hhours & Hsum & Hnum).
  pose proof (getitem_Ok_has_column _ _ _ Hhours) as Hhc.
  set (gm := λ r : list cell, row_get (columns df) r "month").
  set (hj := λ r : list cell, row_get (columns df) r "duration_hours").
  set (P := λ r : list cell, gm r ≠ NA).
  destruct (getitem_filter df "month" P Hmc) as [Hm1 _].
  destruct (getitem_filter df "duration_hours" P Hhc) as [Hh1 Hh2].
  fold gm in Hm1. fold hj in Hh1, Hh2.
  rewrite Hmonths in Hm1. injection Hm1 as ->.
  rewrite Hhours in Hh1. injection Hh1 as ->.
  set (gi := λ r : list cell, month_label nat_text (gm r)).
  assert (Hkeysmap : map (month_label nat_text) (map gm (rows df))
                     = map gi (rows df))
    by by rewrite map_map.
  destruct (groupby_sum_groups (map gi (rows df)) (map hj (rows df)) Hnum)
    as (g & Hg & Hkeys & _).
  assert (Hrow : ∀ r, r ∈ rows df → is_period (gm r)).
  { intros r Hr. rewrite Forall_forall in Hper. apply Hper.
    by apply list_elem_of_fmap_2. }
  exists g. split; [|split; [|split; [|split]]].
  - unfold month_agg. rewrite Hmonths. simpl.
    rewrite (astype_str_period _ _ Hper), Hkeysmap. simpl.
    rewrite Hhours. simpl. done.
  - rewrite Hkeys. apply group_keys_sorted.
  - intros k. rewrite Hkeys, elem_of_group_keys, <- Hkeysmap.
    rewrite list_elem_of_fmap. split.
    + intros [Hk (c & -> & Hc)]. split; [done|]. by exists c.
    + intros (Hk & c & Hc & ->). split; [done|]. by exists c.
  - intros ->. split.
    + apply (groupby_sum_accounts gi hj (rows df)); [|done|done].
      intros r Hr. specialize (Hrow r Hr). unfold gi.
      by destruct (gm r).
    + intros Hna. rewrite Hkeys. apply elem_of_group_keys. split; [done|].
      rewrite <- Hkeysmap. apply list_elem_of_fmap. by exists NA.
  - intros ->.
    destruct (series_sum_split hj P (rows df) total Hsum)
      as (t1 & t2 & H1 & H2 & ->).
    exists t1. split.
    + change (with_month df)
        with {| columns := columns df; rows := filter P (rows df) |}.
      unfold duration_total. by rewrite Hh2.
    + assert (HP : filter (λ r, gi r ≠ NA) (rows df) = filter P (rows df)).
      { apply filter_iff_in. intros r Hr. specialize (Hrow r Hr).
        unfold gi, P. by destruct (gm r). }
      rewrite <- (groupby_sum_dropna gi hj), HP in Hg.
      apply (groupby_sum_accounts gi hj (filter P (rows df))); [|done|done].
      intros r Hr. apply list_elem_of_filter in Hr as [HPr Hr].
      specialize (Hrow r Hr). unfold gi. unfold P in HPr.
      by destruct (gm r).
Qed.

Lemma month_agg_accounts_witness :
  (∃ g, month_agg (Str "NaT") table_months = Ok g ∧
     sum_nums g.*2 = Qc_of_Z 11 ∧ Str "NaT" ∈ g.*1) ∧
  (∃ g, month_agg NA table_months = Ok g ∧
     sum_nums g.*2 = Qc_of_Z 6 ∧ Str "NaT" ∉ g.*1).
Proof.
  destruct (month_agg_accounts (Str "NaT") table_months
              [Per 2024 2; Per 2024 1; Per 2024 1; NA] (Qc_of_Z 11))
    as (g & H1 & _ & _ & H2 & _).
  { by left. }
  { reflexivity. }
  { repeat constructor. }
  { apply (bool_decide_unpack _). vm_compute. exact I. }
  destruct (month_agg_accounts NA table_months
              [Per 2024 2; Per 2024 1; Per 2024 1; NA] (Qc_of_Z 11))
    as (g' & H1' & _ & Hk & _ & H3).
  { by right. }
  { reflexivity. }
  { repeat constructor. }
  { apply (bool_decide_unpack _). vm_compute. exact I. }
  split.
  - destruct (H2 eq_refl) as [Hs Hin].
    exists g. split; [exact H1|]. split; [exact Hs|].
    apply Hin. apply (bool_decide_unpack _). vm_compute. exact I.
  - destruct (H3 eq_refl) as (dated & Hd & Hs).
    exists g'. split; [exact H1'|]. split.
    + rewrite Hs.
      assert (E : duration_total (with_month table_months) = Ok (Qc_of_Z 6)).
      { apply (bool_decide_unpack _). vm_compute. exact I. }
      rewrite E in Hd. by injection Hd as <-.
    + intros Hin. apply Hk in Hin as (_ & c & Hc & Hl).
      change (c ∈ [Per 2024 2; Per 2024 1; Per 2024 1; NA]) in Hc.
      repeat (apply elem_of_cons in Hc as [->|Hc]; [discriminate Hl|]).
      by apply elem_of_nil in Hc.
Defined.

(** The table of the four sessions, evaluated: January, February, and the
    session without a start under NaT where that is its text, and dropped
    where it stays missing. *)
Example month_agg_months :
  (month_agg (Str "NaT") table_months ≫= λ g, Ok g.*1)
  = Ok [Str "2024-01"; Str "2024-02"; Str "NaT"] ∧
  (month_agg NA table_months ≫= λ g, Ok g.*1)
  = Ok [Str "2024-01"; Str "2024-02"].
Proof. split; reflexivity. Qed.
(** ** When the charts can be drawn *)

Lemma series_mean_Ok (s : Series) : Forall numeric s → is_Ok (series_mean s).
Proof.
  intros H. apply series_sum_numeric in H as [t Ht].
  unfold series_mean. rewrite Ht. by eexists.
Qed.

(** The run of [main_charts] on a table that has its columns: the four
    computations return, and what is left are the two plots. *)
Lemma main_charts_run nat_text px_bar px_area (df : DataFrame)
    (hours months : Series) :
  has_column df "GAME" →
  getitem df "duration_hours" = Ok hours →
  getitem df "month" = Ok months →
  Forall numeric hours →
  Forall is_period months →
  ∃ m a t g,
    top_games df = Ok t ∧
    month_agg nat_text df = Ok g ∧
    total_sessions m = length (rows df) ∧
    series_sum hours = Ok (total_hours m) ∧
    main_charts nat_text px_bar px_area df
    = (px_bar t;; px_area g;; Ok (mkCharts m a t g)).
Proof.
  intros Hg Hh Hm Hnum Hper.
  destruct (has_column_getitem _ _ Hg) as [games Hgames].
  destruct (proj2 (series_sum_numeric hours) Hnum) as [t Ht].
  destruct (series_mean_Ok hours Hnum) as [a Ha].
  destruct (groupby_sum_groups games hours Hnum) as (top & Htop & _).
  destruct (groupby_sum_groups (map (month_label nat_text) months) hours Hnum)
    as (g & Hgm & _).
  unfold main_charts, show_summary_metrics, playtime_achievements,
    playtime_badges, top_games, month_agg.
  rewrite Hh, Hgames, Hm. simpl. rewrite Ht. simpl.
  rewrite (bool_decide_eq_true_2 _ (has_column_elem _ _ Hg)). simpl.
  rewrite (astype_str_period _ _ Hper). simpl. rewrite Htop, Hgm. simpl.
  case_bool_decide; simpl; rewrite ?Ha; simpl;
    eexists _, _, _, _; by repeat split.
Qed.

Lemma top_games_empty (df : DataFrame) (games : Series) t :
  getitem df "GAME" = Ok games →
  top_games df = Ok t →
  t = [] ↔ Forall (λ c, c = NA) games.
Proof.
  intros Hgames. unfold top_games. rewrite Hgames. simpl.
  destruct (getitem df "duration_hours") as [hours|]; simpl; [|done].
  destruct (groupby_sum games hours) as [sums|] eqn:Hs; simpl; [|done].
  intros [= <-].
  assert (Hkeys : sums.*1 = group_keys games).
  { unfold groupby_sum in Hs. clear Hgames.
    revert sums Hs. induction (group_keys games) as [|k ks IH];
      intros sums Hs; simpl in Hs.
    - by injection Hs as <-.
    - destruct (series_sum _); simpl in Hs; [|done].
      destruct (mapM _ ks) as [rest|]; simpl in Hs; [|done].
      injection Hs as <-. simpl. f_equal. by apply IH. }
  assert (Hnil : take 15 (sort_values_desc sums) = [] ↔ group_keys games = []).
  { rewrite <- Hkeys. split.
    - intros Ht. assert (Hl : length (sort_values_desc sums) = 0%nat).
      { destruct (sort_values_desc sums); [done|discriminate Ht]. }
      unfold sort_values_desc in Hl. rewrite sort_by_length in Hl.
      by destruct sums.
    - intros Ht. by destruct sums. }
  unfold series_head. rewrite Hnil, Forall_forall. split.
  - intros Hk c Hc. destruct (decide (c = NA)) as [|Hne]; [done|].
    assert (Hin : c ∈ group_keys games) by by apply elem_of_group_keys.
    rewrite Hk in Hin. by apply elem_of_nil in Hin.
  - intros Hall. destruct (group_keys games) as [|k ks] eqn:E; [done|].
    assert (Hin : k ∈ group_keys games) by (rewrite E; left).
    apply elem_of_group_keys in Hin as [Hne Hin]. by apply Hall in Hin.
Qed.

(** X14. On a table that has one [duration_hours], one [GAME] and one
    [month] column, durations that are numbers or missing, and months that
    are periods or missing, [main_charts] computes the summary, the
    achievements line and the two rollups, and whether it completes is up
    to the two plots: it returns what it computed when both plots are
    drawn, and it ends with the exception of the first plot that fails.
    The session count is the number of rows and the total the sum of the
    durations; the top-games rollup is empty exactly when no session has a
    title. *)
Theorem main_charts_drawn (nat_text : cell)
    (px_bar px_area : list (cell * Qc) → result unit)
    (df : DataFrame) (games hours months : Series) :
  getitem df "GAME" = Ok games →
  getitem df "duration_hours" = Ok hours →
  getitem df "month" = Ok months →
  Forall numeric hours →
  Forall is_period months →
  ∃ t g,
    top_games df = Ok t ∧
    month_agg nat_text df = Ok g ∧
    (t = [] ↔ Forall (λ c, c = NA) games) ∧
    (px_bar t = Ok () → px_area g = Ok () →
     ∃ c, main_charts nat_text px_bar px_area df = Ok c ∧
       top_games_chart c = t ∧ month_chart c = g ∧
       total_sessions (summary c) = length (rows df) ∧
       series_sum hours = Ok (total_hours (summary c))) ∧
    (∀ e, px_bar t = Raise e →
       main_charts nat_text px_bar px_area df = Raise e) ∧
    (∀ e, px_bar t = Ok () → px_area g = Raise e →
       main_charts nat_text px_bar px_area df = Raise e).
Proof.
  intros Hgames Hh Hm Hnum Hper.
  pose proof (getitem_Ok_has_column _ _ _ Hgames) as Hg.
  destruct (main_charts_run nat_text px_bar px_area df hours months
              Hg Hh Hm Hnum Hper)
    as (m & a & t & g & Ht & Hgm & Hs & Hsum & Hrun).
  exists t, g. split; [done|]. split; [done|].
  split; [by apply (top_games_empty df)|].
  rewrite Hrun. split; [|split].
  - intros -> ->. simpl. eexists. by repeat split.
  - by intros e ->.
  - by intros e -> ->.
Qed.

Lemma main_charts_drawn_witness :
  (∃ c, main_charts (Str "NaT") plot_nonempty plot_nonempty table_months
        = Ok c ∧
     total_sessions (summary c) = 4%nat) ∧
  main_charts (Str "NaT") plot_nonempty plot_nonempty table_no_title
  = Raise ValueError.
Proof.
  destruct (main_charts_drawn (Str "NaT") plot_nonempty plot_nonempty
              table_months
              [Str "Zelda"; Str "Tetris"; Str "Zelda"; Str "Pong"]
              [Num (Qc_of_Z 2); Num (Qc_of_Z 1); Num (Qc_of_Z 3);
               Num (Qc_of_Z 5)]
              [Per 2024 2; Per 2024 1; Per 2024 1; NA])
    as (t & g & Ht & Hg & _ & Hok & _).
  { reflexivity. }
  { reflexivity. }
  { reflexivity. }
  { repeat constructor. }
  { repeat constructor. }
  destruct (main_charts_drawn (Str "NaT") plot_nonempty plot_nonempty
              table_no_title [NA] [Num (Qc_of_Z 5)] [NA])
    as (t' & g' & Ht' & _ & He & _ & Hbar & _).
  { reflexivity. }
  { reflexivity. }
  { reflexivity. }
  { repeat constructor. }
  { repeat constructor. }
  split.
  - destruct Hok as (c & Hc & _ & _ & Hs & _).
    + assert (E : Ok t = top_games table_months) by (symmetry; exact Ht).
      injection E as ->. reflexivity.
    + assert (E : Ok g = month_agg (Str "NaT") table_months)
        by (symmetry; exact Hg).
      injection E as ->. reflexivity.
    + exists c. split; [exact Hc|exact Hs].
  - apply Hbar. rewrite (proj2 He); [reflexivity|]. repeat constructor.
Defined.
(** ** Game cards *)

Lemma mapM_Ok_lookup {A B} (f : A → result B) (l : list A) (ys : list B) :
  mapM f l = Ok ys →
  length ys = length l ∧
  ∀ i x, l !! i = Some x → ∃ y, ys !! i = Some y ∧ f x = Ok y.
Proof.
  revert ys. induction l as [|x l IH]; simpl; intros ys.
  { intros [= <-]. split; [done|]. intros i x. by rewrite lookup_nil. }
  destruct (f x) as [y|] eqn:Hy; simpl; [|done].
  destruct (mapM f l) as [ys'|]; simpl; [|done].
  intros [= <-]. destruct (IH ys' eq_refl) as [Hlen Hl].
  split; [simpl; by rewrite Hlen|].
  intros [|i] x'; simpl; [|by apply Hl].
  intros [= <-]. by exists y.
Qed.

Lemma mapM_Raise_all {A B} (f : A → result B) (l : list A) (e : exn) :
  l ≠ [] → (∀ x, f x = Raise e) → mapM f l = Raise e.
Proof. intros Hl Hf. destruct l as [|x l]; [done|]. simpl. by rewrite Hf. Qed.

Lemma row_item_Ok cols r c :
  c ∈ cols → row_item cols r c = Ok (map (cell_at r) (positions c cols 0)).
Proof.
  intros Hin. unfold row_item.
  destruct (positions c cols 0) eqn:E; [|done].
  by apply positions_nil in E.
Qed.

(** X15. With a [Game] column, every row of the register gets a card, in the
    order of the rows, the card of the row at position [i] is written to
    page column [i mod 4], and where the register lacks an optional column
    the card shows the fallback: an empty text, or 0 for time and price. *)
Theorem game_card_view_cards (df_register : DataFrame) :
  "Game" ∈ columns df_register →
  ∃ cards, game_card_view df_register = Ok cards ∧
    length cards = length (rows df_register) ∧
    ∀ i r, rows df_register !! i = Some r →
      ∃ c, cards !! i = Some ((i mod 4)%nat, c) ∧
        title c = map (cell_at r) (positions "Game" (columns df_register) 0) ∧
        ("Game Image" ∉ columns df_register → cover c = [Str ""]) ∧
        ("System" ∉ columns df_register → system c = [Str ""]) ∧
        ("Genre" ∉ columns df_register → genre c = [Str ""]) ∧
        ("Total Time" ∉ columns df_register → total_time c = [Num 0%Qc]) ∧
        ("Total Price Paid" ∉ columns df_register →
         price_paid c = [Num 0%Qc]).
Proof.
  intros Hin.
  assert (Hcard : ∀ r, ∃ c, game_card (columns df_register) r = Ok c ∧
            title c = map (cell_at r) (positions "Game" (columns df_register) 0) ∧
            ("Game Image" ∉ columns df_register → cover c = [Str ""]) ∧
            ("System" ∉ columns df_register → system c = [Str ""]) ∧
            ("Genre" ∉ columns df_register → genre c = [Str ""]) ∧
            ("Total Time" ∉ columns df_register → total_time c = [Num 0%Qc]) ∧
            ("Total Price Paid" ∉ columns df_register →
             price_paid c = [Num 0%Qc])).
  { intros r. unfold game_card. rewrite (row_item_Ok _ _ _ Hin). simpl.
    eexists. split; [done|]. simpl. split; [done|].
    repeat split; intros Hn; apply (positions_nil _ _ 0%nat) in Hn;
      unfold row_get_default; by rewrite Hn. }
  destruct (mapM_result
    (λ ir : nat * list cell,
       c ← game_card (columns df_register) ir.2; Ok ((ir.1 mod 4)%nat, c))
    (imap pair (rows df_register))) as (cards & Hcards & _).
  { apply Forall_forall. intros [i r] _. simpl.
    destruct (Hcard r) as (c & -> & _). by eexists. }
  exists cards. split; [done|].
  apply mapM_Ok_lookup in Hcards as [Hlen Hl].
  split; [by rewrite Hlen, length_imap|].
  intros i r Hr.
  destruct (Hl i (i, r)) as ([j c] & Hc & Hf).
  { by rewrite list_lookup_imap, Hr. }
  simpl in Hf. destruct (Hcard r) as (c' & Hc' & Hrest).
  rewrite Hc' in Hf. simpl in Hf. injection Hf as <- <-.
  by exists c'.
Qed.

Lemma game_card_view_cards_witness :
  ∃ cards, game_card_view reg_five = Ok cards ∧
    length cards = 5%nat ∧
    ∃ c, cards !! 4%nat = Some (0%nat, c) ∧
      title c = [Str "Doom"] ∧ cover c = [Str ""] ∧
      total_time c = [Num 0%Qc].
Proof.
  destruct (game_card_view_cards reg_five) as (cards & Hc & Hlen & Hrows).
  - apply (bool_decide_unpack _). vm_compute. exact I.
  - exists cards. split; [exact Hc|]. split; [exact Hlen|].
    destruct (Hrows 4%nat [Str "Doom"; Str "PC"])
      as (c & H1 & H2 & H3 & _ & _ & H4 & _); [reflexivity|].
    exists c. split; [exact H1|]. split; [exact H2|].
    split; [apply H3|apply H4]; apply (bool_decide_unpack _); vm_compute;
      exact I.
Defined.

(** X16. Without a [Game] column the first card already fails, with the missing
    label, and no card is written; an empty register shows no card and
    needs no column. *)
Theorem game_card_view_missing_title (df_register : DataFrame) :
  (rows df_register = [] → game_card_view df_register = Ok []) ∧
  ("Game" ∉ columns df_register → rows df_register ≠ [] →
   game_card_view df_register = Raise (KeyError "Game")).
Proof.
  split.
  - intros Hr. unfold game_card_view. by rewrite Hr.
  - intros Hn Hr. unfold game_card_view. apply mapM_Raise_all.
    + destruct (rows df_register); [done|]. done.
    + intros [i r]. unfold game_card, row_item. simpl.
      apply (positions_nil _ _ 0%nat) in Hn. by rewrite Hn.
Qed.

Lemma game_card_view_missing_title_witness :
  game_card_view {| columns := ["Title"]; rows := [] |} = Ok [] ∧
  game_card_view reg_titles = Raise (KeyError "Game").
Proof.
  split.
  - apply (game_card_view_missing_title {| columns := ["Title"]; rows := [] |}).
    reflexivity.
  - apply (game_card_view_missing_title reg_titles).
    + apply (bool_decide_unpack _). vm_compute. exact I.
    + discriminate.
Defined.

Lemma filter_mod_seq (j n : nat) :
  (j < 4)%nat →
  length (filter (λ i, (i mod 4)%nat = j) (seq 0 n)) = ((n + 3 - j) / 4)%nat.
Proof.
  intros Hj. induction n as [|n IH].
  { rewrite Nat.div_small by lia. done. }
  rewrite seq_S, filter_app, length_app, IH, Nat.add_0_l.
  rewrite filter_cons, filter_nil.
  replace (S n + 3 - j)%nat with (S (n + 3 - j)) by lia.
  pose proof (Nat.div_mod_eq (n + 3 - j) 4).
  pose proof (Nat.div_mod_eq (S (n + 3 - j)) 4).
  pose proof (Nat.div_mod_eq n 4).
  pose proof (Nat.mod_upper_bound (n + 3 - j) 4).
  pose proof (Nat.mod_upper_bound (S (n + 3 - j)) 4).
  pose proof (Nat.mod_upper_bound n 4).
  case_decide; cbn [length]; lia.
Qed.

(** X17. The cards are dealt to the four page columns in turn, so no column
    holds more than one card more than another: of [n] cards, column [j]
    holds [(n + 3 - j) / 4]. *)
Theorem game_card_view_balanced (df_register : DataFrame)
    (cards : list (nat * card)) (j : nat) :
  game_card_view df_register = Ok cards →
  (j < 4)%nat →
  length (filter (λ ic, ic.1 = j) cards)
  = ((length (rows df_register) + 3 - j) / 4)%nat.
Proof.
  intros Hc Hj. rewrite <- (filter_mod_seq j _ Hj).
  assert (Hcols : cards.*1
                  = map (λ i, (i mod 4)%nat) (seq 0 (length (rows df_register)))).
  { unfold game_card_view in Hc. apply mapM_Ok_lookup in Hc as [Hlen Hl].
    rewrite length_imap in Hlen.
    apply list_eq. intros i. rewrite !list_lookup_fmap.
    destruct (rows df_register !! i) as [r|] eqn:Hr.
    - destruct (Hl i (i, r)) as ([k c] & Hk & Hf).
      { by rewrite list_lookup_imap, Hr. }
      simpl in Hf. destruct (game_card _ r); simpl in Hf; [|done].
      injection Hf as <- <-. rewrite Hk. simpl.
      rewrite lookup_seq_lt by (by eapply lookup_lt_Some). done.
    - apply lookup_ge_None in Hr.
      rewrite lookup_ge_None_2 by lia.
      by rewrite lookup_seq_ge by lia. }
  transitivity (length (filter (λ k, k = j) cards.*1)).
  { rewrite (filter_map fst (λ k, k = j)). by rewrite length_map. }
  rewrite Hcols, (filter_map (λ i, (i mod 4)%nat) (λ k, k = j)).
  by rewrite length_map.
Qed.

Lemma game_card_view_balanced_witness :
  ∃ cards, game_card_view reg_five = Ok cards ∧
    length (filter (λ ic, ic.1 = 0%nat) cards) = 2%nat ∧
    length (filter (λ ic, ic.1 = 3%nat) cards) = 1%nat.
Proof.
  eexists. split; [reflexivity|]. split.
  - apply (game_card_view_balanced reg_five _ 0%nat); [reflexivity|lia].
  - apply (game_card_view_balanced reg_five _ 3%nat); [reflexivity|lia].
Defined.
(** ** The session form *)

Lemma Qc_of_Z_mult (a b : Z) : Qc_of_Z (a * b) = (Qc_of_Z a * Qc_of_Z b)%Qc.
Proof.
  apply Qc_is_canon. unfold Qc_of_Z, Qcmult, Q2Qc. cbn [this].
  by rewrite !Qred_correct, inject_Z_mult.
Qed.

Lemma Qc_of_Z_hundredths (x : Qc) (n m : Z) :
  (Qc_of_Z (2 * n - 1) ≤ Qc_of_Z 200 * x)%Qc →
  (Qc_of_Z 100 * x ≤ Qc_of_Z m)%Qc →
  n ≤ m.
Proof.
  unfold Qcle. simpl. rewrite !Qred_correct. intros H1 H2.
  assert (H : (inject_Z (2 * n - 1) <= inject_Z (2 * m))%Q).
  { rewrite inject_Z_mult. change (inject_Z 2) with 2%Q.
    change (inject_Z 200) with 200%Q in H1.
    change (inject_Z 100) with 100%Q in H2. lra. }
  rewrite <- Zle_Qle in H. lia.
Qed.

Lemma Qc_of_Z_hundredths_ge (x : Qc) (n m : Z) :
  (Qc_of_Z 200 * x ≤ Qc_of_Z (2 * n + 1))%Qc →
  (Qc_of_Z m ≤ Qc_of_Z 100 * x)%Qc →
  m ≤ n.
Proof.
  unfold Qcle. simpl. rewrite !Qred_correct. intros H1 H2.
  assert (H : (inject_Z (2 * m) <= inject_Z (2 * n + 1))%Q).
  { rewrite inject_Z_mult. change (inject_Z 2) with 2%Q.
    change (inject_Z 200) with 200%Q in H1.
    change (inject_Z 100) with 100%Q in H2. lra. }
  rewrite <- Zle_Qle in H. lia.
Qed.

Lemma Qc_hundredths_le (n m : Z) :
  n ≤ m → (Qc_of_Z n / Qc_of_Z 100 ≤ Qc_of_Z m / Qc_of_Z 100)%Qc.
Proof.
  intros H. unfold Qcdiv. apply Qcmult_le_compat_r; [by apply Qc_of_Z_le|].
  done.
Qed.

(** Rounding to two decimals does not cross a whole number of
    hundredths. *)
Lemma round_float_2_le (x : Qc) (m : Z) :
  ((x ≤ Qc_of_Z m / Qc_of_Z 100)%Qc →
   (round_float 2 x ≤ Qc_of_Z m / Qc_of_Z 100)%Qc) ∧
  ((Qc_of_Z m / Qc_of_Z 100 ≤ x)%Qc →
   (Qc_of_Z m / Qc_of_Z 100 ≤ round_float 2 x)%Qc).
Proof.
  destruct (round_float_2 x) as (n & -> & Hlo & Hhi).
  assert (H100 : ∀ y : Qc, (y / Qc_of_Z 100 * Qc_of_Z 100 = y)%Qc).
  { intros y. field. done. }
  split; intros Hx; apply Qc_hundredths_le.
  - apply (Qc_of_Z_hundredths x); [done|].
    rewrite <- (H100 (Qc_of_Z m)), (Qcmult_comm (Qc_of_Z 100)).
    by apply Qcmult_le_compat_r.
  - apply (Qc_of_Z_hundredths_ge x); [done|].
    rewrite <- (H100 (Qc_of_Z m)), (Qcmult_comm (Qc_of_Z 100)).
    by apply Qcmult_le_compat_r.
Qed.

Lemma session_duration_clock (i : session_input) :
  session_duration i
  = round_float 2
      (Qc_of_Z (clock_micros (in_end_time i) - clock_micros (in_start_time i))
       / Qc_of_Z 1000000 / Qc_of_Z 3600)%Qc.
Proof.
  unfold session_duration, seconds_between, combine, datetime_micros,
    clock_micros. do 4 f_equal. lia.
Qed.

Lemma hours_le_hundredths (a m : Z) :
  a * 100 ≤ m * 3600000000 →
  (Qc_of_Z a / Qc_of_Z 1000000 / Qc_of_Z 3600
   ≤ Qc_of_Z m / Qc_of_Z 100)%Qc.
Proof.
  intros H. rewrite Zle_Qle, !inject_Z_mult in H.
  unfold Qcle. simpl. rewrite !Qred_correct.
  assert (E1 : (inject_Z a * / inject_Z 1000000 * / inject_Z 3600
                == inject_Z a * inject_Z 100 * / 360000000000)%Q) by field.
  assert (E2 : (inject_Z m * / inject_Z 100
                == inject_Z m * inject_Z 3600000000 * / 360000000000)%Q)
    by field.
  rewrite E1, E2. by apply Qmult_le_compat_r.
Qed.

Lemma hundredths_le_hours (a m : Z) :
  m * 3600000000 ≤ a * 100 →
  (Qc_of_Z m / Qc_of_Z 100
   ≤ Qc_of_Z a / Qc_of_Z 1000000 / Qc_of_Z 3600)%Qc.
Proof.
  intros H. rewrite Zle_Qle, !inject_Z_mult in H.
  unfold Qcle. simpl. rewrite !Qred_correct.
  assert (E1 : (inject_Z a * / inject_Z 1000000 * / inject_Z 3600
                == inject_Z a * inject_Z 100 * / 360000000000)%Q) by field.
  assert (E2 : (inject_Z m * / inject_Z 100
                == inject_Z m * inject_Z 3600000000 * / 360000000000)%Q)
    by field.
  rewrite E1, E2. by apply Qmult_le_compat_r.
Qed.

(** X18. The form puts both times on the date entered, so the duration depends
    on the two clock times only: a session that ends at an earlier clock
    time than it starts, as one that runs past midnight does, gets a
    negative duration, and no duration exceeds 24 hours either way. *)
Theorem session_duration_same_day (i : session_input) :
  valid_time (in_start_time i) →
  valid_time (in_end_time i) →
  let s := clock_micros (in_start_time i) in
  let e := clock_micros (in_end_time i) in
  (e ≤ s → (session_duration i ≤ 0)%Qc) ∧
  (s ≤ e → (0 ≤ session_duration i)%Qc) ∧
  (e + 3600000000 ≤ s → (session_duration i ≤ Qc_of_Z (-1))%Qc) ∧
  (Qc_of_Z (-24) ≤ session_duration i)%Qc ∧
  (session_duration i ≤ Qc_of_Z 24)%Qc ∧
  ∀ i', in_start_time i' = in_start_time i →
        in_end_time i' = in_end_time i →
        session_duration i' = session_duration i.
Proof.
  intros Hs He s e.
  assert (Hrange : ∀ t, valid_time t → 0 ≤ clock_micros t < 86400000000).
  { intros t (H1 & H2 & H3 & H4). unfold clock_micros. lia. }
  pose proof (Hrange _ Hs) as Hs'. pose proof (Hrange _ He) as He'.
  fold s in Hs'. fold e in He'.
  rewrite session_duration_clock. fold s e.
  assert (Q0 : 0%Qc = (Qc_of_Z 0 / Qc_of_Z 100)%Qc) by by apply Qc_is_canon.
  assert (Q1 : Qc_of_Z (-1) = (Qc_of_Z (-100) / Qc_of_Z 100)%Qc)
    by by apply Qc_is_canon.
  assert (Q24 : Qc_of_Z 24 = (Qc_of_Z 2400 / Qc_of_Z 100)%Qc)
    by by apply Qc_is_canon.
  assert (Q24' : Qc_of_Z (-24) = (Qc_of_Z (-2400) / Qc_of_Z 100)%Qc)
    by by apply Qc_is_canon.
  split; [|split; [|split; [|split; [|split]]]].
  - intros Hle. rewrite Q0. apply round_float_2_le, hours_le_hundredths. lia.
  - intros Hle. rewrite Q0. apply round_float_2_le, hundredths_le_hours. lia.
  - intros Hle. rewrite Q1. apply round_float_2_le, hours_le_hundredths. lia.
  - rewrite Q24'. apply round_float_2_le, hundredths_le_hours. lia.
  - rewrite Q24. apply round_float_2_le, hours_le_hundredths. lia.
  - intros i' E1 E2. by rewrite session_duration_clock, E1, E2.
Qed.

Lemma session_duration_same_day_witness :
  (session_duration session_late ≤ Qc_of_Z (-1))%Qc ∧
  (Qc_of_Z (-24) ≤ session_duration session_late)%Qc.
Proof.
  destruct (session_duration_same_day session_late)
    as (_ & _ & H1 & H2 & _).
  - unfold valid_time. simpl. lia.
  - unfold valid_time. simpl. lia.
  - split; [apply H1; vm_compute; discriminate|exact H2].
Defined.

(** The late session, evaluated: two hours of play are logged as minus
    twenty-two hours. *)
Example session_late_duration :
  session_duration session_late = Qc_of_Z (-22).
Proof. apply (bool_decide_unpack _). vm_compute. exact I. Qed.
(** ** From the form to the dashboard *)

Lemma load_append read_back sheet row_dict :
  load_from_gsheet (append_to_gsheet read_back sheet row_dict)
  = {| columns := header sheet;
       rows := records sheet ++ [map read_back row_dict.*2] |}.
Proof.
  unfold load_from_gsheet, append_to_gsheet. simpl.
  by destruct (records sheet).
Qed.

Lemma hours_between_micros (a b : Z) :
  hours_between (1000 * a) (1000 * b)
  = (Qc_of_Z (b - a) / Qc_of_Z 1000000 / Qc_of_Z 3600)%Qc.
Proof.
  unfold hours_between, ns_per_second.
  replace (1000 * b - 1000 * a) with (1000 * (b - a)) by lia.
  change 1000000000 with (1000 * 1000000). rewrite !Qc_of_Z_mult.
  field. repeat split; done.
Qed.

(** X19. A session entered in the form, appended to a log sheet that has
    the columns of the form in the form's order, and read again (once the
    cached load has expired): the dashboard derives for it the duration
    that the form stored in [Duration Hours].  The clock times are in whole
    minutes, as the time widget hands them over; the sheet returns the two
    ISO texts and the duration as they were written, and the date parser
    reads the two texts. *)
Theorem session_round_trip (parse : cell → option Z)
    (read_back : cell → cell) (i : session_input) (sheet : Worksheet)
    (h : gmap positive DataFrame) (l : positive) :
  in_submitted i = true →
  header sheet = log_header →
  Forall (λ r, length r = length log_header) (records sheet) →
  whole_minutes (in_start_time i) →
  whole_minutes (in_end_time i) →
  let full_start := combine (in_date i) (in_start_time i) in
  let full_end := combine (in_date i) (in_end_time i) in
  read_back (text (datetime_isoformat full_start))
  = text (datetime_isoformat full_start) →
  read_back (text (datetime_isoformat full_end))
  = text (datetime_isoformat full_end) →
  read_back (Num (session_duration i)) = Num (session_duration i) →
  parse (text (datetime_isoformat full_start))
  = Some (1000 * datetime_micros full_start) →
  parse (text (datetime_isoformat full_end))
  = Some (1000 * datetime_micros full_end) →
  h !! l = Some (load_from_gsheet (new_session_form read_back i sheet)) →
  ∃ out r,
    normalize_log_df parse l h = (Ok l, <[l := out]> h) ∧
    length (rows out) = S (length (records sheet)) ∧
    rows out !! length (records sheet) = Some r ∧
    row_get (columns out) r "Duration Hours" = Num (session_duration i) ∧
    row_get (columns out) r "duration_hours" = Num (session_duration i).
Proof.
  intros Hsub Hhead Hrec _ _ full_start full_end Hrs Hre Hrd Hps Hpe Hl.
  unfold new_session_form in Hl. rewrite Hsub, load_append, Hhead in Hl.
  set (vals := map read_back (session_row i).*2) in *.
  set (df := {| columns := log_header; rows := records sheet ++ [vals] |})
    in *.
  assert (Hwf : wf_frame df).
  { unfold wf_frame, df. simpl. apply Forall_app. split; [done|].
    by constructor. }
  assert (HS : has_column (stripped df) "Full Start") by by exists 7%nat.
  assert (HE : has_column (stripped df) "Full End") by by exists 8%nat.
  assert (Hr : rows df !! length (records sheet) = Some vals).
  { unfold df. simpl. by rewrite list_lookup_middle. }
  exists (normalized parse df).
  destruct (normalized_row parse df _ vals Hwf Hr)
    as (r' & Hr' & _ & _ & Hd & _).
  exists r'. split; [by apply normalize_log_df_normalized|].
  split.
  { unfold normalized, derive. simpl.
    rewrite !length_map, length_app. simpl. lia. }
  split; [done|].
  destruct (normalized_row_other parse df _ vals "Duration Hours" Hwf Hr)
    as (r2 & Hr2 & Hdh).
  { rewrite !elem_of_cons, elem_of_nil. intros H. by destruct_or!. }
  rewrite Hr' in Hr2. injection Hr2 as <-.
  split.
  { rewrite Hdh.
    change (row_get (map strip (columns df)) vals "Duration Hours")
      with (read_back (Num (session_duration i))). exact Hrd. }
  cbv zeta in Hd. rewrite Hd.
  change (row_get (map strip (columns df)) vals "Full Start")
    with (read_back (text (datetime_isoformat full_start))).
  change (row_get (map strip (columns df)) vals "Full End")
    with (read_back (text (datetime_isoformat full_end))).
  rewrite Hrs, Hre.
  assert (ES : to_datetime_cell parse (text (datetime_isoformat full_start))
               = Ts (1000 * datetime_micros full_start)).
  { unfold text in *. unfold to_datetime_cell. by rewrite Hps. }
  assert (EE : to_datetime_cell parse (text (datetime_isoformat full_end))
               = Ts (1000 * datetime_micros full_end)).
  { unfold text in *. unfold to_datetime_cell. by rewrite Hpe. }
  rewrite ES, EE. unfold duration_cell. f_equal.
  rewrite hours_between_micros. unfold session_duration, seconds_between.
  done.
Qed.

Lemma session_round_trip_witness :
  ∃ out r,
    normalize_log_df parse_iso_cell 1%positive
      {[1%positive :=
          load_from_gsheet
            (new_session_form (λ c, c) session_evening log_sheet_a)]}
    = (Ok 1%positive,
       <[1%positive := out]>
         {[1%positive :=
             load_from_gsheet
               (new_session_form (λ c, c) session_evening log_sheet_a)]}) ∧
    rows out !! 1%nat = Some r ∧
    row_get (columns out) r "Duration Hours"
    = Num (session_duration session_evening) ∧
    row_get (columns out) r "duration_hours"
    = Num (session_duration session_evening).
Proof.
  destruct (session_round_trip parse_iso_cell (λ c, c) session_evening
              log_sheet_a
              {[1%positive :=
                  load_from_gsheet
                    (new_session_form (λ c, c) session_evening log_sheet_a)]}
              1%positive)
    as (out & r & H1 & _ & H2 & H3 & H4).
  - reflexivity.
  - reflexivity.
  - repeat constructor.
  - split; reflexivity.
  - split; reflexivity.
  - reflexivity.
  - reflexivity.
  - reflexivity.
  - vm_compute. reflexivity.
  - vm_compute. reflexivity.
  - reflexivity.
  - exists out, r. split; [exact H1|]. split; [exact H2|].
    split; [exact H3|exact H4].
Defined.

(** The evening session, evaluated: two and a half hours. *)
Example session_evening_duration :
  session_duration session_evening = Q2Qc (5 # 2).
Proof. apply (bool_decide_unpack _). vm_compute. exact I. Qed.
(** ** The page *)

Lemma heap_two (a b : DataFrame) :
  let h : gmap positive DataFrame := <[2%positive := b]> {[1%positive := a]} in
  h !! 1%positive = Some a ∧ h !! 2%positive = Some b.
Proof.
  split.
  - rewrite lookup_insert_ne by done. apply lookup_singleton_eq.
  - apply lookup_insert_eq.
Qed.

(** The load, as a composition of the functions on tables. *)
Lemma app_load_run parse multiselect km nat_text px_bar px_area
    log_sheet reg_sheet :
  app_load parse multiselect km nat_text px_bar px_area log_sheet reg_sheet
  = match normalize_log_frame parse (load_from_gsheet log_sheet) with
    | Raise e => Failed e
    | Ok log_df =>
        let reg_df := stripped (load_from_gsheet reg_sheet) in
        match merge_data km log_df reg_df with
        | Raise e => Failed e
        | Ok merged =>
            match genre_filter multiselect reg_df with
            | Raise e => Failed e
            | Ok filtered =>
                match main_charts nat_text px_bar px_area merged with
                | Raise e => Failed e
                | Ok c =>
                    match game_card_view filtered with
                    | Raise e => Failed e
                    | Ok cards => Shown c cards
                    end
                end
            end
        end
    end.
Proof.
  unfold app_load.
  set (h := <[2%positive := _]> _).
  destruct (heap_two (load_from_gsheet log_sheet) (load_from_gsheet reg_sheet))
    as [H1 H2]. fold h in H1, H2.
  destruct (normalize_log_df_run parse h 1%positive _ H1)
    as (res & h' & Hrun & Hres & Hh' & Hother).
  rewrite Hrun.
  destruct (normalize_log_frame parse (load_from_gsheet log_sheet))
    as [log_df|] eqn:Hf; simpl in Hres; subst res; [|done].
  pose proof (Hh' _ eq_refl) as ->. clear Hh' Hother.
  assert (H2' : <[1%positive := log_df]> h !! 2%positive
                = Some (load_from_gsheet reg_sheet)).
  { by rewrite lookup_insert_ne. }
  rewrite (normalize_register_df_run _ _ _ H2').
  rewrite lookup_insert_ne by done. rewrite lookup_insert_eq.
  rewrite lookup_insert_eq. done.
Qed.

(** What a page that shows has computed on the way. *)
Lemma app_load_Shown parse multiselect km nat_text px_bar px_area
    log_sheet reg_sheet c cards :
  app_load parse multiselect km nat_text px_bar px_area log_sheet reg_sheet
  = Shown c cards →
  ∃ log_df merged filtered,
    let reg_df := stripped (load_from_gsheet reg_sheet) in
    normalize_log_frame parse (load_from_gsheet log_sheet) = Ok log_df ∧
    merge_data km log_df reg_df = Ok merged ∧
    genre_filter multiselect reg_df = Ok filtered ∧
    main_charts nat_text px_bar px_area merged = Ok c ∧
    game_card_view filtered = Ok cards.
Proof.
  rewrite app_load_run.
  destruct (normalize_log_frame parse (load_from_gsheet log_sheet))
    as [log_df|]; [|done]. cbv zeta.
  destruct (merge_data km log_df _) as [merged|] eqn:Hm; [|done].
  destruct (genre_filter multiselect _) as [filtered|] eqn:Hg; [|done].
  destruct (main_charts _ _ _ merged) as [c'|] eqn:Hc; [|done].
  destruct (game_card_view filtered) as [cards'|] eqn:Hv; [|done].
  intros [= <- <-]. by exists log_df, merged, filtered.
Qed.

Lemma genre_filter_sublist multiselect df out :
  genre_filter multiselect df = Ok out →
  columns out = columns df ∧ rows out `sublist_of` rows df.
Proof.
  unfold genre_filter.
  destruct (genre_positions (columns df) 0); [by intros [= <-]|].
  destruct (sorted _) as [options|]; simpl; [|done].
  destruct (multiselect options); [by intros [= <-]|].
  intros [= <-]. split; [done|]. unfold any_isin.
  rewrite select_rows_filter. simpl. apply sublist_filter.
Qed.

Lemma game_card_view_length df cards :
  game_card_view df = Ok cards → length cards = length (rows df).
Proof.
  unfold game_card_view. intros H. apply mapM_Ok_lookup in H as [-> _].
  apply length_imap.
Qed.

(** X20. The genre selection reaches the game cards only: whatever is selected,
    a page that shows has the same summary, achievements and charts, all
    computed from the whole log and the whole register, and at most one
    card per register row. *)
Theorem app_load_charts_unfiltered (parse : cell → option Z)
    (ms1 ms2 : list cell → list cell)
    (keys_mergeable : list cell → list cell → bool) (nat_text : cell)
    (px_bar px_area : list (cell * Qc) → result unit)
    (log_sheet reg_sheet : Worksheet)
    (c1 c2 : charts) (cards1 cards2 : list (nat * card)) :
  app_load parse ms1 keys_mergeable nat_text px_bar px_area log_sheet reg_sheet
  = Shown c1 cards1 →
  app_load parse ms2 keys_mergeable nat_text px_bar px_area log_sheet reg_sheet
  = Shown c2 cards2 →
  c1 = c2 ∧
  (length cards1 ≤ length (records reg_sheet))%nat ∧
  (length cards2 ≤ length (records reg_sheet))%nat.
Proof.
  intros (l1 & m1 & f1 & Hn1 & Hm1 & Hg1 & Hc1 & Hv1)%app_load_Shown
         (l2 & m2 & f2 & Hn2 & Hm2 & Hg2 & Hc2 & Hv2)%app_load_Shown.
  rewrite Hn1 in Hn2. injection Hn2 as <-.
  rewrite Hm1 in Hm2. injection Hm2 as <-.
  rewrite Hc1 in Hc2. injection Hc2 as <-.
  split; [done|].
  assert (Hlen : ∀ ms f cards,
            genre_filter ms (stripped (load_from_gsheet reg_sheet)) = Ok f →
            game_card_view f = Ok cards →
            (length cards ≤ length (records reg_sheet))%nat).
  { intros ms f cards Hg Hv.
    rewrite (game_card_view_length _ _ Hv).
    apply genre_filter_sublist in Hg as [_ Hsub].
    apply sublist_length in Hsub. etrans; [exact Hsub|].
    unfold stripped, load_from_gsheet. simpl.
    destruct (records reg_sheet); simpl; lia. }
  split; [exact (Hlen _ _ _ Hg1 Hv1)|exact (Hlen _ _ _ Hg2 Hv2)].
Qed.

Lemma app_load_charts_unfiltered_witness :
  ∃ c1 cards1 c2 cards2,
    app_load parse_iso_cell (λ _, []) keys_alike (Str "NaT") plot_nonempty
      plot_nonempty log_sheet_a reg_sheet_a
    = Shown c1 cards1 ∧
    app_load parse_iso_cell (λ _, [Str "RPG"]) keys_alike (Str "NaT")
      plot_nonempty plot_nonempty log_sheet_a reg_sheet_a
    = Shown c2 cards2 ∧
    c1 = c2 ∧
    (length cards1 ≤ 2)%nat ∧ (length cards2 ≤ 2)%nat.
Proof.
  eexists _, _, _, _. split; [vm_compute; reflexivity|].
  split; [vm_compute; reflexivity|].
  apply (app_load_charts_unfiltered parse_iso_cell (λ _, [])
           (λ _, [Str "RPG"]) keys_alike (Str "NaT") plot_nonempty
           plot_nonempty log_sheet_a reg_sheet_a);
    vm_compute; reflexivity.
Defined.

(** The two sheets, evaluated: both games have a card when nothing is
    selected, one has when RPG is. *)
Example app_load_cards :
  match app_load parse_iso_cell (λ _, []) keys_alike (Str "NaT")
          plot_nonempty plot_nonempty log_sheet_a reg_sheet_a,
        app_load parse_iso_cell (λ _, [Str "RPG"]) keys_alike (Str "NaT")
          plot_nonempty plot_nonempty log_sheet_a reg_sheet_a
  with
  | Shown _ cards1, Shown _ cards2 =>
      map (λ ic, (ic.1, title ic.2)) cards1
      = [(0%nat, [Str "Chrono Trigger"]); (1%nat, [Str "Tetris"])]
      ∧ map (λ ic, (ic.1, title ic.2)) cards2
        = [(0%nat, [Str "Chrono Trigger"])]
  | _, _ => False
  end.
Proof. vm_compute. split; reflexivity. Qed.

(** X21. A sheet without rows below its header loads as a table without
    columns, so the page cannot be built: with such a log or such a
    register the load ends in an error message. *)
Theorem app_load_no_records (parse : cell → option Z)
    (multiselect : list cell → list cell)
    (keys_mergeable : list cell → list cell → bool) (nat_text : cell)
    (px_bar px_area : list (cell * Qc) → result unit)
    (log_sheet reg_sheet : Worksheet) :
  records log_sheet = [] ∨ records reg_sheet = [] →
  ∃ e, app_load parse multiselect keys_mergeable nat_text px_bar px_area
         log_sheet reg_sheet = Failed e.
Proof.
  intros Hempty.
  destruct (app_load parse multiselect keys_mergeable nat_text px_bar px_area
              log_sheet reg_sheet) as [c cards|e]
    eqn:Happ; [|by exists e].
  exfalso.
  apply app_load_Shown in Happ
    as (log_df & merged & filtered & Hn & Hm & _).
  destruct Hempty as [Hl|Hr].
  - unfold load_from_gsheet in Hn. rewrite Hl in Hn. done.
  - unfold load_from_gsheet in Hm. rewrite Hr in Hm.
    unfold merge_data, stripped in Hm. simpl in Hm.
    rewrite andb_false_r in Hm. unfold pd_merge in Hm. simpl in Hm.
    done.
Qed.

Lemma app_load_no_records_witness :
  ∃ e, app_load parse_iso_cell (λ _, []) keys_alike (Str "NaT")
         plot_nonempty plot_nonempty log_sheet_blank reg_sheet_a
       = Failed e.
Proof.
  apply (app_load_no_records parse_iso_cell (λ _, []) keys_alike (Str "NaT")
           plot_nonempty plot_nonempty log_sheet_blank reg_sheet_a).
  left. reflexivity.
Defined.
(** ** When the page shows *)

Lemma derive_new_column c g df :
  c ∉ columns df →
  positions c (columns (derive c g df)) 0 = [length (columns df)].
Proof.
  intros Hn. simpl. unfold cols_after. rewrite decide_False by done.
  rewrite positions_app. apply (positions_nil _ _ 0%nat) in Hn. rewrite Hn.
  simpl. by rewrite decide_True.
Qed.

Lemma normalized_has_columns parse df :
  has_column (stripped df) "Full Start" →
  has_column (stripped df) "Full End" →
  "duration_hours" ∉ map strip (columns df) →
  "month" ∉ map strip (columns df) →
  has_column (normalized parse df) "duration_hours" ∧
  has_column (normalized parse df) "month" ∧
  ∀ c, c ∉ ["Full Start"; "Full End"; "duration_hours"; "month"; "weekday"] →
       positions c (columns (normalized parse df)) 0
       = positions c (map strip (columns df)) 0.
Proof.
  intros HS%has_column_elem HE%has_column_elem Hd Hm. simpl in HS, HE.
  unfold normalized. fold (stripped df).
  set (gS := λ cols r, to_datetime_cell parse (row_get cols r "Full Start")).
  set (gE := λ cols r, to_datetime_cell parse (row_get cols r "Full End")).
  set (gD := λ cols r, duration_cell (row_get cols r "Full End")
                                     (row_get cols r "Full Start")).
  set (gM := λ cols r, period_cell (gS cols r)).
  set (gW := λ cols r, day_name_cell (gS cols r)).
  set (d2 := derive "Full Start" gS (stripped df)).
  set (d3 := derive "Full End" gE d2).
  set (d4 := derive "duration_hours" gD d3).
  set (d5 := derive "month" gM d4).
  assert (E2 : columns d2 = map strip (columns df)).
  { unfold d2. simpl. by apply positions_cols_after_elem. }
  assert (E3 : columns d3 = map strip (columns df)).
  { change (columns d3) with (cols_after "Full End" (columns d2)).
    rewrite E2. by apply positions_cols_after_elem. }
  assert (H4 : positions "duration_hours" (columns d4) 0
               = [length (columns d3)]).
  { apply derive_new_column. by rewrite E3. }
  assert (Hm4 : "month" ∉ columns d4).
  { change (columns d4) with (cols_after "duration_hours" (columns d3)).
    rewrite elem_of_cols_after, E3. by intros [?|?]. }
  assert (H5 : positions "month" (columns d5) 0 = [length (columns d4)]).
  { by apply derive_new_column. }
  split; [|split].
  - exists (length (columns d3)).
    rewrite derive_has_column by by left.
    by rewrite derive_has_column by by left.
  - exists (length (columns d4)). by rewrite derive_has_column by by left.
  - intros c Hc. rewrite !elem_of_cons, elem_of_nil in Hc.
    clear E2 E3 H4 Hm4 H5. subst d5 d4 d3 d2.
    rewrite derive_has_column by (left; tauto).
    rewrite derive_has_column by (left; tauto).
    rewrite derive_has_column by (left; tauto).
    rewrite derive_has_column by (left; tauto).
    rewrite derive_has_column by (left; tauto). done.
Qed.

Lemma normalized_cells parse df r' :
  wf_frame df → r' ∈ rows (normalized parse df) →
  numeric (row_get (columns (normalized parse df)) r' "duration_hours") ∧
  is_period (row_get (columns (normalized parse df)) r' "month").
Proof.
  intros Hwf Hr'. apply list_elem_of_lookup in Hr' as [k Hk].
  assert (Hlen : length (rows (normalized parse df)) = length (rows df)).
  { unfold normalized, derive. simpl. by rewrite !length_map. }
  destruct (lookup_lt_is_Some_2 (rows df) k) as [r Hr].
  { rewrite <- Hlen. by eapply lookup_lt_Some. }
  destruct (normalized_row parse df k r Hwf Hr)
    as (r'' & Hr'' & _ & _ & Hd & Hm & _).
  rewrite Hk in Hr''. injection Hr'' as <-. cbv zeta in Hd, Hm.
  rewrite Hd, Hm. split.
  - unfold duration_cell. by repeat case_match.
  - unfold period_cell. by repeat case_match.
Qed.

Lemma normalized_wf parse df : wf_frame df → wf_frame (normalized parse df).
Proof.
  intros Hwf. unfold normalized. fold (stripped df).
  by repeat apply derive_wf; apply stripped_wf.
Qed.

Lemma normalized_key_series parse df c :
  wf_frame df →
  c ∉ ["Full Start"; "Full End"; "duration_hours"; "month"; "weekday"] →
  key_series (normalized parse df) c = key_series (stripped df) c.
Proof.
  intros Hwf Hc. unfold key_series. apply list_eq. intros k.
  rewrite !list_lookup_fmap.
  assert (Hlen : length (rows (normalized parse df)) = length (rows df)).
  { unfold normalized, derive. simpl. by rewrite !length_map. }
  change (rows (stripped df)) with (rows df).
  destruct (rows df !! k) as [r|] eqn:Hr.
  - destruct (normalized_row_other parse df k r c Hwf Hr Hc)
      as (r' & Hr' & Hget).
    rewrite Hr'. cbn [fmap option_fmap option_map]. f_equal. exact Hget.
  - apply lookup_ge_None in Hr. rewrite <- Hlen in Hr.
    apply lookup_ge_None in Hr. by rewrite Hr.
Qed.

Lemma merge_data_disjoint km log_df reg_df :
  has_column log_df "GAME" → has_column reg_df "Game" →
  (∀ c, c ∈ columns reg_df → c ∉ columns log_df) →
  km (key_series log_df "GAME") (key_series reg_df "Game") = true →
  merge_data km log_df reg_df
  = Ok {| columns := columns log_df ++ columns reg_df;
          rows := mjoin (map (fan_out ("GAME", "Game") log_df reg_df)
                           (rows log_df)) |}.
Proof.
  intros Hl Hr Hdis Hkm.
  assert (Hkeys : spec_join_key log_df reg_df = ("GAME", "Game")).
  { unfold spec_join_key. rewrite decide_False; [done|].
    intros [H1 H2]. by apply (Hdis "UID"). }
  pose proof (merge_data_run km log_df reg_df) as Hm. rewrite Hkeys in Hm.
  destruct (Hm Hl Hr) as (Hok & _). clear Hm.
  assert (Hx : suffix_overlap "_x" (catalog_labels ("GAME", "Game") reg_df)
                 (columns log_df) = columns log_df).
  { apply suffix_overlap_disjoint. intros c Hc Hc'. by apply (Hdis c). }
  assert (Hy : suffix_overlap "_y" (columns log_df)
                 (catalog_labels ("GAME", "Game") reg_df)
               = catalog_labels ("GAME", "Game") reg_df)
    by by apply suffix_overlap_disjoint.
  rewrite Hok.
  - by rewrite Hx, Hy.
  - split; [done|]. unfold no_collision. rewrite Hx, Hy.
    split; apply suffix_dups_same.
Qed.

Lemma merged_left_series keys log_df reg_df c i :
  wf_frame log_df →
  positions c (columns log_df) 0 = [i] →
  c ∉ columns reg_df →
  let out := {| columns := columns log_df ++ columns reg_df;
                rows := mjoin (map (fan_out keys log_df reg_df)
                                 (rows log_df)) |} in
  has_column out c ∧
  ∃ s, getitem out c = Ok s ∧
    ∀ x, x ∈ s → ∃ l, l ∈ rows log_df ∧ x = row_get (columns log_df) l c.
Proof.
  intros Hwf Hi Hn out.
  assert (Hp : positions c (columns out) 0 = [i]).
  { unfold out. simpl. rewrite positions_app, Hi.
    apply (positions_nil _ _ (0 + length (columns log_df))%nat) in Hn.
    by rewrite Hn. }
  split; [by exists i|].
  exists (map (λ o, cell_at o i) (rows out)).
  split; [unfold getitem; by rewrite Hp|].
  intros x Hx. apply list_elem_of_fmap in Hx as (o & -> & Ho).
  unfold out in Ho. simpl in Ho.
  apply list_elem_of_join in Ho as (g & Ho & Hg).
  apply list_elem_of_fmap in Hg as (l & -> & Hl).
  exists l. split; [done|].
  pose proof (fan_out_prefix keys log_df reg_df l) as Hpre.
  rewrite Forall_forall in Hpre. destruct (Hpre o Ho) as [k ->].
  unfold row_get. rewrite Hi. unfold cell_at.
  rewrite lookup_app_l; [done|].
  unfold wf_frame in Hwf. rewrite Forall_forall in Hwf. rewrite (Hwf l Hl).
  assert (Hin : i ∈ positions c (columns log_df) 0) by (rewrite Hi; left).
  apply positions_lt in Hin as [? _]. lia.
Qed.

Lemma genre_filter_Ok multiselect df :
  (∀ a b, is_tag df a → is_tag df b → kind a = kind b) →
  is_Ok (genre_filter multiselect df).
Proof.
  intros Hk. unfold genre_filter. fold (all_tags df).
  destruct (genre_positions (columns df) 0); [by eexists|].
  destruct (proj2 (sorted_Ok_iff (all_tags df))) as [options ->].
  { intros a b Ha Hb. apply Hk; by apply elem_of_all_tags. }
  simpl. destruct (multiselect options); by eexists.
Qed.

Lemma game_card_view_Ok df : "Game" ∈ columns df → is_Ok (game_card_view df).
Proof.
  intros Hin. unfold game_card_view.
  destruct (mapM_result
    (λ ir : nat * list cell,
       c ← game_card (columns df) ir.2; Ok ((ir.1 mod 4)%nat, c))
    (imap pair (rows df))) as (cards & Hcards & _); [|by exists cards].
  apply Forall_forall. intros [i r] _. simpl.
  unfold game_card. rewrite (row_item_Ok _ _ _ Hin). by eexists.
Qed.

Lemma length_join_ge {A B} (f : A → list B) (l : list A) :
  (∀ x, (1 ≤ length (f x))%nat) →
  (length l ≤ length (mjoin (map f l)))%nat.
Proof.
  intros Hf. induction l as [|x l IH]; simpl; [done|].
  rewrite length_app. specialize (Hf x). lia.
Qed.

(** X22. On a well-formed pair of sheets nothing but the merge check of
    pandas and the two plots can stop the load.  The sheets: a log with
    rows of the width of its header, one [Full Start], one [Full End] and
    one [GAME] column and no [duration_hours] or [month] column of its own;
    a register with one [Game] column, no label that the normalised log
    also has, and tags of one kind.  When the title columns of the two
    pass the check, then whatever the cells hold and whatever is selected,
    the log is normalised, the tables are merged and the two rollups are
    computed; when both plots are drawn the page shows, every logged
    session is counted and there is at most one card per register row; and
    when a plot fails the load ends with its exception. *)
Theorem app_load_shows (parse : cell → option Z)
    (multiselect : list cell → list cell)
    (keys_mergeable : list cell → list cell → bool) (nat_text : cell)
    (px_bar px_area : list (cell * Qc) → result unit)
    (log_sheet reg_sheet : Worksheet) :
  let log_df := load_from_gsheet log_sheet in
  let reg_df := stripped (load_from_gsheet reg_sheet) in
  let load := app_load parse multiselect keys_mergeable nat_text px_bar
                px_area log_sheet reg_sheet in
  wf_frame log_df →
  has_column (stripped log_df) "Full Start" →
  has_column (stripped log_df) "Full End" →
  has_column (stripped log_df) "GAME" →
  "duration_hours" ∉ columns (stripped log_df) →
  "month" ∉ columns (stripped log_df) →
  has_column reg_df "Game" →
  (∀ c, c ∈ columns reg_df →
     c ∉ columns (stripped log_df)
     ∧ c ∉ ["duration_hours"; "month"; "weekday"]) →
  (∀ a b, is_tag reg_df a → is_tag reg_df b → kind a = kind b) →
  keys_mergeable (key_series (stripped log_df) "GAME")
                 (key_series reg_df "Game") = true →
  ∃ log_n merged t g,
    normalize_log_frame parse log_df = Ok log_n ∧
    merge_data keys_mergeable log_n reg_df = Ok merged ∧
    top_games merged = Ok t ∧
    month_agg nat_text merged = Ok g ∧
    (px_bar t = Ok () → px_area g = Ok () →
     ∃ c cards, load = Shown c cards ∧
       (length (records log_sheet) ≤ total_sessions (summary c))%nat ∧
       (length cards ≤ length (records reg_sheet))%nat) ∧
    (∀ e, px_bar t = Raise e → load = Failed e) ∧
    (∀ e, px_bar t = Ok () → px_area g = Raise e → load = Failed e).
Proof.
  intros log_df reg_df load Hwf HS HE HG Hd Hm HGame Hdis Htags Hkm.
  set (N := normalized parse log_df).
  assert (Hnorm : normalize_log_frame parse log_df = Ok N).
  { destruct HS as [iS HS], HE as [iE HE].
    by apply (normalize_log_frame_normalized _ _ iS iE). }
  destruct (normalized_has_columns parse log_df HS HE Hd Hm)
    as ([id Hid] & [im Him] & Hother). fold N in Hid, Him, Hother.
  assert (HGN : has_column N "GAME").
  { destruct HG as [ig Hig]. exists ig. rewrite Hother; [done|].
    rewrite !elem_of_cons, elem_of_nil. intros H. by destruct_or!. }
  pose proof (normalized_wf parse log_df Hwf) as HwfN. fold N in HwfN.
  assert (HdisN : ∀ c, c ∈ columns reg_df → c ∉ columns N).
  { intros c Hc HcN. destruct (Hdis c Hc) as [H1 H2].
    apply (normalized_columns parse log_df c HS HE) in HcN as [?|?]; done. }
  assert (HkmN : keys_mergeable (key_series N "GAME")
                   (key_series reg_df "Game") = true).
  { unfold N. rewrite normalized_key_series; [done|done|].
    rewrite !elem_of_cons, elem_of_nil. intros H. by destruct_or!. }
  pose proof (merge_data_disjoint keys_mergeable N reg_df HGN HGame HdisN HkmN)
    as Hmerge.
  set (merged := {| columns := columns N ++ columns reg_df; rows := _ |})
    in Hmerge.
  assert (Hnot : ∀ c, c ∈ columns N → c ∉ columns reg_df).
  { intros c Hc Hc'. by apply (HdisN c). }
  destruct (merged_left_series ("GAME", "Game") N reg_df "duration_hours" id
              HwfN Hid) as (_ & hours & Hhours & Hhcells).
  { apply Hnot. assert (id ∈ positions "duration_hours" (columns N) 0)
      as Hin by (rewrite Hid; left).
    apply positions_lt in Hin as [_ Hin]. by eapply list_elem_of_lookup_2. }
  destruct (merged_left_series ("GAME", "Game") N reg_df "month" im
              HwfN Him) as (_ & months & Hmonths & Hmcells).
  { apply Hnot. assert (im ∈ positions "month" (columns N) 0)
      as Hin by (rewrite Him; left).
    apply positions_lt in Hin as [_ Hin]. by eapply list_elem_of_lookup_2. }
  destruct HGN as [ig Hig].
  destruct (merged_left_series ("GAME", "Game") N reg_df "GAME" ig
              HwfN Hig) as (HGm & _).
  { apply Hnot. assert (ig ∈ positions "GAME" (columns N) 0)
      as Hin by (rewrite Hig; left).
    apply positions_lt in Hin as [_ Hin]. by eapply list_elem_of_lookup_2. }
  fold merged in Hhours, Hmonths, HGm.
  assert (Hnum : Forall numeric hours).
  { apply Forall_forall. intros x Hx.
    destruct (Hhcells x Hx) as (l & Hl & ->).
    by apply (normalized_cells parse log_df l Hwf Hl). }
  assert (Hper : Forall is_period months).
  { apply Forall_forall. intros x Hx.
    destruct (Hmcells x Hx) as (l & Hl & ->).
    by apply (normalized_cells parse log_df l Hwf Hl). }
  destruct (main_charts_run nat_text px_bar px_area merged hours months
              HGm Hhours Hmonths Hnum Hper)
    as (m & a & t & g & Ht & Hg & Hsessions & _ & Hrun).
  destruct (genre_filter_Ok multiselect reg_df Htags) as [filtered Hf].
  destruct (genre_filter_sublist _ _ _ Hf) as [Hfcols Hfrows].
  destruct (game_card_view_Ok filtered) as [cards Hcards].
  { rewrite Hfcols. by apply has_column_elem. }
  assert (Hload : load
                  = match main_charts nat_text px_bar px_area merged with
                    | Raise e => Failed e
                    | Ok c => Shown c cards
                    end).
  { unfold load. rewrite app_load_run. fold log_df. rewrite Hnorm. cbv zeta.
    fold reg_df. rewrite Hmerge, Hf.
    destruct (main_charts _ _ _ merged); [|done]. by rewrite Hcards. }
  exists N, merged, t, g. repeat (split; [done|]).
  rewrite Hload, Hrun. split; [|split].
  - intros -> ->. simpl. eexists _, cards. split; [done|]. simpl. split.
    + rewrite Hsessions. unfold merged. simpl.
      etrans; [|apply length_join_ge].
      * unfold N, normalized, derive. simpl. rewrite !length_map.
        unfold log_df, load_from_gsheet. by destruct (records log_sheet).
      * intros l. rewrite fan_out_length. lia.
    + rewrite (game_card_view_length _ _ Hcards).
      apply sublist_length in Hfrows. etrans; [exact Hfrows|].
      unfold reg_df, stripped, load_from_gsheet. simpl.
      destruct (records reg_sheet); simpl; lia.
  - by intros e ->.
  - by intros e -> ->.
Qed.

Lemma app_load_shows_witness :
  ∃ c cards,
    app_load parse_iso_cell (λ _, [Str "RPG"]) keys_alike (Str "NaT")
      plot_nonempty plot_nonempty log_sheet_a reg_sheet_a
    = Shown c cards ∧
    (1 ≤ total_sessions (summary c))%nat ∧
    (length cards ≤ 2)%nat.
Proof.
  destruct (app_load_shows parse_iso_cell (λ _, [Str "RPG"]) keys_alike
              (Str "NaT") plot_nonempty plot_nonempty log_sheet_a
              reg_sheet_a)
    as (log_n & merged & t & g & Hn & Hm & Ht & Hg & Hok & _).
  - repeat constructor.
  - exists 7%nat. reflexivity.
  - exists 8%nat. reflexivity.
  - exists 4%nat. reflexivity.
  - apply (bool_decide_unpack _). vm_compute. exact I.
  - apply (bool_decide_unpack _). vm_compute. exact I.
  - exists 0%nat. reflexivity.
  - apply Forall_forall. apply (bool_decide_unpack _). vm_compute. exact I.
  - intros a b Ha%elem_of_all_tags Hb%elem_of_all_tags.
    assert (Hs : ∀ x, x ∈ all_tags (stripped (load_from_gsheet reg_sheet_a))
                      → kind x = 2).
    { intros x Hx.
      change (all_tags (stripped (load_from_gsheet reg_sheet_a)))
        with [Str "RPG"; Str "Puzzle"] in Hx.
      rewrite !elem_of_cons, elem_of_nil in Hx.
      destruct Hx as [->|[->|[]]]; reflexivity. }
    by rewrite (Hs a Ha), (Hs b Hb).
  - reflexivity.
  - cbv zeta in Hok.
    assert (En : Ok log_n
                 = normalize_log_frame parse_iso_cell
                     (load_from_gsheet log_sheet_a))
      by (symmetry; exact Hn).
    vm_compute in En. injection En as ->.
    assert (Em : Ok merged = merge_data keys_alike _ _)
      by (symmetry; exact Hm).
    vm_compute in Em. injection Em as ->.
    assert (Et : Ok t = top_games _) by (symmetry; exact Ht).
    vm_compute in Et. injection Et as ->.
    assert (Eg : Ok g = month_agg (Str "NaT") _) by (symmetry; exact Hg).
    vm_compute in Eg. injection Eg as ->.
    exact (Hok eq_refl eq_refl).
Defined.
